(** * Retro board: optimistic mutation, reconciliation, reactions and expiry

    A shallow embedding of the synchronisation logic of
    [src/src/components/MeetingBoard.tsx] (the live board component), of
    the dashboard's [checkExpiredMeetings] (src/unnamed/part_009) and of
    the row-level-security policies in [src/supabase/migrations], followed
    by the properties of the specification that concern them.  The
    other handlers of the board (update and delete notifications,
    presence, profiles, the four columns, drag and drop, the clocks), the
    typing handlers of the column component (src/unnamed/part_010) and
    [prepareMeetingEmailData] of [src/src/lib/emailService.ts] are
    embedded as well, with the properties the code shows for them.

    Conventions of the embedding:
    - ISO timestamps are represented by their epoch value in milliseconds
      ([new Date(s).getTime()]), a [Z];
    - a JavaScript number holding a like count is a [Z];
    - React state updates ([setNotes(prev => ...)]) are applied in program
      order; a value read from the render closure ([notes], [meeting],
      [likingNotes]) is the state at the moment the handler is entered;
      what the screen shows changes only between two tasks, so a dialog
      opened by [alert] stands over the list the task was entered with;
    - an [async] function is cut at its [await] points: it returns the
      state after its synchronous prefix and the tasks it has left
      pending, each with its continuation. *)

From Stdlib Require Import ZArith Lia Ascii.
From stdpp Require Import base strings list gmap pretty.

Local Open Scope Z_scope.

(** ** JavaScript helpers *)

(** [s.includes(sub)] *)
Fixpoint includes (sub s : string) : bool :=
  String.prefix sub s ||
  match s with
  | EmptyString => false
  | String _ s' => includes sub s'
  end.

(** [Math.max(a, b)] on integers is [Z.max]. *)

(** ** Data model *)

(** [Note.type] *)
Inductive NoteType := glad | mad | sad | action.

(** [Meeting.status] *)
Inductive MeetingStatus := active | ended.

#[global] Instance NoteType_eq_dec : EqDecision NoteType.
Proof. solve_decision. Defined.

#[global] Instance MeetingStatus_eq_dec : EqDecision MeetingStatus.
Proof. solve_decision. Defined.

(** [interface Note] *)
Record Note := mkNote {
  note_id : string;
  note_content : string;
  note_type : NoteType;
  note_created_by : string;
  note_created_at : Z;
  note_updated_at : Z;
  like_count : Z;
  user_liked : bool;
}.

(** [interface Meeting] *)
Record Meeting := mkMeeting {
  meeting_id : string;
  meeting_title : string;
  meeting_code : string;
  meeting_created_by : string;
  meeting_status : MeetingStatus;
  meeting_ended_at : option Z;
  meeting_ended_by : option string;
  meeting_created_at : Z;
}.

(** A row of table [notes] (migration old_cell.sql): a [Note] without the
    like fields, with the foreign key [meeting_id]. *)
Record NoteRow := mkNoteRow {
  row_id : string;
  row_meeting_id : string;
  row_content : string;
  row_type : NoteType;
  row_created_by : string;
  row_created_at : Z;
  row_updated_at : Z;
}.

(** [{ ...row, like_count, user_liked }] *)
Definition note_of_row (r : NoteRow) (c : Z) (l : bool) : Note :=
  mkNote (row_id r) (row_content r) (row_type r) (row_created_by r)
         (row_created_at r) (row_updated_at r) c l.

(** ** Requests sent to the store and their responses *)

(** The object passed to [.update({...})] on table [meetings]. *)
Record MeetingPatch := mkMeetingPatch {
  patch_status : MeetingStatus;
  patch_ended_at : option Z;
  patch_ended_by : option string;
}.

(** One constructor per query the board and the dashboard build on the
    tables [meetings], [notes] and [note_likes].  The [eq_*] arguments
    are the [.eq(column, value)] filters of the query, exactly those the
    source writes; [user?.id] may be undefined, hence [option].
    [UpdateMeeting] is the query of [checkMeetingExpiration] and
    [checkExpiredMeetings] (filter on [id] only), [UpdateOwnMeeting] the
    one of [handleEndMeetingConfirm] (filters on [id] and [created_by]).
    [InsertMeeting] is the query of the dashboard's [createMeeting]
    (always with [status: 'active']), [DeleteNotesByMeeting] and
    [DeleteMeeting] are the two queries of its
    [handleDeleteMeetingConfirm].  [InsertLike] is the plain insert by
    which the older copy of the board (src/unnamed/part_008) likes an
    item, where the live board sends [UpsertLike]. *)
Inductive Request :=
| InsertNote (meeting_id content : string) (type : NoteType) (created_by : string)
| UpdateNoteContent (content : string) (eq_id : string) (eq_created_by : option string)
| UpdateNoteType (type : NoteType) (eq_id : string)
| DeleteNote (eq_id : string) (eq_created_by : option string)
| UpsertLike (note_id user_id : string)
| DeleteLike (eq_note_id eq_user_id : string)
| SelectLikes (eq_note_id eq_user_id : string)
| UpdateMeeting (patch : MeetingPatch) (eq_id : string)
| UpdateOwnMeeting (patch : MeetingPatch) (eq_id eq_created_by : string)
| SelectExpiredMeetings (eq_created_by : string) (lt_created_at : Z)
| InsertMeeting (title meeting_code : string) (created_by : option string)
| DeleteNotesByMeeting (eq_meeting_id : string)
| DeleteMeeting (eq_id eq_created_by : string)
| InsertLike (note_id user_id : string).

(** What the awaited promise resolves to: [{ data, error }], or a
    rejection ([RThrow]) caught by the surrounding [try]. *)
Inductive Response :=
| RError (message : string)
| ROk
| RNote (data : NoteRow)
| RMeeting (data : Meeting)
| RMeetings (data : list Meeting)
| RLikes (likeCount : option Z) (userLike : bool)
| RThrow.

(** ** The store

    The store is the hosted Postgres/PostgREST service.  The repository
    fixes its tables and its row-level-security policies (the SQL files
    under src/supabase and src/unnamed); those are embedded below, with
    the usual semantics of a filtered UPDATE/DELETE under RLS: a row is
    touched when it passes the query's filters and the policy's USING
    expression; several permissive policies for one command are OR-ed. *)

Record Store := mkStore {
  meetings : list Meeting;
  notes_table : list NoteRow;
  note_likes : list (string * string);   (* (note_id, user_id), UNIQUE *)
}.

(** [gen_random_uuid()] and [now()] of the statement being executed. *)
Record StoreEnv := mkStoreEnv { env_uuid : string; env_now : Z }.

(** [status === 'active'], [status === 'ended'] *)
Definition is_active (s : MeetingStatus) : bool :=
  match s with active => true | ended => false end.
Definition is_ended (s : MeetingStatus) : bool :=
  match s with ended => true | active => false end.

(** [EXISTS (SELECT 1 FROM meetings WHERE meetings.id = mid
            AND meetings.status = 'active')] *)
Definition meeting_active (st : Store) (mid : string) : bool :=
  existsb (fun m => String.eqb (meeting_id m) mid && is_active (meeting_status m))
          (meetings st).

(** [EXISTS (SELECT 1 FROM notes JOIN meetings ON notes.meeting_id = meetings.id
            WHERE notes.id = nid AND meetings.status = 'active')] *)
Definition note_in_active_meeting (st : Store) (nid : string) : bool :=
  existsb (fun r => String.eqb (row_id r) nid && meeting_active st (row_meeting_id r))
          (notes_table st).

Module Policy.
(** amber_desert.sql: "Users can update their own meetings" *)
Definition update_own_meetings (uid : string) (m : Meeting) : bool :=
  String.eqb uid (meeting_created_by m).

(** amber_desert.sql: "Users can create meetings",
    [WITH CHECK (auth.uid() = created_by)]; a missing [created_by] is
    NULL and fails the check. *)
Definition create_meetings (uid : string) (created_by : option string) : bool :=
  match created_by with
  | Some cb => String.eqb uid cb
  | None => false
  end.

(** amber_desert.sql: "Users can delete their own meetings"; the
    expression does not look at the status. *)
Definition delete_own_meetings (uid : string) (m : Meeting) : bool :=
  String.eqb uid (meeting_created_by m).

(** part_003: "Users can create notes" *)
Definition create_notes (st : Store) (uid : string) (r : NoteRow) : bool :=
  String.eqb uid (row_created_by r) && meeting_active st (row_meeting_id r).

(** allow_collaborative_note_moving.sql: "Note creators can update content" *)
Definition note_creators_can_update_content
    (st : Store) (uid : string) (r : NoteRow) : bool :=
  String.eqb uid (row_created_by r) && meeting_active st (row_meeting_id r).

(** allow_collaborative_note_moving.sql:
    "Anyone can move notes between sections" *)
Definition anyone_can_move_notes
    (st : Store) (uid : string) (r : NoteRow) : bool :=
  meeting_active st (row_meeting_id r).

(** The two permissive UPDATE policies on [notes], OR-ed. *)
Definition update_notes (st : Store) (uid : string) (r : NoteRow) : bool :=
  note_creators_can_update_content st uid r || anyone_can_move_notes st uid r.

(** part_003: "Users can delete their own notes" *)
Definition delete_own_notes (st : Store) (uid : string) (r : NoteRow) : bool :=
  String.eqb uid (row_created_by r) && meeting_active st (row_meeting_id r).

(** solitary_hill.sql: "Users can like notes in active meetings" *)
Definition like_notes (st : Store) (uid : string) (l : string * string) : bool :=
  String.eqb uid l.2 && note_in_active_meeting st l.1.

(** solitary_hill.sql: "Users can unlike their own likes" *)
Definition unlike_own (st : Store) (uid : string) (l : string * string) : bool :=
  String.eqb uid l.2 && note_in_active_meeting st l.1.
End Policy.

(** Error messages of the service. *)
Definition msg_no_rows : string :=
  "JSON object requested, multiple (or no) rows returned".
(** The double quote, and a name between double quotes. *)
Definition dquote : ascii := Ascii false true false false false true false false.
Definition quoted (name : string) : string :=
  String dquote (name +:+ String dquote EmptyString).

Definition msg_rls (table : string) : string :=
  "new row violates row-level security policy for table " +:+ quoted table.
(** The answer to an [INSERT ... ON CONFLICT DO UPDATE] whose conflicting
    row passes no UPDATE policy. *)
Definition msg_rls_using (table : string) : string :=
  "new row violates row-level security policy (USING expression) for table "
  +:+ quoted table.
Definition msg_duplicate_key : string :=
  "duplicate key value violates unique constraint".
(** The answer to a filter [created_by=eq.undefined] on a [uuid] column
    (SQLSTATE 22P02). *)
Definition msg_invalid_uuid : string :=
  "invalid input syntax for type uuid: " +:+ quoted "undefined".

(** [.select().single()]: exactly one row, or an error. *)
Definition single {A} (ok : A -> Response) (rows : list A) : Response :=
  match rows with
  | [r] => ok r
  | _ => RError msg_no_rows
  end.

Definition apply_patch (p : MeetingPatch) (m : Meeting) : Meeting :=
  mkMeeting (meeting_id m) (meeting_title m) (meeting_code m)
            (meeting_created_by m) (patch_status p) (patch_ended_at p)
            (patch_ended_by p) (meeting_created_at m).

(** Rows of [meetings] an UPDATE issued by [uid] touches: those passing
    the query's filters [flt] and the USING expression of the policy. *)
Definition meeting_hit (uid : string) (flt : Meeting -> bool) (m : Meeting) : bool :=
  flt m && Policy.update_own_meetings uid m.

Definition update_meetings (uid : string) (p : MeetingPatch)
    (flt : Meeting -> bool) (ms : list Meeting) : list Meeting :=
  map (fun m => if meeting_hit uid flt m then apply_patch p m else m) ms.

(** The rows the UPDATE returns ([.select()]): the touched rows, updated. *)
Definition updated_meetings (uid : string) (p : MeetingPatch)
    (flt : Meeting -> bool) (ms : list Meeting) : list Meeting :=
  map (apply_patch p) (List.filter (meeting_hit uid flt) ms).

Definition by_id (eq_id : string) (m : Meeting) : bool :=
  String.eqb (meeting_id m) eq_id.

Definition by_id_and_owner (eq_id eq_created_by : string) (m : Meeting) : bool :=
  String.eqb (meeting_id m) eq_id && String.eqb (meeting_created_by m) eq_created_by.

(** Rows of [notes] an UPDATE touches. *)
Definition note_hit (st : Store) (uid : string) (flt : NoteRow -> bool)
    (r : NoteRow) : bool :=
  flt r && Policy.update_notes st uid r.

Definition row_by_id (eq_id : string) (r : NoteRow) : bool :=
  String.eqb (row_id r) eq_id.

Definition row_by_id_and_author (eq_id eq_created_by : string) (r : NoteRow) : bool :=
  String.eqb (row_id r) eq_id && String.eqb eq_created_by (row_created_by r).

Definition row_by_meeting (eq_meeting_id : string) (r : NoteRow) : bool :=
  String.eqb (row_meeting_id r) eq_meeting_id.

(** [SET content = c]; the trigger [update_notes_updated_at] stamps the row. *)
Definition set_row_content (c : string) (now : Z) (r : NoteRow) : NoteRow :=
  mkNoteRow (row_id r) (row_meeting_id r) c (row_type r) (row_created_by r)
            (row_created_at r) now.

(** [SET type = t] *)
Definition set_row_type (t : NoteType) (now : Z) (r : NoteRow) : NoteRow :=
  mkNoteRow (row_id r) (row_meeting_id r) (row_content r) t (row_created_by r)
            (row_created_at r) now.

Definition update_notes (st : Store) (uid : string) (upd : NoteRow -> NoteRow)
    (flt : NoteRow -> bool) : list NoteRow :=
  map (fun r => if note_hit st uid flt r then upd r else r) (notes_table st).

Definition updated_notes (st : Store) (uid : string) (upd : NoteRow -> NoteRow)
    (flt : NoteRow -> bool) : list NoteRow :=
  map upd (List.filter (note_hit st uid flt) (notes_table st)).

Definition pair_eqb (a b : string * string) : bool :=
  String.eqb a.1 b.1 && String.eqb a.2 b.2.

Definition has_like (st : Store) (l : string * string) : bool :=
  existsb (pair_eqb l) (note_likes st).

(** [select('*', { count: 'exact', head: true }).eq('note_id', nid)] *)
Definition count_likes (st : Store) (nid : string) : Z :=
  Z.of_nat (length (List.filter (fun l => String.eqb l.1 nid) (note_likes st))).

(** [DELETE FROM notes] of the rows [gone]; [note_likes.note_id ... ON
    DELETE CASCADE] removes the likes on them. *)
Definition delete_notes (gone : NoteRow -> bool) (st : Store) : Store :=
  mkStore (meetings st)
          (List.filter (fun r => negb (gone r)) (notes_table st))
          (List.filter (fun l => negb (existsb (fun r => gone r && String.eqb (row_id r) l.1)
                                               (notes_table st)))
                       (note_likes st)).

(** [DELETE FROM meetings] of the rows [gone]; [notes.meeting_id ... ON
    DELETE CASCADE] removes their items, whatever the policies on [notes]
    say, and with them the likes on those items. *)
Definition delete_meetings (gone : Meeting -> bool) (st : Store) : Store :=
  let orphan r := existsb (fun m => gone m && String.eqb (meeting_id m) (row_meeting_id r))
                          (meetings st) in
  delete_notes orphan
    (mkStore (List.filter (fun m => negb (gone m)) (meetings st))
             (notes_table st) (note_likes st)).

(** Execution of one request by the store on behalf of the authenticated
    user [uid].  An INSERT must pass the policy's WITH CHECK and the
    table's key constraints (primary keys, UNIQUE [meeting_code]); an
    UPDATE or DELETE touches the rows selected by the filters that pass
    the policy, and touching none is not an error unless [.single()]
    asks for one row.  A plain insert of a like fails on the UNIQUE
    pair when the pair is stored.  The upsert of a like is [INSERT ... ON
    CONFLICT (note_id, user_id) DO UPDATE]: it never fails on that pair;
    when the pair is stored it turns into an UPDATE of that row, and as
    no migration gives [note_likes] an UPDATE policy the statement is
    refused.  A filter on an undefined user is not a valid [uuid]: the
    query is rejected before it touches a row. *)
Definition store_exec (uid : string) (env : StoreEnv) (rq : Request)
    (st : Store) : Store * Response :=
  match rq with
  | InsertNote mid c t cb =>
      let r := mkNoteRow (env_uuid env) mid c t cb (env_now env) (env_now env) in
      if negb (Policy.create_notes st uid r) then (st, RError (msg_rls "notes"))
      else if existsb (row_by_id (env_uuid env)) (notes_table st)
      then (st, RError msg_duplicate_key)
      else (mkStore (meetings st) (notes_table st ++ [r]) (note_likes st), RNote r)
  | UpdateNoteContent c eq_id None => (st, RError msg_invalid_uuid)
  | UpdateNoteContent c eq_id (Some eq_cb) =>
      let flt := row_by_id_and_author eq_id eq_cb in
      (mkStore (meetings st)
               (update_notes st uid (set_row_content c (env_now env)) flt)
               (note_likes st),
       single RNote (updated_notes st uid (set_row_content c (env_now env)) flt))
  | UpdateNoteType t eq_id =>
      let flt := row_by_id eq_id in
      (mkStore (meetings st)
               (update_notes st uid (set_row_type t (env_now env)) flt)
               (note_likes st),
       single RNote (updated_notes st uid (set_row_type t (env_now env)) flt))
  | DeleteNote eq_id None => (st, RError msg_invalid_uuid)
  | DeleteNote eq_id (Some eq_cb) =>
      (delete_notes (fun r => row_by_id_and_author eq_id eq_cb r
                              && Policy.delete_own_notes st uid r) st,
       ROk)
  | UpsertLike nid u =>
      if negb (Policy.like_notes st uid (nid, u))
      then (st, RError (msg_rls "note_likes"))
      else if has_like st (nid, u)
      then (st, RError (msg_rls_using "note_likes"))
      else (mkStore (meetings st) (notes_table st) (note_likes st ++ [(nid, u)]), ROk)
  | DeleteLike nid u =>
      (mkStore (meetings st) (notes_table st)
               (List.filter (fun l => negb (pair_eqb (nid, u) l && Policy.unlike_own st uid l))
                            (note_likes st)),
       ROk)
  | SelectLikes nid u =>
      (st, RLikes (Some (count_likes st nid)) (has_like st (nid, u)))
  | UpdateMeeting p eq_id =>
      (mkStore (update_meetings uid p (by_id eq_id) (meetings st))
               (notes_table st) (note_likes st),
       single RMeeting (updated_meetings uid p (by_id eq_id) (meetings st)))
  | UpdateOwnMeeting p eq_id eq_cb =>
      (mkStore (update_meetings uid p (by_id_and_owner eq_id eq_cb) (meetings st))
               (notes_table st) (note_likes st),
       single RMeeting (updated_meetings uid p (by_id_and_owner eq_id eq_cb) (meetings st)))
  | SelectExpiredMeetings cb t =>
      (st, RMeetings (List.filter
                        (fun m => String.eqb (meeting_created_by m) cb
                                  && is_active (meeting_status m)
                                  && (meeting_created_at m <? t))
                        (meetings st)))
  | InsertMeeting title code cb =>
      let m := mkMeeting (env_uuid env) title code (default "" cb) active None None
                         (env_now env) in
      if negb (Policy.create_meetings uid cb) then (st, RError (msg_rls "meetings"))
      else if existsb (by_id (env_uuid env)) (meetings st)
              || existsb (fun m' => String.eqb (meeting_code m') code) (meetings st)
      then (st, RError msg_duplicate_key)
      else (mkStore (meetings st ++ [m]) (notes_table st) (note_likes st), RMeeting m)
  | DeleteNotesByMeeting eq_mid =>
      (delete_notes (fun r => row_by_meeting eq_mid r
                              && Policy.delete_own_notes st uid r) st,
       ROk)
  | DeleteMeeting eq_id eq_cb =>
      let gone m := by_id_and_owner eq_id eq_cb m && Policy.delete_own_meetings uid m in
      (delete_meetings gone st, RMeetings (List.filter gone (meetings st)))
  | InsertLike nid u =>
      if negb (Policy.like_notes st uid (nid, u))
      then (st, RError (msg_rls "note_likes"))
      else if has_like st (nid, u)
      then (st, RError msg_duplicate_key)
      else (mkStore (meetings st) (notes_table st) (note_likes st ++ [(nid, u)]), ROk)
  end.

(** ** The client: state of the [MeetingBoard] component *)

(** Payload of [channel.send({ type: 'broadcast', event: 'like_change', ... })]. *)
Inductive Signal :=
| LikeChange (noteId userId : string) (liked : bool) (timestamp : Z).

(** What the user or the peers can observe of a handler, in program
    order.  [Alert] records, next to the message, the item list the
    screen shows while the dialog is open. *)
Inductive Effect :=
| Alert (message : string) (shown_over : list Note)
| Send (payload : Signal).

Record ClientState := mkClient {
  user : option string;          (* [useAuth().user?.id] *)
  meeting : option Meeting;
  notes : list Note;
  likingNotes : gset string;
  channelRef : bool;             (* [channelRef.current] is set *)
  effects : list Effect;         (* oldest first *)
}.

(** Work an [async] handler has left pending: an awaited request with
    the code after the [await], or a [setTimeout] callback. *)
#[warnings="-register-all"]
Inductive Task :=
| Await (rq : Request) (k : Response -> ClientState -> ClientState * list Task)
| Timeout (delay : Z) (k : ClientState -> ClientState * list Task).

Definition Proc : Type := ClientState -> ClientState * list Task.

Definition setNotes (f : list Note -> list Note) (s : ClientState) : ClientState :=
  mkClient (user s) (meeting s) (f (notes s)) (likingNotes s) (channelRef s) (effects s).

Definition setMeeting (m : Meeting) (s : ClientState) : ClientState :=
  mkClient (user s) (Some m) (notes s) (likingNotes s) (channelRef s) (effects s).

Definition setLikingNotes (f : gset string -> gset string) (s : ClientState)
    : ClientState :=
  mkClient (user s) (meeting s) (notes s) (f (likingNotes s)) (channelRef s) (effects s).

(** [alert(message)].  The dialog blocks the task that opens it, and
    React renders the state updates a task has queued only once the task
    has ended: [rendered], the list on screen while the dialog is open,
    is the list held when the running task started (the handler or the
    code after an [await] passes the list of the state it was entered
    with), not the list [s] holds after the [setNotes] calls that came
    before the [alert] in the same task. *)
Definition alert (rendered : list Note) (message : string) (s : ClientState)
    : ClientState :=
  mkClient (user s) (meeting s) (notes s) (likingNotes s) (channelRef s)
           (effects s ++ [Alert message rendered]).

Definition send (p : Signal) (s : ClientState) : ClientState :=
  mkClient (user s) (meeting s) (notes s) (likingNotes s) (channelRef s)
           (effects s ++ [Send p]).

(** [note.id === noteId] *)
Definition has_id (noteId : string) (n : Note) : bool :=
  String.eqb (note_id n) noteId.

(** [prev.map(note => note.id === noteId ? f(note) : note)] *)
Definition map_note (noteId : string) (f : Note -> Note) (l : list Note) : list Note :=
  map (fun note => if has_id noteId note then f note else note) l.

Definition with_content (content : string) (now : Z) (n : Note) : Note :=
  mkNote (note_id n) content (note_type n) (note_created_by n)
         (note_created_at n) now (like_count n) (user_liked n).

Definition with_type (t : NoteType) (now : Z) (n : Note) : Note :=
  mkNote (note_id n) (note_content n) t (note_created_by n)
         (note_created_at n) now (like_count n) (user_liked n).

Definition with_likes (c : Z) (l : bool) (n : Note) : Note :=
  mkNote (note_id n) (note_content n) (note_type n) (note_created_by n)
         (note_created_at n) (note_updated_at n) c l.

Definition msg_ended (what : string) : string :=
  "This meeting has ended. You can no longer " +:+ what +:+ ".".

(** [error.message.includes('active') ? alert(ended) : alert(other)] *)
Definition alert_failure (rendered : list Note) (what other message : string)
    : ClientState -> ClientState :=
  if includes "active" message then alert rendered (msg_ended what)
  else alert rendered other.

(** *** [addNote]

    (The call to [ensureUserProfile] after a successful insert concerns
    the profile map only and is left out, as are the profile lookups of
    the notification handlers.) *)
Definition addNote (type : NoteType) (content : string) : Proc := fun s =>
  match meeting s, user s with
  | Some m, Some u =>
      if is_ended (meeting_status m) then
        (alert (notes s) (msg_ended "add notes") s, [])
      else
        (s, [Await (InsertNote (meeting_id m) content type u) (fun resp s' =>
               match resp with
               | RError message =>
                   (alert_failure (notes s') "add notes"
                                  ("Failed to add note: " +:+ message) message s', [])
               | RNote data =>
                   (setNotes (fun prev => prev ++ [note_of_row data 0 false]) s', [])
               | _ => (s', [])   (* not a result of [.insert().select().single()] *)
               end)])
  | _, _ => (s, [])
  end.

(** The code after the [await] of [updateNote] and [updateNoteType]. *)
Definition update_settled (what other : string) (noteId : string)
    (originalNote : option Note) (resp : Response) : Proc := fun s' =>
  match resp with
  | RError message =>
      let rolled :=
        match originalNote with
        | Some o => setNotes (map_note noteId (fun _ => o)) s'
        | None => s'
        end in
      (alert_failure (notes s') what (other +:+ message) message rolled, [])
  | _ => (s', [])
  end.

(** *** [updateNote] *)
Definition updateNote (now : Z) (noteId content : string) : Proc := fun s =>
  let ended_msg := msg_ended "edit notes" in
  match meeting s with
  | None => (alert (notes s) ended_msg s, [])
  | Some m =>
      if is_ended (meeting_status m) then (alert (notes s) ended_msg s, [])
      else
        let originalNote := List.find (has_id noteId) (notes s) in
        (setNotes (map_note noteId (with_content content now)) s,
         [Await (UpdateNoteContent content noteId (user s))
                (update_settled "edit notes" "Failed to update note: "
                                noteId originalNote)])
  end.

(** *** [updateNoteType] *)
Definition updateNoteType (now : Z) (noteId : string) (newType : NoteType) : Proc :=
  fun s =>
  let ended_msg := msg_ended "move notes" in
  match meeting s with
  | None => (alert (notes s) ended_msg s, [])
  | Some m =>
      if is_ended (meeting_status m) then (alert (notes s) ended_msg s, [])
      else
        let originalNote := List.find (has_id noteId) (notes s) in
        (setNotes (map_note noteId (with_type newType now)) s,
         [Await (UpdateNoteType newType noteId)
                (update_settled "move notes" "Failed to move note: "
                                noteId originalNote)])
  end.

(** The code after the [await] of [deleteNote]. *)
Definition delete_settled (originalNote : option Note) (resp : Response) : Proc :=
  fun s' =>
  match resp with
  | RError message =>
      let rolled :=
        match originalNote with
        | Some o => setNotes (fun prev => prev ++ [o]) s'
        | None => s'
        end in
      (alert_failure (notes s') "delete notes" ("Failed to delete note: " +:+ message)
                     message rolled, [])
  | _ => (s', [])
  end.

(** *** [deleteNote] *)
Definition deleteNote (noteId : string) : Proc := fun s =>
  let ended_msg := msg_ended "delete notes" in
  match meeting s with
  | None => (alert (notes s) ended_msg s, [])
  | Some m =>
      if is_ended (meeting_status m) then (alert (notes s) ended_msg s, [])
      else
        let originalNote := List.find (has_id noteId) (notes s) in
        (setNotes (List.filter (fun note => negb (has_id noteId note))) s,
         [Await (DeleteNote noteId (user s)) (delete_settled originalNote)])
  end.

(** *** [fetchNoteWithLikes]

    The count query and the [maybeSingle] query are one request here;
    [likeCount || 0] and [!!userLike] are applied to its answer, and a
    rejected promise gives the [catch] branch's zero and [false]. *)
Definition refreshed_note (note : Note) (resp : Response) : Note :=
  match resp with
  | RLikes likeCount userLike => with_likes (default 0 likeCount) userLike note
  | _ => with_likes 0 false note
  end.

Definition fetchNoteWithLikes (note : Note) (k : Note -> Proc) : Proc := fun s =>
  match user s with
  | None => k (with_likes 0 false note) s
  | Some u =>
      (s, [Await (SelectLikes (note_id note) u) (fun resp => k (refreshed_note note resp))])
  end.

(** *** [toggleNoteLike] *)

(** [{ ...n, user_liked: !n.user_liked,
       like_count: n.user_liked ? n.like_count - 1 : n.like_count + 1 }] *)
Definition flip_like (n : Note) : Note :=
  with_likes (if user_liked n then like_count n - 1 else like_count n + 1)
             (negb (user_liked n)) n.

(** The optimistic update of the first click:
    [{ ...n, user_liked: newLikedState,
       like_count: initialLikedState ? n.like_count - 1 : n.like_count + 1 }] *)
Definition apply_like (initialLikedState : bool) (n : Note) : Note :=
  with_likes (if initialLikedState then like_count n - 1 else like_count n + 1)
             (negb initialLikedState) n.

(** "Revert to original state" *)
Definition revert_like (initialLikedState : bool) (n : Note) : Note :=
  with_likes (if initialLikedState then like_count n + 1 else like_count n - 1)
             initialLikedState n.

(** [{ ...n, user_liked: true, like_count: Math.max(0, n.like_count) }] *)
Definition ensure_liked (n : Note) : Note :=
  with_likes (Z.max 0 (like_count n)) true n.

(** [setTimeout(refresh, 100)] after the database operation. *)
Definition refresh_timer (noteId : string) (note : Note) : Task :=
  Timeout 100 (fetchNoteWithLikes note (fun refreshedNote s =>
    (setNotes (map_note noteId (fun _ => refreshedNote)) s, []))).

(** [finally { setTimeout(() => setLikingNotes(... delete noteId), 200) }] *)
Definition unmark_timer (noteId : string) : Task :=
  Timeout 200 (fun s => (setLikingNotes (fun prev => prev ∖ {[ noteId ]}) s, [])).

(** The code after [await ...upsert(...)] / [await ...delete()]. *)
Definition like_settled (noteId : string) (note : Note)
    (initialLikedState : bool) (resp : Response) : Proc := fun s =>
  let newLikedState := negb initialLikedState in
  let revert := setNotes (map_note noteId (fun n => revert_like initialLikedState n)) in
  match resp with
  | RThrow =>
      (alert (notes s) "Failed to toggle like. Please try again." (revert s),
       [unmark_timer noteId])
  | RError message =>
      let s1 :=
        if newLikedState then
          if includes "duplicate key" message then
            setNotes (map_note noteId ensure_liked) s
          else
            alert_failure (notes s) "like notes" "Failed to like note. Please try again."
                          message (revert s)
        else
          alert_failure (notes s) "like notes" "Failed to unlike note. Please try again."
                        message (revert s) in
      (s1, [refresh_timer noteId note; unmark_timer noteId])
  | _ => (s, [refresh_timer noteId note; unmark_timer noteId])
  end.

Definition toggleNoteLike (now : Z) (noteId : string) : Proc := fun s =>
  match meeting s, user s with
  | Some m, Some u =>
      if is_ended (meeting_status m) then (alert (notes s) (msg_ended "like notes") s, [])
      else
        match List.find (has_id noteId) (notes s) with
        | None => (s, [])
        | Some note =>
            if bool_decide (noteId ∈ likingNotes s) then
              (setNotes (map_note noteId flip_like) s, [])
            else
              let initialLikedState := user_liked note in
              let newLikedState := negb initialLikedState in
              let s1 := setLikingNotes (fun prev => prev ∪ {[ noteId ]}) s in
              let s2 := setNotes (map_note noteId (apply_like initialLikedState)) s1 in
              let s3 := if channelRef s2
                        then send (LikeChange noteId u newLikedState now) s2
                        else s2 in
              (s3, [Await (if newLikedState then UpsertLike noteId u
                           else DeleteLike noteId u)
                          (like_settled noteId note initialLikedState)])
        end
  | Some m, None =>
      if is_ended (meeting_status m) then (alert (notes s) (msg_ended "like notes") s, [])
      else (s, [])
  | None, _ => (s, [])
  end.

(** *** Handlers registered by [subscribeToNotes] *)

(** [postgres_changes], event INSERT on [notes]. *)
Definition on_note_insert (newNote : NoteRow) : Proc := fun s =>
  match user s with
  | None => (s, [])                 (* [subscribeToNotes] registered nothing *)
  | Some u =>
      if String.eqb (row_created_by newNote) u then (s, [])
      else
        fetchNoteWithLikes (note_of_row newNote 0 false) (fun noteWithLikes s' =>
          (setNotes (fun prev =>
                       if existsb (has_id (row_id newNote)) prev then prev
                       else prev ++ [noteWithLikes]) s', [])) s
  end.

(** [like_count: Math.max(0, note.like_count + likeCountDelta)] *)
Definition apply_delta (liked : bool) (n : Note) : Note :=
  let likeCountDelta := if liked then 1 else -1 in
  with_likes (Z.max 0 (like_count n + likeCountDelta)) (user_liked n) n.

(** [broadcast], event [like_change].  [closure_notes] is the [notes]
    captured by the handler when [subscribeToNotes] ran; the update
    itself goes through [setNotes(prev => ...)]. *)
Definition on_like_change (closure_notes : list Note)
    (noteId userId : string) (liked : bool) : Proc := fun s =>
  match user s with
  | None => (s, [])
  | Some u =>
      if String.eqb userId u then (s, [])
      else
        match List.find (has_id noteId) closure_notes with
        | None => (s, [])
        | Some noteToUpdate =>
            (setNotes (map_note noteId (apply_delta liked)) s,
             [Timeout 300 (fetchNoteWithLikes noteToUpdate (fun refreshedNote s' =>
                (setNotes (map_note noteId (fun _ => refreshedNote)) s', [])))])
        end
  end.

(** *** Expiry *)

Definition two_hours : Z := 2 * 60 * 60 * 1000.

(** [{ status: 'ended', ended_at: new Date().toISOString(), ended_by: null }] *)
Definition auto_end (now : Z) : MeetingPatch := mkMeetingPatch ended (Some now) None.

(** [checkMeetingExpiration] of the board. *)
Definition checkMeetingExpiration (now : Z) : Proc := fun s =>
  match meeting s with
  | None => (s, [])
  | Some m =>
      if is_ended (meeting_status m) then (s, [])
      else if now >=? meeting_created_at m + two_hours then
        (s, [Await (UpdateMeeting (auto_end now) (meeting_id m)) (fun resp s' =>
               match resp with
               | RMeeting data => (setMeeting data s', [])
               | _ => (s', [])
               end)])
      else (s, [])
  end.

(** The [for] loop of the dashboard's [checkExpiredMeetings]: one update
    after the other, each selected by [id] alone.  (Sending the summary
    mails between two updates touches neither the board nor the store.) *)
Fixpoint expire_each (now : Z) (expiredMeetings : list Meeting) : list Task :=
  match expiredMeetings with
  | [] => []
  | m :: rest =>
      [Await (UpdateMeeting (auto_end now) (meeting_id m))
             (fun _ s => (s, expire_each now rest))]
  end.

(** [checkExpiredMeetings] of the dashboard (src/unnamed/part_009). *)
Definition checkExpiredMeetings (now : Z) : Proc := fun s =>
  match user s with
  | None => (s, [])
  | Some u =>
      (s, [Await (SelectExpiredMeetings u (now - two_hours)) (fun resp s' =>
             match resp with
             | RMeetings expiredMeetings => (s', expire_each now expiredMeetings)
             | _ => (s', [])
             end)])
  end.

(** The patch of [handleEndMeetingConfirm] (the host ends the meeting by
    hand): [{ status: 'ended', ended_at: ..., ended_by: user.id }], sent
    with [UpdateOwnMeeting]. *)
Definition manual_end (now : Z) (u : string) : MeetingPatch :=
  mkMeetingPatch ended (Some now) (Some u).

(** ** The event loop: one client, the store, and the pending tasks *)

Record World := mkWorld {
  session : string;       (* [auth.uid()] of the client's requests *)
  client : ClientState;
  store : Store;
  tasks : list Task;
}.

(** The user triggers a handler. *)
Definition call (p : Proc) (w : World) : World :=
  let '(c, ts) := p (client w) in
  mkWorld (session w) c (store w) (tasks w ++ ts).

(** The [i]-th pending task completes: an awaited request is executed by
    the store and the handler resumes with its answer; a timer fires. *)
Definition resolve (env : StoreEnv) (i : nat) (w : World) : World :=
  match tasks w !! i with
  | None => w
  | Some (Await rq k) =>
      let '(st, resp) := store_exec (session w) env rq (store w) in
      let '(c, ts) := k resp (client w) in
      mkWorld (session w) c st (delete i (tasks w) ++ ts)
  | Some (Timeout _ k) =>
      let '(c, ts) := k (client w) in
      mkWorld (session w) c (store w) (delete i (tasks w) ++ ts)
  end.

(** Nothing is in flight any more. *)
Definition settled (w : World) : Prop := tasks w = [].

(** The requests among pending tasks. *)
Definition request_of (t : Task) : option Request :=
  match t with
  | Await rq _ => Some rq
  | Timeout _ _ => None
  end.

Definition requests (ts : list Task) : list Request := omap request_of ts.

(** The broadcasts among logged effects. *)
Definition signal_of (e : Effect) : option Signal :=
  match e with
  | Send p => Some p
  | Alert _ _ => None
  end.

Definition broadcasts (es : list Effect) : list Signal := omap signal_of es.

(** ** Typing indicators

    The receiving side of the [typing] broadcast.  [typingTimeoutRef]
    holds, per item, the handle of the one timer armed for it; here the
    handle is the instant at which the timer is due.  [clearTimeout]
    followed by a new [setTimeout] overwrites the entry; the timer's
    callback and the "stopped" branch delete it. *)

Record TypingIndicator := mkIndicator {
  ind_userId : string;
  ind_userName : string;
  ind_timestamp : Z;
}.

Record TypingState := mkTyping {
  typingIndicators : gmap string TypingIndicator;
  typingTimeoutRef : gmap string Z;
}.

(** The handler of [channel.on('broadcast', { event: 'typing' }, ...)],
    run at instant [now] by the client of user [me]. *)
Definition on_typing (me : string) (now : Z)
    (noteId userId userName : string) (isTyping : bool) (t : TypingState)
    : TypingState :=
  if String.eqb userId me then t
  else if isTyping then
    mkTyping (<[noteId := mkIndicator userId userName now]> (typingIndicators t))
             (<[noteId := now + 3000]> (typingTimeoutRef t))
  else
    mkTyping (delete noteId (typingIndicators t))
             (delete noteId (typingTimeoutRef t)).

(** The timer armed for [noteId] is due at [now]. *)
Definition due (now : Z) (t : TypingState) (noteId : string) : bool :=
  match typingTimeoutRef t !! noteId with
  | Some d => bool_decide (d <= now)
  | None => false
  end.

(** The clock reaches [now]: the callback of every due timer runs,
    deleting the item's indicator and the timer's own entry. *)
Definition elapse (now : Z) (t : TypingState) : TypingState :=
  mkTyping (filter (fun kv => due now t kv.1 = false) (typingIndicators t))
           (filter (fun kv => now < kv.2) (typingTimeoutRef t)).

Inductive TypingEvent :=
| Received (now : Z) (noteId userId userName : string) (isTyping : bool)
| Elapsed (now : Z).

(** A broadcast is handled once the timers due before it have run. *)
Definition typing_step (me : string) (ev : TypingEvent) (t : TypingState)
    : TypingState :=
  match ev with
  | Received now noteId userId userName isTyping =>
      on_typing me now noteId userId userName isTyping (elapse now t)
  | Elapsed now => elapse now t
  end.

Definition typing_run (me : string) (evs : list TypingEvent) (t : TypingState)
    : TypingState :=
  foldl (fun t ev => typing_step me ev t) t evs.

(** ** Observing a handler *)

(** The handler's code after its first [await], run on answer [resp]. *)
Definition resume (ts : list Task) (resp : Response) : Proc := fun s =>
  match ts with
  | Await _ k :: _ => k resp s
  | _ => (s, [])
  end.

(** The optimistic mutation of handler [p], followed at once by the
    failure [message] of its durable write. *)
Definition failed (p : Proc) (message : string) (s : ClientState) : ClientState :=
  (resume (p s).2 (RError message) (p s).1).1.

(** The same failure reaching the handler in a later local state [s']. *)
Definition failed_in (p : Proc) (message : string) (s s' : ClientState)
    : ClientState :=
  (resume (p s).2 (RError message) s').1.

(** The local list once the notification for [newNote] has been fully
    handled: the like lookup it awaits is answered by [resp] while the
    local state is [s']. *)
Definition after_insert_notification (newNote : NoteRow) (s : ClientState)
    (resp : Response) (s' : ClientState) : ClientState :=
  (resume (on_note_insert newNote s).2 resp s').1.

(** A handler that returns without having sent anything and without
    having touched the item list. *)
Definition rejected (p : Proc) (s : ClientState) : Prop :=
  (p s).2 = []
  /\ notes (p s).1 = notes s
  /\ broadcasts (effects (p s).1) = broadcasts (effects s).

(** The row an auto-expiry write leaves behind. *)
Definition auto_ended (now : Z) (r : Meeting) : Meeting :=
  mkMeeting (meeting_id r) (meeting_title r) (meeting_code r)
            (meeting_created_by r) ended (Some now) None (meeting_created_at r).

(** [ev] is a typing or stopped signal of a peer for item [noteId]. *)
Definition concerns (me noteId : string) (ev : TypingEvent) : bool :=
  match ev with
  | Received _ n u _ _ => String.eqb n noteId && negb (String.eqb u me)
  | Elapsed _ => false
  end.

(** The indicator of [noteId] is on its way out: its timer is armed for
    [deadline], or timer and indicator are both gone. *)
Definition expiring (noteId : string) (deadline : Z) (t : TypingState) : Prop :=
  typingTimeoutRef t !! noteId = Some deadline
  \/ (typingTimeoutRef t !! noteId = None /\ typingIndicators t !! noteId = None).

(** ** A run of the event loop: two clicks on the heart *)

(** Item I has no like; user B looks at it on an active board. *)
Definition toggle_board : Meeting :=
  mkMeeting "m1" "Retro" "ABC123" "host" active None None 0.

Definition toggle_row : NoteRow :=
  mkNoteRow "I" "m1" "Great sprint!" glad "A" 10 10.

Definition toggle_start : World :=
  mkWorld "B"
    (mkClient (Some "B") (Some toggle_board) [note_of_row toggle_row 0 false] ∅ true [])
    (mkStore [toggle_board] [toggle_row] [])
    [].

(** B clicks the heart twice; the second click comes while the upsert of
    the first is in flight.  Then the upsert is answered, the refresh
    timer (100 ms) fires and its lookup is answered, and the timer that
    unmarks the item (200 ms) fires. *)
Definition toggle_twice : World :=
  let env := mkStoreEnv "" 1000 in
  let w1 := call (toggleNoteLike 1000 "I") toggle_start in
  let w2 := call (toggleNoteLike 1100 "I") w1 in
  let w3 := resolve env 0 w2 in        (* the upsert settles *)
  let w4 := resolve env 0 w3 in        (* refresh timer *)
  let w5 := resolve env 1 w4 in        (* its lookup settles *)
  resolve env 0 w5.                    (* unmark timer *)

(** One toggle attempt carried through before the next one starts: the
    click, the answer to its upsert or delete, the refresh timer and the
    answer to its lookup, and the timer that unmarks the item. *)
Definition toggle_cycle (noteId : string) (c : StoreEnv * Z) (w : World) : World :=
  let w1 := call (toggleNoteLike c.2 noteId) w in
  let w2 := resolve c.1 0 w1 in
  let w3 := resolve c.1 0 w2 in
  let w4 := resolve c.1 1 w3 in
  resolve c.1 0 w4.

Definition toggle_cycles (noteId : string) (cs : list (StoreEnv * Z)) (w : World)
    : World :=
  foldl (fun w c => toggle_cycle noteId c w) w cs.

(** Nothing is pending, and user [u] sees item [noteId] as [liked] both
    on a board that is active locally and in the store. *)
Definition at_rest (u noteId : string) (liked : bool) (w : World) : Prop :=
  tasks w = []
  /\ session w = u
  /\ user (client w) = Some u
  /\ (exists m, meeting (client w) = Some m /\ meeting_status m = active)
  /\ (noteId ∉ likingNotes (client w))
  /\ (exists note, List.find (has_id noteId) (notes (client w)) = Some note
                   /\ user_liked note = liked)
  /\ has_like (store w) (noteId, u) = liked
  /\ note_in_active_meeting (store w) noteId = true.


(** ** Further handlers of [subscribeToNotes] *)

(** [postgres_changes], event UPDATE on [notes]: the row is completed
    with its likes and replaces the item with its id wholesale. *)
Definition on_note_update (updatedNote : NoteRow) : Proc := fun s =>
  match user s with
  | None => (s, [])                 (* [subscribeToNotes] registered nothing *)
  | Some _ =>
      fetchNoteWithLikes (note_of_row updatedNote 0 false) (fun noteWithLikes s' =>
        (setNotes (map_note (row_id updatedNote) (fun _ => noteWithLikes)) s', [])) s
  end.

(** [deletedNote?.id] is truthy: present and not the empty string. *)
Definition truthy_id (deleted_id : option string) : option string :=
  match deleted_id with
  | Some i => if String.eqb i "" then None else Some i
  | None => None
  end.

(** [postgres_changes], event DELETE on [notes]; [deleted_id] is
    [payload.old?.id]. *)
Definition on_note_delete (deleted_id : option string) : Proc := fun s =>
  match truthy_id deleted_id with
  | Some i =>
      (setNotes (fun prev =>
                   match List.find (has_id i) prev with
                   | Some noteToRemove =>
                       List.filter (fun note => negb (has_id i note)) prev
                   | None => prev
                   end) s, [])
  | None => (s, [])
  end.

(** The list once the UPDATE notification has been handled: the like
    lookup is answered by [resp] while the local state is [s']. *)
Definition after_update_notification (updatedNote : NoteRow) (s : ClientState)
    (resp : Response) (s' : ClientState) : ClientState :=
  (resume (on_note_update updatedNote s).2 resp s').1.

(** ** The four columns of the board *)

(** [notes.filter(note => note.type === t)] *)
Definition column (t : NoteType) (l : list Note) : list Note :=
  List.filter (fun note => bool_decide (note_type note = t)) l.

Definition gladNotes (s : ClientState) : list Note := column glad (notes s).
Definition madNotes (s : ClientState) : list Note := column mad (notes s).
Definition sadNotes (s : ClientState) : list Note := column sad (notes s).
Definition actionNotes (s : ClientState) : list Note := column action (notes s).

(** ** Drag and drop *)

(** [DropResult] of react-beautiful-dnd: the droppable ids are the
    columns' [type]. *)
Record DropLocation := mkDrop { droppableId : NoteType; index : nat }.

Record DropResult := mkDropResult {
  destination : option DropLocation;
  source : DropLocation;
  draggableId : string;
}.

(** [handleDragEnd] *)
Definition handleDragEnd (now : Z) (result : DropResult) : Proc := fun s =>
  let ended_msg := msg_ended "move notes" in
  match meeting s with
  | None => (alert (notes s) ended_msg s, [])
  | Some m =>
      if is_ended (meeting_status m) then (alert (notes s) ended_msg s, [])
      else
        match destination result with
        | None => (s, [])
        | Some d =>
            if bool_decide (droppableId d = droppableId (source result))
               && Nat.eqb (index d) (index (source result))
            then (s, [])
            else
              match List.find (has_id (draggableId result)) (notes s) with
              | None => (s, [])
              | Some noteToMove =>
                  updateNoteType now (draggableId result) (droppableId d) s
              end
        end
  end.

(** ** Presence *)

(** One entry of [channel.presenceState()[key]]; [user_id] is what the
    peer passed to [channel.track], possibly missing. *)
Record Presence := mkPresence {
  presence_user_id : option string;
  presence_online_at : string;
}.

(** [if (presence.user_id && !liveUserIds.includes(presence.user_id))
       liveUserIds.push(presence.user_id)] *)
Definition push_live (liveUserIds : list string) (presence : Presence) : list string :=
  match presence_user_id presence with
  | Some u =>
      if negb (String.eqb u "") && negb (existsb (String.eqb u) liveUserIds)
      then liveUserIds ++ [u]
      else liveUserIds
  | None => liveUserIds
  end.

(** The handler of [channel.on('presence', { event: 'sync' }, ...)]:
    [presenceState] is the snapshot, one list of presences per key, in
    the order [Object.values] enumerates it.  The result is what is
    passed to [setActiveParticipants] and [setLiveParticipants]. *)
Definition on_presence_sync (presenceState : list (string * list Presence))
    : nat * list string :=
  (length presenceState,
   foldl (fun liveUserIds entry => foldl push_live liveUserIds entry.2)
         [] presenceState).

(** ** User profiles *)

(** [interface UserProfile] *)
Record UserProfile := mkProfile {
  profile_id : string;
  display_name : option string;
  email : option string;
  avatar_url : option string;
}.

(** What the handlers read of the authenticated user. *)
Record AuthUser := mkAuthUser { auth_id : string; auth_email : option string }.

(** The profile [fetchUserProfiles] makes up for an id the store has no
    profile for. *)
Definition fallback_profile (user : option AuthUser) (id : string) : UserProfile :=
  match user with
  | Some a =>
      if String.eqb id (auth_id a)
      then mkProfile id (Some "You") (auth_email a) None
      else mkProfile id (Some "Anonymous User") None None
  | None => mkProfile id (Some "Anonymous User") None None
  end.

(** [{ data, error }] of [from('user_profiles').select('*').in('id', userIds)] *)
Inductive ProfilesResponse :=
| ProfilesError (message : string)
| ProfilesData (data : option (list UserProfile)).

(** The code of [fetchUserProfiles] after its [await]: the new value of
    the state [userProfiles]. *)
Definition fetchUserProfiles (user : option AuthUser) (userIds : list string)
    (resp : ProfilesResponse) (prev : gmap string UserProfile)
    : gmap string UserProfile :=
  match resp with
  | ProfilesError _ => prev
  | ProfilesData data =>
      let profilesMap :=
        foldl (fun m profile => <[profile_id profile := profile]> m)
              ∅ (default [] data) in
      let profilesMap :=
        foldl (fun m id =>
                 match m !! id with
                 | Some _ => m
                 | None => <[id := fallback_profile user id]> m
                 end)
              profilesMap userIds in
      profilesMap ∪ prev       (* [{ ...prev, ...profilesMap }] *)
  end.

(** The handler of UPDATE on [user_profiles] (channel
    [user_profiles_updates]). *)
Definition on_profile_update (updatedProfile : UserProfile)
    (prev : gmap string UserProfile) : gmap string UserProfile :=
  match prev !! profile_id updatedProfile with
  | Some _ => <[profile_id updatedProfile := updatedProfile]> prev
  | None => prev
  end.

(** ** Clocks shown to the user *)

Definition hour_ms : Z := 1000 * 60 * 60.
Definition minute_ms : Z := 1000 * 60.

(** [hours], [minutes] and [seconds] of [updateElapsedTime]; JavaScript's
    [%] truncates, [Math.floor] rounds down. *)
Definition elapsed_parts (elapsed : Z) : Z * Z * Z :=
  (elapsed / hour_ms,
   Z.rem elapsed hour_ms / minute_ms,
   Z.rem elapsed minute_ms / 1000).

(** What [updateElapsedTime] passes to [setElapsedTime], with the guard
    of the effect that runs it. *)
Definition updateElapsedTime (now : Z) (meeting : option Meeting) : string :=
  match meeting with
  | None => ""
  | Some m =>
      if is_ended (meeting_status m) then ""
      else
        let '(hours, minutes, seconds) := elapsed_parts (now - meeting_created_at m) in
        if 0 <? hours then
          pretty hours +:+ "h " +:+ pretty minutes +:+ "m " +:+ pretty seconds +:+ "s"
        else if 0 <? minutes then
          pretty minutes +:+ "m " +:+ pretty seconds +:+ "s"
        else pretty seconds +:+ "s"
  end.

(** The result of the dashboard's [getMeetingTimeInfo]. *)
Record TimeInfo := mkTimeInfo { timeLeftText : string; isExpiringSoon : bool }.

(** [timeLeft], [hoursLeft], [minutesLeft] of [getMeetingTimeInfo]. *)
Definition time_left_parts (now : Z) (m : Meeting) : Z * Z * Z :=
  let timeLeft := meeting_created_at m + two_hours - now in
  (timeLeft, timeLeft / hour_ms, Z.rem timeLeft hour_ms / minute_ms).

Definition getMeetingTimeInfo (now : Z) (m : Meeting) : option TimeInfo :=
  if is_active (meeting_status m) && (now <? meeting_created_at m + two_hours) then
    let '(timeLeft, hoursLeft, minutesLeft) := time_left_parts now m in
    Some (mkTimeInfo
            (if 0 <? hoursLeft
             then pretty hoursLeft +:+ "h " +:+ pretty minutesLeft +:+ "m left"
             else pretty minutesLeft +:+ "m left")
            (timeLeft <? 30 * 60 * 1000))
  else None.

(** ** Store invariants and refused writes *)

(** The key and foreign-key constraints of the migrations, as a property
    of a store: primary keys of [meetings] and [notes], the UNIQUE pair
    of [note_likes], and [note_likes.note_id REFERENCES notes(id)]. *)
Definition constraints_hold (st : Store) : Prop :=
  NoDup (map meeting_id (meetings st))
  /\ NoDup (map row_id (notes_table st))
  /\ NoDup (note_likes st)
  /\ (forall l, l ∈ note_likes st -> l.1 ∈ map row_id (notes_table st)).

(** The requests that reach the store one after the other, each with the
    user it is executed for. *)
Definition store_run (st : Store) (rqs : list (string * StoreEnv * Request)) : Store :=
  foldl (fun st x => (store_exec x.1.1 x.1.2 x.2 st).1) st rqs.

(** Every update of [meetings] the clients send sets [status: 'ended']
    ([checkMeetingExpiration], [checkExpiredMeetings],
    [handleEndMeetingConfirm]). *)
Definition ends_only (rq : Request) : bool :=
  match rq with
  | UpdateMeeting p _ | UpdateOwnMeeting p _ _ => is_ended (patch_status p)
  | _ => true
  end.

(** Meeting [mid], created by [cb], is stored and is not active. *)
Definition stored_ended (st : Store) (mid cb : string) : Prop :=
  meeting_active st mid = false
  /\ exists m, m ∈ meetings st /\ meeting_id m = mid /\ meeting_created_by m = cb.

(** The request is the deletion of meeting [mid] sent by and for its
    creator [cb], as the dashboard's [handleDeleteMeetingConfirm] sends
    it ([.eq('id', mid).eq('created_by', user.id)]). *)
Definition creator_deletes (mid cb : string) (x : string * StoreEnv * Request) : bool :=
  match x.2 with
  | DeleteMeeting eq_id eq_cb =>
      String.eqb eq_id mid && String.eqb eq_cb cb && String.eqb x.1.1 cb
  | _ => false
  end.

(** The store would not carry out a change of item [noteId] asked for by
    [u] as its author: every row with that id has another author or
    belongs to a meeting that is not active. *)
Definition not_editable_by (st : Store) (u noteId : string) : Prop :=
  forall r, r ∈ notes_table st -> row_id r = noteId ->
            row_created_by r <> u \/ meeting_active st (row_meeting_id r) = false.

(** The answer makes [toggleNoteLike] revert its optimistic update: the
    promise was rejected, the delete failed, or the upsert failed with
    something else than a duplicate key. *)
Definition like_refused (initialLikedState : bool) (resp : Response) : Prop :=
  resp = RThrow
  \/ exists message, resp = RError message
       /\ (initialLikedState = true \/ includes "duplicate key" message = false).

(** The first pending task completes, [n] times over. *)
Fixpoint drain (env : StoreEnv) (n : nat) (w : World) : World :=
  match n with
  | O => w
  | S n => drain env n (resolve env 0 w)
  end.

(** The [.eq('created_by', ...).eq('status', 'active').lt('created_at', ...)]
    of [checkExpiredMeetings]. *)
Definition expired_for (u : string) (now : Z) (m : Meeting) : bool :=
  String.eqb (meeting_created_by m) u
  && is_active (meeting_status m)
  && (meeting_created_at m <? now - two_hours).

(** ** The sending side of the typing indicator ([NoteColumn])

    [handleTypingStart] and [handleTypingStop] of the column component
    (src/unnamed/part_010) call the [onTypingStart] / [onTypingStop]
    props, which the board binds to [broadcastTypingStart] and
    [broadcastTypingStop].  The column keeps its own [typingTimeoutRef];
    as on the receiving side the handle stored per item is the instant
    at which the timer is due. *)

Module NoteColumn.

Inductive Call :=
| TypingStart (noteId : string)
| TypingStop (noteId : string).

Record State := mkState {
  typingTimeoutRef : gmap string Z;
  calls : list Call;             (* calls made to the props, oldest first *)
}.

(** [if (onTypingStop) onTypingStop(noteId)] *)
Definition call_stop (onTypingStop : bool) (noteId : string) (cs : list Call)
    : list Call :=
  if onTypingStop then cs ++ [TypingStop noteId] else cs.

Definition handleTypingStart (onTypingStart : bool) (now : Z) (noteId : string)
    (t : State) : State :=
  if onTypingStart then
    mkState (<[noteId := now + 1000]> (typingTimeoutRef t))
            (calls t ++ [TypingStart noteId])
  else t.

Definition handleTypingStop (onTypingStop : bool) (noteId : string) (t : State)
    : State :=
  mkState (delete noteId (typingTimeoutRef t))
          (call_stop onTypingStop noteId (calls t)).

(** The callback of the timer armed for [noteId], run when the clock
    shows [now]; it runs only if the timer is still armed and due. *)
Definition idle_timeout (onTypingStop : bool) (now : Z) (noteId : string)
    (t : State) : State :=
  match typingTimeoutRef t !! noteId with
  | Some d =>
      if bool_decide (d <= now)
      then mkState (delete noteId (typingTimeoutRef t))
                   (call_stop onTypingStop noteId (calls t))
      else t
  | None => t
  end.

Inductive Event :=
| Keystroke (now : Z) (noteId : string)     (* [handleTypingStart] *)
| StopEditing (noteId : string)             (* [handleTypingStop] *)
| TimerDue (now : Z) (noteId : string).

Definition step (onTypingStart onTypingStop : bool) (t : State) (ev : Event) : State :=
  match ev with
  | Keystroke now noteId => handleTypingStart onTypingStart now noteId t
  | StopEditing noteId => handleTypingStop onTypingStop noteId t
  | TimerDue now noteId => idle_timeout onTypingStop now noteId t
  end.

Definition run (onTypingStart onTypingStop : bool) (evs : list Event) : State :=
  foldl (step onTypingStart onTypingStop) (mkState ∅ []) evs.

(** The last call made for [noteId] was [onTypingStart]: the peers show
    the user as typing on that item. *)
Definition shown_typing (noteId : string) (cs : list Call) : bool :=
  foldl (fun acc c =>
           match c with
           | TypingStart n => if String.eqb n noteId then true else acc
           | TypingStop n => if String.eqb n noteId then false else acc
           end) false cs.

End NoteColumn.

(** ** The summary e-mail ([emailService.ts]) *)

(** [s.split('@')[0]] *)
Fixpoint before_at (s : string) : string :=
  match s with
  | EmptyString => EmptyString
  | String c s' => if Ascii.eqb c "@"%char then EmptyString else String c (before_at s')
  end.

(** [a || b] on strings that may be missing: [a] unless it is missing or
    empty. *)
Definition or_else (a : option string) (b : string) : string :=
  match a with
  | Some x => if String.eqb x "" then b else x
  | None => b
  end.

(** [profile?.display_name || profile?.email?.split('@')[0] || fallback] *)
Definition name_or (profile : option UserProfile) (fallback : string) : string :=
  or_else (profile ≫= display_name)
    (or_else (before_at <$> (profile ≫= email)) fallback).

Definition unknown_email : string := "unknown@example.com".

(** [profile?.email || 'unknown@example.com'] *)
Definition email_or_unknown (profile : option UserProfile) : string :=
  or_else (profile ≫= email) unknown_email.

(** [[...new Set(ids)]]: the first occurrence of each id, in order. *)
Definition unique (ids : list string) : list string :=
  foldl (fun seen id => if existsb (String.eqb id) seen then seen else seen ++ [id])
        [] ids.

Record SummaryNote := mkSummaryNote {
  summary_type : NoteType;
  summary_content : string;
  summary_created_by : string;
  summary_created_at : Z;
  summary_like_count : Z;
  author_name : string;
}.

Record Participant := mkParticipant {
  participant_email : string;
  participant_name : string;
}.

(** [interface MeetingSummaryData] *)
Record MeetingSummaryData := mkSummary {
  meetingId : string;
  meetingCode : string;
  meetingTitle : string;
  hostEmail : string;
  hostName : string;
  startDate : Z;
  endDate : Z;
  endedBy : option string;
  participantCount : nat;
  summary_notes : list SummaryNote;
  participants : list Participant;
}.

Definition prepareMeetingEmailData (now : Z) (meeting : Meeting) (notes : list Note)
    (userProfiles : gmap string UserProfile) (endedBy : option string)
    : MeetingSummaryData :=
  let participantIds := unique (map note_created_by notes) in
  let hostProfile := userProfiles !! meeting_created_by meeting in
  let hostName := name_or hostProfile "Unknown Host" in
  let hostEmail := email_or_unknown hostProfile in
  let participants :=
    List.filter (fun p => negb (String.eqb (participant_email p) unknown_email))
      (map (fun userId =>
              let profile := userProfiles !! userId in
              mkParticipant (email_or_unknown profile)
                            (name_or profile "Unknown User"))
           participantIds) in
  let notesWithAuthors :=
    map (fun note =>
           mkSummaryNote (note_type note) (note_content note)
             (note_created_by note) (note_created_at note)
             (if like_count note =? 0 then 0 else like_count note)
             (name_or (userProfiles !! note_created_by note) "Unknown User"))
        notes in
  mkSummary (meeting_id meeting) (meeting_code meeting) (meeting_title meeting)
    hostEmail hostName (meeting_created_at meeting)
    (default now (meeting_ended_at meeting))
    endedBy (length participants) notesWithAuthors participants.

(** [postgres_changes], any event on [note_likes]; [like_note_id] is
    [(payload.new || payload.old)?.note_id].  The handler is created by
    [subscribeToNotes], which runs when [meeting] changes: the [notes] it
    reads is the list [subscribed] held at that moment, not the list
    held when the notification arrives. *)
Definition on_like_row_change (subscribed : list Note)
    (like_note_id : option string) : Proc := fun s =>
  match user s with
  | None => (s, [])                 (* [subscribeToNotes] registered nothing *)
  | Some _ =>
      match like_note_id with
      | Some i =>
          if String.eqb i "" then (s, [])
          else
            match List.find (has_id i) subscribed with
            | None => (s, [])
            | Some currentNote =>
                fetchNoteWithLikes currentNote (fun updatedNote s' =>
                  (setNotes (map_note i (fun _ => updatedNote)) s', [])) s
            end
      | None => (s, [])
      end
  end.

(** * Properties *)

(** ** Generic facts on lists keyed by an id *)

Section Keyed.
Context {A : Type} (key : A -> string).

Lemma filter_none (p : A -> bool) (l : list A) :
  (forall x, x ∈ l -> p x = false) -> List.filter p l = [].
Proof.
  induction l as [|a l IH]; intros H; [done|]. cbn [List.filter].
  rewrite (H a); [|by left]. apply IH. intros x Hx. apply H. by right.
Qed.

Lemma filter_unique (p : A -> bool) (l : list A) (r : A) :
  NoDup (map key l) -> r ∈ l -> p r = true ->
  (forall x, x ∈ l -> p x = true -> key x = key r) ->
  List.filter p l = [r].
Proof.
  induction l as [|a l IH]; intros Hnd Hin Hp Hkey.
  - by apply elem_of_nil in Hin.
  - apply NoDup_cons in Hnd as [Hna Hnd].
    assert (Hrest : forall x, x ∈ l -> key x <> key a).
    { intros x Hx Hk. apply Hna. rewrite <- Hk. by apply list_elem_of_fmap_2. }
    apply elem_of_cons in Hin as [->|Hin]; cbn [List.filter].
    + rewrite Hp. f_equal. apply filter_none. intros x Hx.
      destruct (p x) eqn:Hpx; [|done]. exfalso.
      apply (Hrest x Hx). apply Hkey; [by right|done].
    + destruct (p a) eqn:Ha.
      * exfalso. apply (Hrest r Hin). symmetry. apply Hkey; [by left|done].
      * apply IH; [done..|]. intros x Hx. apply Hkey. by right.
Qed.
End Keyed.

(** ** Expiry *)

Section Expiry.

Lemma update_meetings_lookup uid p flt (ms : list Meeting) (i : nat) r :
  ms !! i = Some r ->
  update_meetings uid p flt ms !! i
  = Some (if meeting_hit uid flt r then apply_patch p r else r).
Proof. intros H. unfold update_meetings. by rewrite list_lookup_fmap, H. Qed.

Lemma meeting_hit_by_id uid id r :
  meeting_hit uid (by_id id) r
  = bool_decide (meeting_id r = id /\ meeting_created_by r = uid).
Proof.
  unfold meeting_hit, by_id, Policy.update_own_meetings.
  destruct (String.eqb_spec (meeting_id r) id) as [Hi|Hi],
           (String.eqb_spec uid (meeting_created_by r)) as [Hc|Hc]; cbn;
    symmetry; first [apply bool_decide_eq_true_2; by split
                    | apply bool_decide_eq_false_2; intros [? ?]; congruence].
Qed.

(** The dashboard's loop sends the same query, selected by [id] alone. *)
Lemma expire_each_request now m rest :
  requests (expire_each now (m :: rest)) = [UpdateMeeting (auto_end now) (meeting_id m)].
Proof. reflexivity. Qed.

(** C1, counterexample.  Two tabs of the host hold the board as active
    and run the check half a second apart.  Both send the update; the
    second one reaches the store when the status is already [ended], and
    still touches the row: it is answered with the updated row and has
    overwritten [ended_at].  The write is not conditional on the status,
    and more than one of the racing writes is effective. *)
Lemma expiry_race_two_effective_writes :
  let board := mkMeeting "m1" "Retro" "ABC123" "host" active None None 0 in
  let tab := mkClient (Some "host") (Some board) [] ∅ true [] in
  let t1 := two_hours + 60000 in
  let t2 := two_hours + 60500 in
  let env := mkStoreEnv "" 0 in
  let st0 := mkStore [board] [] [] in
  let w1 := store_exec "host" env (UpdateMeeting (auto_end t1) "m1") st0 in
  let w2 := store_exec "host" env (UpdateMeeting (auto_end t2) "m1") w1.1 in
  requests (checkMeetingExpiration t1 tab).2 = [UpdateMeeting (auto_end t1) "m1"]
  /\ requests (checkMeetingExpiration t2 tab).2 = [UpdateMeeting (auto_end t2) "m1"]
  /\ meetings w1.1 = [auto_ended t1 board]
  /\ w2.2 = RMeeting (auto_ended t2 board)
  /\ meetings w2.1 = [auto_ended t2 board]
  /\ meetings w2.1 <> meetings w1.1.
Proof. vm_compute. repeat split; congruence. Qed.

(** The same unconditional write, sent by a stale tab after the host has
    ended the meeting by hand, replaces the host's id in [ended_by]. *)
Lemma expiry_overwrites_manual_end :
  let board := mkMeeting "m1" "Retro" "ABC123" "host" active None None 0 in
  let t1 := two_hours + 60000 in
  let t2 := two_hours + 60500 in
  let env := mkStoreEnv "" 0 in
  let st0 := mkStore [board] [] [] in
  let w1 := store_exec "host" env (UpdateOwnMeeting (manual_end t1 "host") "m1" "host") st0 in
  let w2 := store_exec "host" env (UpdateMeeting (auto_end t2) "m1") w1.1 in
  map meeting_ended_by (meetings w1.1) = [Some "host"]
  /\ map meeting_ended_by (meetings w2.1) = [None].
Proof. vm_compute. done. Qed.

(** C1, as amended.  When the check finds the local copy active and
    [created_at + 2h <= now], the component leaves its state alone and
    sends one update, [status = ended, ended_at = now, ended_by = null],
    selecting the row by [id] alone.  In the store that update rewrites
    every row with this id whose creator is the caller, whatever the
    row's current status, and no other row; with unique ids the caller
    is answered with the rewritten row if it is the creator, and with
    the zero-row error otherwise. *)
Theorem expiry_update_selected_by_id (s : ClientState) (m : Meeting) (now : Z) :
  meeting s = Some m ->
  meeting_status m = active ->
  meeting_created_at m + two_hours <= now ->
  (checkMeetingExpiration now s).1 = s
  /\ requests (checkMeetingExpiration now s).2
     = [UpdateMeeting (auto_end now) (meeting_id m)]
  /\ forall (uid : string) (env : StoreEnv) (st : Store),
       let res := store_exec uid env (UpdateMeeting (auto_end now) (meeting_id m)) st in
       (forall (i : nat) (r : Meeting),
          meetings st !! i = Some r ->
          meetings res.1 !! i
          = Some (if bool_decide (meeting_id r = meeting_id m /\ meeting_created_by r = uid)
                  then auto_ended now r else r))
       /\ (forall r : Meeting,
             NoDup (map meeting_id (meetings st)) ->
             r ∈ meetings st -> meeting_id r = meeting_id m ->
             res.2 = if bool_decide (meeting_created_by r = uid)
                     then RMeeting (auto_ended now r)
                     else RError msg_no_rows).
Proof.
  intros Hm Hact Hdue.
  assert (Hrun : checkMeetingExpiration now s
                 = (s, [Await (UpdateMeeting (auto_end now) (meeting_id m))
                          (fun resp s' =>
                             match resp with
                             | RMeeting data => (setMeeting data s', [])
                             | _ => (s', [])
                             end)])).
  { unfold checkMeetingExpiration. rewrite Hm, Hact. cbn.
    destruct (Z.geb_spec now (meeting_created_at m + two_hours)); [done|lia]. }
  rewrite Hrun. split; [done|]. split; [done|].
  intros uid env st res. split.
  - intros i r Hi. subst res. cbn.
    rewrite (update_meetings_lookup _ _ _ _ _ _ Hi), meeting_hit_by_id. done.
  - intros r Hnd Hin Hid. subst res. cbn. unfold updated_meetings.
    case_bool_decide as Hc.
    + rewrite (filter_unique meeting_id _ _ r Hnd Hin).
      * done.
      * rewrite meeting_hit_by_id. by apply bool_decide_eq_true_2.
      * intros x _ Hx. rewrite meeting_hit_by_id in Hx.
        apply bool_decide_eq_true_1 in Hx. destruct Hx as [-> _]. done.
    + rewrite filter_none; [done|].
      intros x Hx. rewrite meeting_hit_by_id. apply bool_decide_eq_false_2.
      intros [Hxi Hxc]. apply Hc.
      assert (x = r) as ->; [|done].
      apply list_elem_of_lookup in Hx as [i Hi], Hin as [j Hj].
      assert (i = j) as ->.
      { apply (NoDup_lookup _ i j (meeting_id m) Hnd);
          rewrite list_lookup_fmap; [rewrite Hi|rewrite Hj]; cbn; congruence. }
      congruence.
Qed.

Lemma expiry_update_selected_by_id_witness :
  let board := mkMeeting "m1" "Retro" "ABC123" "host" active None None 0 in
  let tab := mkClient (Some "host") (Some board) [] ∅ true [] in
  let now := two_hours + 60000 in
  requests (checkMeetingExpiration now tab).2 = [UpdateMeeting (auto_end now) "m1"].
Proof.
  intros board tab now.
  apply (expiry_update_selected_by_id tab board now);
    [reflexivity | reflexivity | vm_compute; discriminate].
Defined.

End Expiry.

Lemma broadcasts_alert (rendered : list Note) (s : ClientState) (message : string) :
  broadcasts (effects (alert rendered message s)) = broadcasts (effects s).
Proof. unfold broadcasts. cbn. rewrite omap_app. cbn. by rewrite app_nil_r. Qed.

Lemma alert_failure_cases (rendered : list Note) (what other message : string)
    (s : ClientState) :
  alert_failure rendered what other message s = alert rendered (msg_ended what) s
  \/ alert_failure rendered what other message s = alert rendered other s.
Proof. unfold alert_failure. destruct (includes _ _); auto. Qed.

(** ** Creating an item *)

Section Create.

(** C2, counterexample.  User A adds "Great sprint!" to column [glad] of
    an active board whose local list is empty.  When [addNote] reaches
    its [await] the insert is in flight and the local list is still
    empty: no placeholder has been inserted, nothing is visible before
    the durable write settles. *)
Lemma addNote_inserts_no_placeholder :
  let board := mkMeeting "m1" "Retro" "ABC123" "host" active None None 0 in
  let s := mkClient (Some "A") (Some board) [] ∅ true [] in
  requests (addNote glad "Great sprint!" s).2
  = [InsertNote "m1" "Great sprint!" glad "A"]
  /\ notes (addNote glad "Great sprint!" s).1 = [].
Proof. vm_compute. done. Qed.

(** C2, as amended.  On an active board [addNote] first issues the
    durable insert and leaves the local state as it is; when the insert
    succeeds the row returned by the store is appended to the local list
    with [like_count = 0] and [user_liked = false]; when it fails the
    list stays as it is and an alert is raised. *)
Theorem addNote_appends_after_insert
    (s : ClientState) (m : Meeting) (u : string) (type : NoteType) (content : string) :
  meeting s = Some m -> meeting_status m = active -> user s = Some u ->
  let run := addNote type content s in
  run.1 = s
  /\ requests run.2 = [InsertNote (meeting_id m) content type u]
  /\ (forall (data : NoteRow) (s' : ClientState),
        (resume run.2 (RNote data) s').2 = []
        /\ notes (resume run.2 (RNote data) s').1
           = notes s' ++ [note_of_row data 0 false])
  /\ (forall (message : string) (s' : ClientState),
        (resume run.2 (RError message) s').2 = []
        /\ notes (resume run.2 (RError message) s').1 = notes s'
        /\ exists shown, effects (resume run.2 (RError message) s').1
                         = effects s' ++ [Alert shown (notes s')]).
Proof.
  intros Hm Hact Hu run. subst run. unfold addNote. rewrite Hm, Hu, Hact. cbn.
  repeat split; try done.
  - unfold alert_failure. by destruct (includes _ _).
  - unfold alert_failure. destruct (includes _ _); by eexists.
Qed.

Lemma addNote_appends_after_insert_witness :
  let board := mkMeeting "m1" "Retro" "ABC123" "host" active None None 0 in
  let s := mkClient (Some "A") (Some board) [] ∅ true [] in
  (addNote glad "Great sprint!" s).1 = s.
Proof.
  intros board s.
  apply (addNote_appends_after_insert s board "A" glad "Great sprint!");
    reflexivity.
Defined.

End Create.

(** ** The local guard on an ended board *)

Section EndedGuard.

Lemma rejected_alert (p : Proc) (s : ClientState) (message : string) :
  p s = (alert (notes s) message s, []) -> rejected p s.
Proof.
  intros H. unfold rejected. rewrite H. cbn [fst snd].
  rewrite broadcasts_alert. done.
Qed.

Lemma rejected_return (p : Proc) (s : ClientState) :
  p s = (s, []) -> rejected p s.
Proof. intros H. unfold rejected. by rewrite H. Qed.

(** C5.  When the local board shows [status = ended], creating an item,
    editing its content, moving it to another category, deleting it and
    toggling a like all return before any request or broadcast is
    issued, and leave the local item list unchanged. *)
Theorem mutations_rejected_on_ended_board
    (s : ClientState) (m : Meeting) (now : Z) (noteId content : string)
    (type : NoteType) :
  meeting s = Some m -> meeting_status m = ended ->
  rejected (addNote type content) s
  /\ rejected (updateNote now noteId content) s
  /\ rejected (updateNoteType now noteId type) s
  /\ rejected (deleteNote noteId) s
  /\ rejected (toggleNoteLike now noteId) s.
Proof.
  intros Hm Hend. split; [|split; [|split; [|split]]].
  - destruct (user s) as [u|] eqn:Hu.
    + apply (rejected_alert _ _ (msg_ended "add notes")).
      unfold addNote. by rewrite Hm, Hu, Hend.
    + apply rejected_return. unfold addNote. by rewrite Hm, Hu.
  - apply (rejected_alert _ _ (msg_ended "edit notes")).
    unfold updateNote. by rewrite Hm, Hend.
  - apply (rejected_alert _ _ (msg_ended "move notes")).
    unfold updateNoteType. by rewrite Hm, Hend.
  - apply (rejected_alert _ _ (msg_ended "delete notes")).
    unfold deleteNote. by rewrite Hm, Hend.
  - apply (rejected_alert _ _ (msg_ended "like notes")).
    unfold toggleNoteLike. rewrite Hm, Hend. by destruct (user s).
Qed.

Lemma mutations_rejected_on_ended_board_witness :
  let board := mkMeeting "m1" "Retro" "ABC123" "host" ended (Some 7200000) None 0 in
  let n := mkNote "n1" "Great sprint!" glad "A" 10 10 0 false in
  let s := mkClient (Some "A") (Some board) [n] ∅ true [] in
  rejected (updateNote 7300000 "n1" "edited") s.
Proof.
  intros board n s.
  apply (mutations_rejected_on_ended_board s board 7300000 "n1" "edited" glad);
    reflexivity.
Defined.

End EndedGuard.

(** ** Facts on the item list *)

Section ItemList.

Lemma has_id_true (noteId : string) (n : Note) :
  has_id noteId n = true <-> note_id n = noteId.
Proof. unfold has_id. apply String.eqb_eq. Qed.

Lemma has_id_false (noteId : string) (n : Note) :
  has_id noteId n = false <-> note_id n <> noteId.
Proof. unfold has_id. apply String.eqb_neq. Qed.

Lemma existsb_has_id (noteId : string) (l : list Note) :
  existsb (has_id noteId) l = true <-> noteId ∈ map note_id l.
Proof.
  induction l as [|a l IH]; cbn.
  - split; [done|]. intros H. by apply elem_of_nil in H.
  - rewrite orb_true_iff, IH, has_id_true, elem_of_cons.
    split; (intros [H|H]; [left; congruence|by right]).
Qed.

Lemma find_has_id_Some (noteId : string) (l : list Note) (o : Note) :
  List.find (has_id noteId) l = Some o -> o ∈ l /\ note_id o = noteId.
Proof.
  induction l as [|a l IH]; cbn; [done|].
  destruct (has_id noteId a) eqn:Ha.
  - intros [= ->]. split; [by left|by apply has_id_true].
  - intros H. destruct (IH H). split; [by right|done].
Qed.

Lemma find_has_id_None (noteId : string) (l : list Note) :
  List.find (has_id noteId) l = None -> forall n, n ∈ l -> has_id noteId n = false.
Proof.
  induction l as [|a l IH]; cbn; intros H n Hn.
  - by apply elem_of_nil in Hn.
  - destruct (has_id noteId a) eqn:Ha; [done|].
    apply elem_of_cons in Hn as [->|Hn]; [done|by apply IH].
Qed.

(** With unique ids, the item found by id is the only one carrying it. *)
Lemma unique_by_id (noteId : string) (l : list Note) (o n : Note) :
  NoDup (map note_id l) -> List.find (has_id noteId) l = Some o ->
  n ∈ l -> has_id noteId n = true -> n = o.
Proof.
  intros Hnd Hf Hn Hid. apply find_has_id_Some in Hf as [Ho Hoid].
  apply has_id_true in Hid.
  apply list_elem_of_lookup in Hn as [i Hi], Ho as [j Hj].
  assert (i = j) as ->; [|congruence].
  apply (NoDup_lookup _ i j noteId Hnd);
    rewrite list_lookup_fmap; [rewrite Hi|rewrite Hj]; cbn; congruence.
Qed.

Lemma map_note_lookup (noteId : string) (f : Note -> Note) (l : list Note)
    (i : nat) (n : Note) :
  l !! i = Some n ->
  map_note noteId f l !! i = Some (if has_id noteId n then f n else n).
Proof. intros H. unfold map_note. by rewrite list_lookup_fmap, H. Qed.

(** Replacing by id twice: only the second replacement counts, as long
    as the first one keeps the id. *)
Lemma map_note_twice (noteId : string) (f : Note -> Note) (o : Note) (l : list Note) :
  (forall n, note_id (f n) = note_id n) ->
  map_note noteId (fun _ => o) (map_note noteId f l) = map_note noteId (fun _ => o) l.
Proof.
  intros Hf. unfold map_note. rewrite map_map. apply map_ext. intros n.
  destruct (has_id noteId n) eqn:Hn; [|by rewrite Hn].
  assert (has_id noteId (f n) = true) as ->; [|done].
  apply has_id_true. rewrite Hf. by apply has_id_true.
Qed.

Lemma map_note_original (noteId : string) (l : list Note) (o : Note) :
  NoDup (map note_id l) -> List.find (has_id noteId) l = Some o ->
  map_note noteId (fun _ => o) l = l.
Proof.
  intros Hnd Hf. unfold map_note. rewrite <- (map_id l) at 2.
  apply map_ext_in. intros n Hn. apply list_elem_of_In in Hn.
  destruct (has_id noteId n) eqn:Hid; [|done].
  symmetry. by apply (unique_by_id noteId l).
Qed.

Lemma find_map_note_const (noteId : string) (o : Note) (l : list Note) :
  note_id o = noteId -> noteId ∈ map note_id l ->
  List.find (has_id noteId) (map_note noteId (fun _ => o) l) = Some o.
Proof.
  intros Ho. induction l as [|a l IH]; cbn; intros Hin.
  - by apply elem_of_nil in Hin.
  - destruct (has_id noteId a) eqn:Ha.
    + assert (has_id noteId o = true) as ->; [by apply has_id_true|done].
    + rewrite Ha. apply IH. apply elem_of_cons in Hin as [Hin|Hin]; [|done].
      apply has_id_false in Ha. congruence.
Qed.

Lemma filter_all (p : Note -> bool) (l : list Note) :
  (forall n, n ∈ l -> p n = true) -> List.filter p l = l.
Proof.
  induction l as [|a l IH]; intros H; [done|]. cbn.
  rewrite (H a); [|by left]. f_equal. apply IH. intros n Hn. apply H. by right.
Qed.

Lemma filter_out_permutation (noteId : string) (l : list Note) (o : Note) :
  NoDup (map note_id l) -> List.find (has_id noteId) l = Some o ->
  List.filter (fun note => negb (has_id noteId note)) l ++ [o] ≡ₚ l.
Proof.
  induction l as [|a l IH]; cbn; [done|]. intros Hnd Hf.
  apply NoDup_cons in Hnd as [Hna Hnd].
  destruct (has_id noteId a) eqn:Ha; cbn.
  - injection Hf as ->. rewrite filter_all.
    + symmetry. apply Permutation_cons_append.
    + intros n Hn. apply negb_true_iff, has_id_false. intros Hid.
      apply Hna. apply has_id_true in Ha. rewrite Ha, <- Hid.
      by apply list_elem_of_fmap_2.
  - apply Permutation_skip. by apply IH.
Qed.

Lemma find_filter_out_append (noteId : string) (l : list Note) (o : Note) :
  note_id o = noteId ->
  List.find (has_id noteId)
            (List.filter (fun note => negb (has_id noteId note)) l ++ [o]) = Some o.
Proof.
  intros Ho. induction l as [|a l IH]; cbn.
  - assert (has_id noteId o = true) as ->; [by apply has_id_true|done].
  - destruct (has_id noteId a) eqn:Ha; cbn; [done|]. by rewrite Ha.
Qed.

End ItemList.

(** ** Rollback of a failed update or delete *)

Section Rollback.

Lemma alert_failure_effects rendered what other message (s : ClientState) :
  notes (alert_failure rendered what other message s) = notes s
  /\ exists shown,
       effects (alert_failure rendered what other message s)
       = effects s ++ [Alert shown rendered].
Proof. unfold alert_failure. destruct (includes _ _); split; by eauto. Qed.

Lemma find_app_fresh (noteId : string) (l : list Note) (o : Note) :
  note_id o = noteId -> noteId ∉ map note_id l ->
  List.find (has_id noteId) (l ++ [o]) = Some o.
Proof.
  intros Ho Hl.
  assert (List.find (has_id noteId) l = None) as Hnone.
  { destruct (List.find (has_id noteId) l) as [x|] eqn:Hx; [|done].
    apply find_has_id_Some in Hx as [Hx Hid]. exfalso. apply Hl.
    rewrite <- Hid. by apply list_elem_of_fmap_2. }
  induction l as [|a l IH]; cbn in *.
  - assert (has_id noteId o = true) as ->; [by apply has_id_true|done].
  - destruct (has_id noteId a); [done|]. apply IH; [|done].
    intros H. apply Hl. by right.
Qed.

Lemma update_failed_state what other noteId (f : Note -> Note) rq
    (original : Note) (message : string) (s s' : ClientState) :
  let p : Proc := fun s0 =>
    (setNotes (map_note noteId f) s0,
     [Await rq (update_settled what other noteId (Some original))]) in
  failed_in p message s s'
  = alert_failure (notes s') what (other +:+ message) message
      (setNotes (map_note noteId (fun _ => original)) s').
Proof. reflexivity. Qed.

(** C8, counterexample.  User A holds items [a] and [b].  An edit of [a]
    fails: the one alert that is raised stands over the list that still
    shows the edit, the restored list being rendered only when the task
    has ended.  A delete of [a] fails: [a] comes back behind [b], so the
    list is not the list as it was. *)
Lemma failed_write_alert_over_rejected_state :
  let board := mkMeeting "m1" "Retro" "ABC123" "host" active None None 0 in
  let a := mkNote "n1" "Great sprint!" glad "A" 10 10 2 true in
  let b := mkNote "n2" "Too many meetings" mad "A" 11 11 0 false in
  let s := mkClient (Some "A") (Some board) [a; b] ∅ true [] in
  let edited := mkNote "n1" "edited" glad "A" 10 20 2 true in
  effects (failed (updateNote 20 "n1" "edited") "network error" s)
  = [Alert "Failed to update note: network error" [edited; b]]
  /\ notes (failed (deleteNote "n1") "network error" s) = [b; a]
  /\ notes (failed (deleteNote "n1") "network error" s) <> notes s.
Proof. split; [reflexivity|]. split; [reflexivity|]. discriminate. Qed.

(** C8, as amended.  Let an update of the content, a move to another
    category or a delete of an item present in the local list fail.  The
    value of the item captured before the optimistic mutation is put
    back in local state, and one alert is raised.  After a failed update
    or move the local list is the list as it was.  After a failed delete
    the captured item is appended at the end of what the optimistic
    delete had left: the list holds the same items as before, the
    deleted one with its captured value, in last position.  When other
    events have changed the list between the mutation and the failure,
    the item carrying that id still gets the captured value back. *)
Theorem rollback_restores_captured_value
    (s : ClientState) (m : Meeting) (now : Z) (noteId content : string)
    (newType : NoteType) (original : Note) (message : string) :
  meeting s = Some m -> meeting_status m = active ->
  NoDup (map note_id (notes s)) ->
  List.find (has_id noteId) (notes s) = Some original ->
  (let s1 := failed (updateNote now noteId content) message s in
   notes s1 = notes s
   /\ exists shown over, effects s1 = effects s ++ [Alert shown over])
  /\ (let s1 := failed (updateNoteType now noteId newType) message s in
      notes s1 = notes s
      /\ exists shown over, effects s1 = effects s ++ [Alert shown over])
  /\ (let s1 := failed (deleteNote noteId) message s in
      notes s1
      = List.filter (fun note => negb (has_id noteId note)) (notes s) ++ [original]
      /\ List.find (has_id noteId) (notes s1) = Some original
      /\ notes s1 ≡ₚ notes s
      /\ exists shown over, effects s1 = effects s ++ [Alert shown over])
  /\ (forall s' : ClientState,
        noteId ∈ map note_id (notes s') ->
        List.find (has_id noteId)
                  (notes (failed_in (updateNote now noteId content) message s s'))
        = Some original
        /\ List.find (has_id noteId)
                     (notes (failed_in (updateNoteType now noteId newType) message s s'))
           = Some original)
  /\ (forall s' : ClientState,
        noteId ∉ map note_id (notes s') ->
        List.find (has_id noteId) (notes (failed_in (deleteNote noteId) message s s'))
        = Some original).
Proof.
  intros Hm Hact Hnd Hfind.
  pose proof (find_has_id_Some _ _ _ Hfind) as [Hin Hid].
  assert (Hupd : forall what other (f : Note -> Note) rq,
             (forall n, note_id (f n) = note_id n) ->
             let p : Proc := fun s0 =>
               (setNotes (map_note noteId f) s0,
                [Await rq (update_settled what other noteId (Some original))]) in
             notes (failed p message s) = notes s
             /\ exists shown over,
                  effects (failed p message s) = effects s ++ [Alert shown over]).
  { intros what other f rq Hf p. unfold failed.
    change (resume (p s).2 (RError message) (p s).1).1
      with (failed_in p message s (setNotes (map_note noteId f) s)).
    subst p. rewrite update_failed_state.
    match goal with
    | |- context [alert_failure ?r ?w ?o ?msg ?st] =>
        destruct (alert_failure_effects r w o msg st) as [Hn [shown He]]
    end.
    rewrite Hn, He. cbn [notes setNotes effects].
    rewrite (map_note_twice _ _ _ _ Hf), (map_note_original _ _ _ Hnd Hfind).
    split; [done|by eexists _, _]. }
  assert (Hupd' : forall what other (f : Note -> Note) rq (s' : ClientState),
             noteId ∈ map note_id (notes s') ->
             let p : Proc := fun s0 =>
               (setNotes (map_note noteId f) s0,
                [Await rq (update_settled what other noteId (Some original))]) in
             List.find (has_id noteId) (notes (failed_in p message s s'))
             = Some original).
  { intros what other f rq s' Hs' p. subst p. rewrite update_failed_state.
    match goal with
    | |- context [alert_failure ?r ?w ?o ?msg ?st] =>
        destruct (alert_failure_effects r w o msg st) as [-> _]
    end.
    cbn [notes setNotes]. by apply find_map_note_const. }
  split; [|split; [|split; [|split]]].
  - unfold failed, updateNote. rewrite Hm, Hact, Hfind. cbn [is_ended].
    by apply (Hupd "edit notes" "Failed to update note: " (with_content content now)
                   (UpdateNoteContent content noteId (user s))).
  - unfold failed, updateNoteType. rewrite Hm, Hact, Hfind. cbn [is_ended].
    by apply (Hupd "move notes" "Failed to move note: " (with_type newType now)
                   (UpdateNoteType newType noteId)).
  - unfold failed, deleteNote. rewrite Hm, Hact, Hfind. cbn [is_ended fst snd resume].
    unfold delete_settled.
    match goal with
    | |- context [alert_failure ?r ?w ?o ?msg ?st] =>
        destruct (alert_failure_effects r w o msg st) as [Hn [shown He]]
    end.
    cbn [fst]. rewrite Hn, He. cbn [notes setNotes effects].
    split; [done|]. split; [by apply find_filter_out_append|].
    split; [by apply filter_out_permutation|by eexists _, _].
  - intros s' Hs'. split.
    + unfold failed_in, updateNote. rewrite Hm, Hact, Hfind. cbn [is_ended].
      by apply (Hupd' "edit notes" "Failed to update note: "
                      (with_content content now)
                      (UpdateNoteContent content noteId (user s))).
    + unfold failed_in, updateNoteType. rewrite Hm, Hact, Hfind. cbn [is_ended].
      by apply (Hupd' "move notes" "Failed to move note: "
                      (with_type newType now) (UpdateNoteType newType noteId)).
  - intros s' Hs'. unfold failed_in, deleteNote.
    rewrite Hm, Hact, Hfind. cbn [is_ended fst snd resume]. unfold delete_settled.
    match goal with
    | |- context [alert_failure ?r ?w ?o ?msg ?st] =>
        destruct (alert_failure_effects r w o msg st) as [Hn _]
    end.
    cbn [fst]. rewrite Hn. cbn [notes setNotes]. by apply find_app_fresh.
Qed.

Lemma rollback_restores_captured_value_witness :
  let board := mkMeeting "m1" "Retro" "ABC123" "host" active None None 0 in
  let a := mkNote "n1" "Great sprint!" glad "A" 10 10 2 true in
  let b := mkNote "n2" "Too many meetings" mad "A" 11 11 0 false in
  let s := mkClient (Some "A") (Some board) [a; b] ∅ true [] in
  notes (failed (updateNote 20 "n1" "edited") "network error" s) = [a; b].
Proof.
  intros board a b s.
  apply (rollback_restores_captured_value s board 20 "n1" "edited" sad a
           "network error");
    [reflexivity | reflexivity | | reflexivity].
  apply (bool_decide_unpack _). vm_compute. reflexivity.
Defined.

End Rollback.

(** ** Insert notifications *)

Section InsertNotification.

Lemma on_note_insert_cases (newNote : NoteRow) (s : ClientState)
    (resp : Response) (s' : ClientState) :
  notes (after_insert_notification newNote s resp s') = notes s'
  \/ ((row_id newNote ∉ map note_id (notes s'))
      /\ exists n, note_id n = row_id newNote
                   /\ notes (after_insert_notification newNote s resp s')
                      = notes s' ++ [n]).
Proof.
  unfold after_insert_notification, on_note_insert, fetchNoteWithLikes.
  destruct (user s) as [u|]; [|by left].
  destruct (String.eqb _ u); [by left|]. cbn.
  destruct (existsb (has_id (row_id newNote)) (notes s')) eqn:Hex; [by left|].
  right. split.
  - intros Hin. apply existsb_has_id in Hin. congruence.
  - eexists. split; [|reflexivity]. by destruct resp.
Qed.

(** C6.  Handling an authoritative insert notification keeps ids unique
    in the local list.  A notification for an item the current user
    created is dropped on arrival; one whose id is already in the list
    leaves the list as it is; otherwise the item is appended once.  So
    after a local insert of the row returned by the store, the user's own
    notification for that row changes nothing and the list shows the
    item exactly once. *)
Theorem insert_notification_no_duplicate
    (s : ClientState) (u : string) (newNote : NoteRow) :
  user s = Some u ->
  (row_created_by newNote = u -> on_note_insert newNote s = (s, []))
  /\ (on_note_insert newNote s).1 = s
  /\ (forall (resp : Response) (s' : ClientState),
        let s'' := after_insert_notification newNote s resp s' in
        (row_id newNote ∈ map note_id (notes s') -> notes s'' = notes s')
        /\ (NoDup (map note_id (notes s')) -> NoDup (map note_id (notes s''))))
  /\ (forall (m : Meeting) (type : NoteType) (content : string),
        meeting s = Some m -> meeting_status m = active ->
        row_created_by newNote = u ->
        row_id newNote ∉ map note_id (notes s) ->
        let inserted := (resume (addNote type content s).2 (RNote newNote) s).1 in
        on_note_insert newNote inserted = (inserted, [])
        /\ length (List.filter (has_id (row_id newNote)) (notes inserted)) = 1%nat).
Proof.
  intros Hu. split; [|split; [|split]].
  - intros Hown. unfold on_note_insert. rewrite Hu, Hown.
    by rewrite String.eqb_refl.
  - unfold on_note_insert, fetchNoteWithLikes. rewrite Hu.
    by destruct (String.eqb _ u).
  - intros resp s' s''. subst s''.
    destruct (on_note_insert_cases newNote s resp s') as [->|[Hfresh [n [Hn ->]]]].
    + done.
    + split; [done|]. intros Hnd. rewrite map_app. cbn [map].
      apply NoDup_app. split; [done|]. split.
      * intros x Hx Hx'. apply list_elem_of_singleton in Hx'. congruence.
      * apply NoDup_singleton.
  - intros m type content Hm Hact Hown Hfresh inserted. subst inserted.
    unfold addNote. rewrite Hm, Hu, Hact. cbn [is_ended snd fst resume].
    split.
    + unfold on_note_insert. cbn [user setNotes]. rewrite Hu, Hown.
      by rewrite String.eqb_refl.
    + cbn [notes setNotes]. rewrite List.filter_app, length_app.
      rewrite filter_none.
      * cbn. unfold has_id. cbn. by rewrite String.eqb_refl.
      * intros x Hx. apply has_id_false. intros Hid. apply Hfresh.
        rewrite <- Hid. by apply list_elem_of_fmap_2.
Qed.

Lemma insert_notification_no_duplicate_witness :
  let board := mkMeeting "m1" "Retro" "ABC123" "host" active None None 0 in
  let s := mkClient (Some "A") (Some board) [] ∅ true [] in
  let row := mkNoteRow "n1" "m1" "Great sprint!" glad "A" 10 10 in
  on_note_insert row s = (s, []).
Proof.
  intros board s row.
  apply (insert_notification_no_duplicate s "A" row); reflexivity.
Defined.

(** A notification for another user's item that is not yet in the list
    appends it; a second delivery of the same notification is a no-op. *)
Lemma insert_notification_delivered_twice :
  let board := mkMeeting "m1" "Retro" "ABC123" "host" active None None 0 in
  let s := mkClient (Some "A") (Some board) [] ∅ true [] in
  let row := mkNoteRow "n7" "m1" "Release slipped" sad "B" 10 10 in
  let once := after_insert_notification row s (RLikes (Some 1) false) s in
  let twice := after_insert_notification row once (RLikes (Some 1) false) once in
  notes once = [note_of_row row 1 false] /\ notes twice = notes once.
Proof. vm_compute. done. Qed.

End InsertNotification.

(** ** Reactions *)

Section Reactions.

(** The branch [toggleNoteLike] has for an answer that mentions a
    duplicate key.  A like (the item is not liked in the render the click
    comes from, and no toggle of the item is being processed) sends an
    upsert of [(note_id, user_id)].  Were that upsert answered with a
    duplicate-key message, the handler would raise no alert and send
    nothing, would not revert the optimistic update (the count is only
    clamped at zero), and every item with that id would be shown as
    liked.  The store never gives that answer to an upsert
    ([upsert_never_answers_duplicate_key] below). *)
Lemma duplicate_key_answer_keeps_like
    (s0 : ClientState) (m : Meeting) (u : string) (now : Z)
    (noteId : string) (note : Note) (message : string) :
  meeting s0 = Some m -> meeting_status m = active -> user s0 = Some u ->
  List.find (has_id noteId) (notes s0) = Some note ->
  user_liked note = false ->
  noteId ∉ likingNotes s0 ->
  includes "duplicate key" message = true ->
  requests (toggleNoteLike now noteId s0).2 = [UpsertLike noteId u]
  /\ forall s : ClientState,
       let s' := (resume (toggleNoteLike now noteId s0).2 (RError message) s).1 in
       effects s' = effects s
       /\ (forall (i : nat) (n : Note),
             notes s !! i = Some n ->
             notes s' !! i
             = Some (if has_id noteId n
                     then with_likes (Z.max 0 (like_count n)) true n
                     else n))
       /\ (forall n : Note, n ∈ notes s' -> note_id n = noteId -> user_liked n = true).
Proof.
  intros Hm Hact Hu Hfind Hliked Hfree Hdup.
  unfold toggleNoteLike. rewrite Hm, Hu, Hact, Hfind.
  rewrite (bool_decide_eq_false_2 _ Hfree), Hliked. cbn [is_ended negb].
  split; [by destruct (channelRef _)|].
  intros s. cbn [snd resume]. unfold like_settled.
  cbn [negb fst]. rewrite Hdup. cbn [effects setNotes notes].
  split; [done|]. split.
  - intros i n Hi. by rewrite (map_note_lookup _ _ _ _ _ Hi).
  - intros n Hn Hid. unfold map_note in Hn.
    apply list_elem_of_fmap in Hn as [n0 [-> Hn0]].
    destruct (has_id noteId n0) eqn:H0; [done|].
    apply has_id_false in H0. congruence.
Qed.

(** C10.  Whatever a [like_change] broadcast makes of the local list,
    an item it has changed carries [max 0 (count + delta)], which is not
    negative; an unlike received for an item whose count is zero leaves
    the count at zero. *)
Theorem like_broadcast_count_not_negative
    (closure_notes : list Note) (noteId userId : string) (liked : bool)
    (s : ClientState) (i : nat) (n n' : Note) :
  let s' := (on_like_change closure_notes noteId userId liked s).1 in
  notes s !! i = Some n ->
  notes s' !! i = Some n' ->
  (n' = n
   \/ (note_id n = noteId
       /\ like_count n' = Z.max 0 (like_count n + (if liked then 1 else -1))
       /\ 0 <= like_count n'))
  /\ (like_count n = 0 -> liked = false -> like_count n' = 0).
Proof.
  intros s' Hn Hn'.
  assert (Hcases : n' = n \/ (has_id noteId n = true /\ n' = apply_delta liked n)).
  { subst s'. unfold on_like_change in Hn'.
    destruct (user s) as [u|]; [|left; cbn in Hn'; congruence].
    destruct (String.eqb userId u); [left; cbn in Hn'; congruence|].
    destruct (List.find _ closure_notes); [|left; cbn in Hn'; congruence].
    cbn [fst notes setNotes] in Hn'.
    rewrite (map_note_lookup _ _ _ _ _ Hn) in Hn'.
    destruct (has_id noteId n) eqn:Hid; [right; split|left]; congruence. }
  destruct Hcases as [->|[Hid ->]].
  - split; [by left|done].
  - split.
    + right. split; [by apply has_id_true|]. cbn. split; [done|lia].
    + intros H0 ->. cbn. rewrite H0. done.
Qed.

Lemma like_broadcast_count_not_negative_witness :
  let n := mkNote "n1" "Great sprint!" glad "A" 10 10 0 false in
  like_count (apply_delta false n) = 0.
Proof.
  intros n.
  pose (s := mkClient (Some "B") None [n] ∅ true []).
  apply (like_broadcast_count_not_negative [n] "n1" "C" false s 0%nat n
           (apply_delta false n)); reflexivity.
Defined.

End Reactions.

(** ** Who may change an item *)

Section Authorization.

Lemma update_notes_lookup (st : Store) uid upd flt (i : nat) (r : NoteRow) :
  notes_table st !! i = Some r ->
  update_notes st uid upd flt !! i
  = Some (if note_hit st uid flt r then upd r else r).
Proof. intros H. unfold update_notes. by rewrite list_lookup_fmap, H. Qed.

(** The two UPDATE policies on [notes] together let a row through exactly
    when its meeting is active: the creator test of the first is absorbed
    by the second ("Anyone can move notes between sections"). *)
Lemma update_notes_policy (st : Store) (uid : string) (r : NoteRow) :
  Policy.update_notes st uid r = meeting_active st (row_meeting_id r).
Proof.
  unfold Policy.update_notes, Policy.note_creators_can_update_content,
    Policy.anyone_can_move_notes.
  by destruct (String.eqb _ _), (meeting_active _ _).
Qed.

(** C4, counterexample.  Bob moves Alice's item from [glad] to [sad] on
    an active board.  The request [updateNoteType] sends selects the row
    by [id] alone, without the author, and the store carries it out: the
    stored category changes although Bob is not the author. *)
Lemma non_author_moves_item :
  let board := mkMeeting "m1" "Retro" "ABC123" "host" active None None 0 in
  let row := mkNoteRow "n1" "m1" "Great sprint!" glad "alice" 10 10 in
  let bob := mkClient (Some "bob") (Some board) [note_of_row row 0 false] ∅ true [] in
  let st := mkStore [board] [row] [] in
  let env := mkStoreEnv "" 20 in
  let moved := mkNoteRow "n1" "m1" "Great sprint!" sad "alice" 10 20 in
  requests (updateNoteType 20 "n1" sad bob).2 = [UpdateNoteType sad "n1"]
  /\ store_exec "bob" env (UpdateNoteType sad "n1") st
     = (mkStore [board] [moved] [], RNote moved).
Proof. vm_compute. done. Qed.

(** C4, as amended.  On an active board a content update is sent scoped
    by [(id, created_by = current user)] and a category update scoped by
    [id] alone.  In the store, the content update of user [uid] changes a
    row only if the row has that id, [uid] is its author and its meeting
    is active; the category update changes the row with that id for any
    caller, author or not, exactly when the row's meeting is active. *)
Theorem content_by_author_category_by_anyone
    (s : ClientState) (m : Meeting) (now : Z) (noteId content : string)
    (newType : NoteType) :
  meeting s = Some m -> meeting_status m = active ->
  requests (updateNote now noteId content s).2
  = [UpdateNoteContent content noteId (user s)]
  /\ requests (updateNoteType now noteId newType s).2
     = [UpdateNoteType newType noteId]
  /\ forall (uid : string) (env : StoreEnv) (st : Store) (i : nat) (r : NoteRow),
       notes_table st !! i = Some r ->
       (forall r' : NoteRow,
          notes_table (store_exec uid env
                         (UpdateNoteContent content noteId (Some uid)) st).1 !! i
          = Some r' ->
          r' <> r ->
          row_id r = noteId /\ row_created_by r = uid
          /\ meeting_active st (row_meeting_id r) = true
          /\ r' = set_row_content content (env_now env) r)
       /\ notes_table (store_exec uid env (UpdateNoteType newType noteId) st).1 !! i
          = Some (if String.eqb (row_id r) noteId
                     && meeting_active st (row_meeting_id r)
                  then set_row_type newType (env_now env) r
                  else r).
Proof.
  intros Hm Hact. split; [|split].
  - unfold updateNote. by rewrite Hm, Hact.
  - unfold updateNoteType. by rewrite Hm, Hact.
  - intros uid env st i r Hi. split.
    + intros r' Hr' Hne. cbn in Hr'.
      rewrite (update_notes_lookup _ _ _ _ _ _ Hi) in Hr'.
      unfold note_hit, row_by_id_and_author in Hr'.
      rewrite update_notes_policy in Hr'.
      destruct (String.eqb_spec (row_id r) noteId) as [Hid|Hid];
        [|cbn in Hr'; congruence].
      destruct (String.eqb_spec uid (row_created_by r)) as [Hc|Hc];
        [|cbn in Hr'; congruence].
      destruct (meeting_active st (row_meeting_id r));
        [|cbn in Hr'; congruence].
      cbn in Hr'. injection Hr' as <-. done.
    + cbn. rewrite (update_notes_lookup _ _ _ _ _ _ Hi).
      unfold note_hit, row_by_id. by rewrite update_notes_policy.
Qed.

Lemma content_by_author_category_by_anyone_witness :
  let board := mkMeeting "m1" "Retro" "ABC123" "host" active None None 0 in
  let row := mkNoteRow "n1" "m1" "Great sprint!" glad "alice" 10 10 in
  let bob := mkClient (Some "bob") (Some board) [note_of_row row 0 false] ∅ true [] in
  requests (updateNote 20 "n1" "edited" bob).2
  = [UpdateNoteContent "edited" "n1" (Some "bob")].
Proof.
  intros board row bob.
  apply (content_by_author_category_by_anyone bob board 20 "n1" "edited" sad);
    reflexivity.
Defined.

(** Bob's content update of Alice's item touches no row: the store
    answers with the zero-row error and the stored content stays. *)
Lemma non_author_cannot_edit_content :
  let board := mkMeeting "m1" "Retro" "ABC123" "host" active None None 0 in
  let row := mkNoteRow "n1" "m1" "Great sprint!" glad "alice" 10 10 in
  let st := mkStore [board] [row] [] in
  store_exec "bob" (mkStoreEnv "" 20) (UpdateNoteContent "edited" "n1" (Some "bob")) st
  = (st, RError msg_no_rows).
Proof. vm_compute. done. Qed.

End Authorization.

(** ** Toggling a like while an earlier toggle is in flight *)

Section RapidToggle.

Lemma has_like_app (l : list (string * string)) x : existsb (pair_eqb x) (l ++ [x]) = true.
Proof.
  rewrite existsb_app. cbn. unfold pair_eqb. rewrite !String.eqb_refl. by rewrite orb_true_r.
Qed.

Lemma has_like_removed (keep : string * string -> bool) (l : list (string * string)) x :
  (forall y, pair_eqb x y = true -> keep y = false) ->
  existsb (pair_eqb x) (List.filter keep l) = false.
Proof.
  intros H. induction l as [|a l IH]; cbn; [done|].
  destruct (keep a) eqn:Ha; cbn; [|done].
  rewrite IH. destruct (pair_eqb x a) eqn:Hx; [|done]. rewrite (H a Hx) in Ha. done.
Qed.

Lemma find_map_note_refresh noteId (o : Note) (l : list Note) note :
  note_id o = noteId ->
  List.find (has_id noteId) l = Some note ->
  List.find (has_id noteId) (map_note noteId (fun _ => o) l) = Some o.
Proof.
  intros Ho Hf. apply find_map_note_const; [done|].
  apply find_has_id_Some in Hf as [Hin Hid]. rewrite <- Hid.
  by apply list_elem_of_fmap_2.
Qed.

Lemma find_map_note_keep noteId (f : Note -> Note) (l : list Note) note :
  (forall n, note_id (f n) = note_id n) ->
  List.find (has_id noteId) l = Some note ->
  List.find (has_id noteId) (map_note noteId f l) = Some (f note).
Proof.
  intros Hf. induction l as [|a l IH]; cbn; [done|].
  destruct (has_id noteId a) eqn:Ha.
  - intros [= ->]. assert (has_id noteId (f note) = true) as ->; [|done].
    apply has_id_true. rewrite Hf. by apply has_id_true.
  - rewrite Ha. done.
Qed.

Lemma store_upsert_fresh u env noteId st :
  has_like st (noteId, u) = false -> note_in_active_meeting st noteId = true ->
  store_exec u env (UpsertLike noteId u) st
  = (mkStore (meetings st) (notes_table st) (note_likes st ++ [(noteId, u)]), ROk).
Proof.
  intros Hl Ha. cbn [store_exec]. rewrite Hl. unfold Policy.like_notes. cbn [fst snd].
  by rewrite String.eqb_refl, Ha.
Qed.

Lemma note_in_active_meeting_likes st likes noteId :
  note_in_active_meeting (mkStore (meetings st) (notes_table st) likes) noteId
  = note_in_active_meeting st noteId.
Proof. reflexivity. Qed.

Lemma toggle_cycle_flips u noteId liked c w :
  at_rest u noteId liked w -> at_rest u noteId (negb liked) (toggle_cycle noteId c w).
Proof.
  destruct w as [sess [usr mt nts lk ch eff] st ts]. unfold at_rest at 1. cbn.
  intros (Hts & Hs & Hu & (m & Hm & Hact) & Hfree & (note & Hfind & Hl) & Hst & Hopen).
  subst ts sess usr mt.
  pose proof (find_has_id_Some _ _ _ Hfind) as [_ Hid].
  unfold toggle_cycle, call, toggleNoteLike. cbn [client user meeting notes likingNotes fst snd].
  rewrite Hact, Hfind. cbn [is_ended].
  rewrite (bool_decide_eq_false_2 _ Hfree). rewrite Hl.
  cbn [session store tasks app setNotes setLikingNotes channelRef user meeting notes likingNotes effects].
  set (c1 := if ch then _ else _).
  assert (Hc1 : user c1 = Some u /\ meeting c1 = Some m
                /\ notes c1 = map_note noteId (apply_like liked) nts
                /\ likingNotes c1 = lk ∪ {[noteId]}).
  { subst c1. by destruct ch. }
  clearbody c1. destruct c1 as [usr1 mt1 nts1 lk1 ch1 eff1]. cbn in Hc1.
  destruct Hc1 as (-> & -> & -> & ->).
  assert (Hfind1 : List.find (has_id noteId) (map_note noteId (apply_like liked) nts)
                   = Some (apply_like liked note)).
  { by apply find_map_note_keep. }
  assert (Hstep : forall (st' : Store) (c1 : ClientState) liked',
     user c1 = Some u -> meeting c1 = Some m ->
     List.find (has_id noteId) (notes c1) = Some (apply_like liked note) ->
     likingNotes c1 = lk ∪ {[noteId]} ->
     has_like st' (noteId, u) = liked' ->
     note_in_active_meeting st' noteId = true ->
     at_rest u noteId liked'
       (resolve c.1 0 (resolve c.1 1 (resolve c.1 0
          (mkWorld u c1 st' [refresh_timer noteId note; unmark_timer noteId]))))).
  { intros st' [usr2 mt2 nts2 lk2 ch2 eff2] liked'. cbn [user meeting notes likingNotes].
    intros -> -> Hf1 -> Hst' Hopen'.
    unfold resolve at 3.
    cbn [tasks lookup list_lookup session store client delete list_delete app
         refresh_timer fetchNoteWithLikes user].
    unfold resolve at 2.
    cbn [tasks lookup list_lookup session store client delete list_delete app
         unmark_timer store_exec].
    unfold resolve.
    cbn [tasks lookup list_lookup session store client delete list_delete app
         setLikingNotes setNotes user meeting notes likingNotes].
    rewrite Hid, Hst'. unfold at_rest.
    cbn [tasks session client store user meeting notes likingNotes].
    repeat split; try done.
    - by exists m.
    - intros Hin. apply elem_of_difference in Hin as [_ Hn].
      apply Hn. by apply elem_of_singleton.
    - exists (refreshed_note note (RLikes (Some (count_likes st' noteId)) liked')).
      split; [|done]. by eapply find_map_note_refresh. }
  destruct liked; cbn [negb].
  - unfold resolve at 4.
    cbn [tasks lookup list_lookup session store client delete list_delete app
         store_exec like_settled].
    apply Hstep; try done.
    + unfold has_like. cbn [note_likes]. apply has_like_removed.
      intros [n v] Hp. unfold pair_eqb in Hp. cbn in Hp.
      apply andb_true_iff in Hp as [Hn Hv].
      apply String.eqb_eq in Hn, Hv. subst n v.
      unfold pair_eqb, Policy.unlike_own. cbn [fst snd].
      by rewrite !String.eqb_refl, Hopen.
  - unfold resolve at 4.
    cbn [tasks lookup list_lookup session store client delete list_delete app].
    rewrite (store_upsert_fresh _ _ _ _ Hst Hopen). cbn [like_settled].
    apply Hstep; try done.
    unfold has_like. cbn [note_likes]. apply has_like_app.
Qed.

Lemma toggle_cycles_parity u noteId liked cs w :
  at_rest u noteId liked w ->
  at_rest u noteId (xorb liked (Nat.odd (length cs))) (toggle_cycles noteId cs w).
Proof.
  revert liked w. induction cs as [|c cs IH]; intros liked w Hw.
  - cbn. by rewrite xorb_false_r.
  - cbn [toggle_cycles foldl]. fold (toggle_cycles noteId cs (toggle_cycle noteId c w)).
    replace (xorb liked (Nat.odd (length (c :: cs))))
      with (xorb (negb liked) (Nat.odd (length cs))).
    + apply IH. by apply toggle_cycle_flips.
    + cbn [length]. rewrite Nat.odd_succ, <- Nat.negb_odd.
      by destruct liked, (Nat.odd (length cs)).
Qed.

(** C3, as amended.  Starting from an item that user [u] has not liked,
    after a finite sequence of toggle attempts, each carried through
    (durable call, refresh, unmarking) before the next one starts, the
    item is liked by [u] exactly when the number of attempts is odd,
    locally and in the store.  Attempts made while an earlier one is
    still being processed are not covered. *)
Theorem sequential_toggles_parity
    (u noteId : string) (cs : list (StoreEnv * Z)) (w : World) :
  at_rest u noteId false w ->
  at_rest u noteId (Nat.odd (length cs)) (toggle_cycles noteId cs w).
Proof. apply (toggle_cycles_parity u noteId false). Qed.

Lemma sequential_toggles_parity_witness :
  let env := mkStoreEnv "" 0 in
  at_rest "B" "I" true
    (toggle_cycles "I" [(env, 1000); (env, 2000); (env, 3000)] toggle_start).
Proof.
  intros env.
  apply (sequential_toggles_parity "B" "I"
           [(env, 1000); (env, 2000); (env, 3000)] toggle_start).
  unfold at_rest, toggle_start. cbn.
  repeat split; try reflexivity.
  - by exists toggle_board.
  - apply not_elem_of_empty.
  - by eexists.
Defined.

(** A click on an item whose toggle is being processed only flips the
    local flag and count: nothing is sent and nothing is left pending. *)
Lemma toggle_while_processing_sends_nothing
    (s : ClientState) (m : Meeting) (u : string) (now : Z) (noteId : string)
    (note : Note) :
  meeting s = Some m -> meeting_status m = active -> user s = Some u ->
  List.find (has_id noteId) (notes s) = Some note ->
  noteId ∈ likingNotes s ->
  toggleNoteLike now noteId s = (setNotes (map_note noteId flip_like) s, []).
Proof.
  intros Hm Hact Hu Hfind Hin. unfold toggleNoteLike.
  rewrite Hm, Hu, Hact, Hfind. cbn [is_ended].
  by rewrite (bool_decide_eq_true_2 _ Hin).
Qed.

(** C3, counterexample.  After two toggle attempts by B on item I, the
    second made while the first is in flight, and everything having
    settled, I is liked by B: the first click sent the upsert, the second
    only flipped the local flag (the list showed I as not liked for a
    while), and the refresh from the store, which holds the reaction,
    brought the liked state back. *)
Lemma double_toggle_ends_liked :
  settled toggle_twice
  /\ map user_liked (notes (client toggle_twice)) = [true]
  /\ map like_count (notes (client toggle_twice)) = [1]
  /\ note_likes (store toggle_twice) = [("I", "B")]
  /\ (let after_second_click :=
        call (toggleNoteLike 1100 "I") (call (toggleNoteLike 1000 "I") toggle_start) in
      map user_liked (notes (client after_second_click)) = [false]
      /\ requests (tasks after_second_click) = [UpsertLike "I" "B"]).
Proof. vm_compute. done. Qed.

End RapidToggle.

(** ** Typing indicators *)

Section TypingIndicators.

Lemma elapse_expiring (noteId : string) (deadline now : Z) (t : TypingState) :
  expiring noteId deadline t -> expiring noteId deadline (elapse now t).
Proof.
  intros [Harmed|[Htimer Hind]]; unfold expiring, elapse; cbn.
  - destruct (decide (now < deadline)) as [Hlt|Hge].
    + left. by apply map_lookup_filter_Some.
    + right. split.
      * apply map_lookup_filter_None. right. intros d Hd. cbn. congruence.
      * apply map_lookup_filter_None. right. intros x _. cbn.
        unfold due. rewrite Harmed. rewrite bool_decide_eq_true_2; [done|lia].
  - right. split; apply map_lookup_filter_None; by left.
Qed.

Lemma elapse_removes (noteId : string) (deadline now : Z) (t : TypingState) :
  expiring noteId deadline t -> deadline <= now ->
  typingIndicators (elapse now t) !! noteId = None.
Proof.
  intros [Harmed|[_ Hind]] Hle; unfold elapse; cbn;
    apply map_lookup_filter_None; [right|by left].
  intros x _. cbn. unfold due. rewrite Harmed.
  by rewrite bool_decide_eq_true_2.
Qed.

Lemma typing_step_expiring (me noteId : string) (deadline : Z)
    (ev : TypingEvent) (t : TypingState) :
  concerns me noteId ev = false ->
  expiring noteId deadline t -> expiring noteId deadline (typing_step me ev t).
Proof.
  intros Hev Ht. destruct ev as [now n u name isTyping|now]; cbn [typing_step].
  - apply (elapse_expiring _ _ now) in Ht. revert Ht.
    generalize (elapse now t). intros t' Ht'. unfold on_typing.
    cbn [concerns] in Hev.
    destruct (String.eqb_spec u me) as [->|Hu]; [done|].
    destruct (String.eqb_spec n noteId) as [->|Hn]; [done|].
    unfold expiring in *. destruct isTyping; cbn;
      rewrite ?lookup_insert_ne, ?lookup_delete_ne by done; exact Ht'.
  - by apply elapse_expiring.
Qed.

Lemma typing_run_expiring (me noteId : string) (deadline : Z)
    (evs : list TypingEvent) (t : TypingState) :
  (forall ev, ev ∈ evs -> concerns me noteId ev = false) ->
  expiring noteId deadline t -> expiring noteId deadline (typing_run me evs t).
Proof.
  revert t. induction evs as [|ev evs IH]; intros t Hevs Ht; [done|].
  cbn. apply IH.
  - intros e He. apply Hevs. by right.
  - apply typing_step_expiring; [|done]. apply Hevs. by left.
Qed.

(** C9.  A typing signal of a peer for an item displays the indicator
    and arms its timer for three seconds later.  If none of the events
    that follow is a typing or stopped signal of a peer for that item,
    then once the clock has reached three seconds after the signal the
    indicator is no longer in the map. *)
Theorem typing_indicator_expires
    (me : string) (t0 : TypingState) (now later : Z)
    (noteId userId userName : string) (evs : list TypingEvent) :
  userId <> me ->
  (forall ev, ev ∈ evs -> concerns me noteId ev = false) ->
  now + 3000 <= later ->
  let shown := typing_step me (Received now noteId userId userName true) t0 in
  typingIndicators shown !! noteId = Some (mkIndicator userId userName now)
  /\ typingIndicators (typing_step me (Elapsed later) (typing_run me evs shown))
       !! noteId = None.
Proof.
  intros Hpeer Hevs Hlater shown.
  assert (Hshown : typingIndicators shown !! noteId
                   = Some (mkIndicator userId userName now)
                   /\ expiring noteId (now + 3000) shown).
  { subst shown. cbn [typing_step]. unfold on_typing.
    destruct (String.eqb_spec userId me) as [?|_]; [done|].
    unfold expiring. cbn. rewrite !lookup_insert_eq. by split; [|left]. }
  destruct Hshown as [Hind Hexp]. split; [done|].
  cbn [typing_step]. apply (elapse_removes _ (now + 3000)); [|done].
  by apply typing_run_expiring.
Qed.

Lemma typing_indicator_expires_witness :
  let t0 := mkTyping ∅ ∅ in
  let evs := [Received 1500 "n2" "C" "Carol" true; Elapsed 2000;
              Received 2500 "n1" "me" "Me" false] in
  let shown := typing_step "me" (Received 1000 "n1" "B" "Bob" true) t0 in
  typingIndicators (typing_step "me" (Elapsed 4000) (typing_run "me" evs shown))
    !! "n1" = None.
Proof.
  intros t0 evs shown.
  apply (typing_indicator_expires "me" t0 1000 4000 "n1" "B" "Bob" evs).
  - discriminate.
  - intros ev Hev. unfold evs in Hev.
    repeat (apply elem_of_cons in Hev as [->|Hev]; [reflexivity|]).
    by apply elem_of_nil in Hev.
  - lia.
Defined.

End TypingIndicators.

(** ** Notifications on [notes]: update and delete *)

Section NoteNotifications.

Lemma map_note_ids (noteId : string) (f : Note -> Note) (l : list Note) :
  (forall n, has_id noteId n = true -> note_id (f n) = note_id n) ->
  map note_id (map_note noteId f l) = map note_id l.
Proof.
  intros Hf. unfold map_note. rewrite map_map. apply map_ext_in.
  intros n _. destruct (has_id noteId n) eqn:Hn; [by apply Hf|done].
Qed.

Lemma map_note_absent (noteId : string) (f : Note -> Note) (l : list Note) :
  noteId ∉ map note_id l -> map_note noteId f l = l.
Proof.
  intros Hl. unfold map_note. rewrite <- (map_id l) at 2.
  apply map_ext_in. intros n Hn. apply list_elem_of_In in Hn.
  destruct (has_id noteId n) eqn:Hid; [|done].
  exfalso. apply Hl. apply has_id_true in Hid. rewrite <- Hid.
  by apply list_elem_of_fmap_2.
Qed.

Lemma after_update_notification_notes (updatedNote : NoteRow) (s : ClientState)
    (u : string) (resp : Response) (s' : ClientState) :
  user s = Some u ->
  notes (after_update_notification updatedNote s resp s')
  = map_note (row_id updatedNote)
             (fun _ => refreshed_note (note_of_row updatedNote 0 false) resp)
             (notes s').
Proof.
  intros Hu. unfold after_update_notification, on_note_update, fetchNoteWithLikes.
  by rewrite Hu.
Qed.

(** X1.  The handler of an UPDATE notification on [notes] never adds,
    removes or reorders items.  Once the like lookup it starts has been
    answered, the ids of the list are those the list had just before;
    a notification for an id that is not in the list changes nothing;
    and an item that carries the notified id shows the content,
    category, author and update time of the notified row. *)
Theorem update_notification_keeps_ids
    (updatedNote : NoteRow) (s : ClientState) (u : string)
    (resp : Response) (s' : ClientState) :
  user s = Some u ->
  let s'' := after_update_notification updatedNote s resp s' in
  map note_id (notes s'') = map note_id (notes s')
  /\ (row_id updatedNote ∉ map note_id (notes s') -> notes s'' = notes s')
  /\ (forall n, n ∈ notes s'' -> note_id n = row_id updatedNote ->
        note_content n = row_content updatedNote
        /\ note_type n = row_type updatedNote
        /\ note_created_by n = row_created_by updatedNote
        /\ note_updated_at n = row_updated_at updatedNote).
Proof.
  intros Hu s''. subst s''. rewrite (after_update_notification_notes _ _ u) by done.
  split; [|split].
  - apply map_note_ids. intros n Hn. apply has_id_true in Hn. rewrite Hn.
    by destruct resp.
  - apply map_note_absent.
  - intros n Hn Hid. unfold map_note in Hn.
    apply list_elem_of_fmap in Hn as [n0 [-> Hn0]].
    destruct (has_id (row_id updatedNote) n0) eqn:H0.
    + by destruct resp.
    + apply has_id_false in H0. congruence.
Qed.

Lemma update_notification_keeps_ids_witness :
  let a := mkNote "n1" "Great sprint!" glad "A" 10 10 2 true in
  let b := mkNote "n2" "Too many meetings" mad "A" 11 11 0 false in
  let s := mkClient (Some "B") (Some toggle_board) [a; b] ∅ true [] in
  let row := mkNoteRow "n1" "m1" "Even better sprint!" sad "A" 10 30 in
  map note_id (notes (after_update_notification row s (RLikes (Some 3) true) s))
  = ["n1"; "n2"].
Proof.
  intros a b s row.
  exact (proj1 (update_notification_keeps_ids row s "B" (RLikes (Some 3) true) s
                  eq_refl)).
Defined.

Lemma filter_out_fresh (i : string) (l : list Note) :
  i ∉ map note_id l -> List.filter (fun note => negb (has_id i note)) l = l.
Proof.
  intros Hl. apply filter_all. intros n Hn. apply negb_true_iff, has_id_false.
  intros Hid. apply Hl. rewrite <- Hid. by apply list_elem_of_fmap_2.
Qed.

Lemma on_note_delete_notes (i : string) (s : ClientState) :
  i <> "" ->
  on_note_delete (Some i) s
  = (setNotes (List.filter (fun note => negb (has_id i note))) s, []).
Proof.
  intros Hi. unfold on_note_delete, truthy_id.
  destruct (String.eqb_spec i "") as [?|_]; [done|].
  unfold setNotes. destruct (List.find (has_id i) (notes s)) eqn:Hf; [done|].
  rewrite filter_all; [done|].
  intros n Hn. apply negb_true_iff. by apply (find_has_id_None i (notes s)).
Qed.

(** X2.  The handler of a DELETE notification on [notes] removes the
    items with the notified id and nothing else: it starts no request,
    the id is gone from the list, every other item stays, in order, a
    notification for an unknown id changes nothing, and handling the same
    notification again changes nothing more.  A notification without an
    id (missing or empty) is ignored.  An insert notification followed by
    the delete notification for the same row gives back the list from
    before the insert. *)
Theorem delete_notification_removes_by_id
    (i : string) (s : ClientState) :
  i <> "" ->
  let s' := (on_note_delete (Some i) s).1 in
  (on_note_delete (Some i) s).2 = []
  /\ (i ∉ map note_id (notes s'))
  /\ (forall n, note_id n <> i -> (n ∈ notes s' <-> n ∈ notes s))
  /\ notes s' `sublist_of` notes s
  /\ (i ∉ map note_id (notes s) -> notes s' = notes s)
  /\ (on_note_delete (Some i) s').1 = s'
  /\ (on_note_delete None s = (s, []) /\ on_note_delete (Some "") s = (s, []))
  /\ (forall (row : NoteRow) (s0 : ClientState) (resp : Response),
        row_id row = i -> i ∉ map note_id (notes s) ->
        notes (on_note_delete (Some i)
                 (after_insert_notification row s0 resp s)).1 = notes s).
Proof.
  intros Hi s'. subst s'. rewrite (on_note_delete_notes _ _ Hi). cbn [fst snd].
  split; [done|]. split; [|split; [|split; [|split; [|split; [|split]]]]].
  - cbn [notes setNotes]. intros Hin. apply list_elem_of_fmap in Hin as [n [Hn Hin]].
    apply list_elem_of_In, List.filter_In in Hin as [_ Hneg].
    apply negb_true_iff, has_id_false in Hneg. congruence.
  - intros n Hn. cbn [notes setNotes]. rewrite !list_elem_of_In, List.filter_In.
    split; [by intros [? _]|]. intros H. split; [done|].
    by apply negb_true_iff, has_id_false.
  - cbn [notes setNotes]. induction (notes s) as [|a l IH]; cbn; [done|].
    destruct (negb (has_id i a)); [by apply sublist_skip|by apply sublist_cons].
  - intros Hfresh. cbn [notes setNotes]. by apply filter_out_fresh.
  - rewrite (on_note_delete_notes _ _ Hi). cbn [fst]. unfold setNotes. cbn.
    f_equal. induction (notes s) as [|a l IH]; cbn; [done|].
    destruct (negb (has_id i a)) eqn:Ha; cbn; [rewrite Ha; by f_equal|done].
  - done.
  - intros row s0 resp Hrow Hfresh.
    rewrite (on_note_delete_notes _ _ Hi). cbn [fst notes setNotes].
    destruct (on_note_insert_cases row s0 resp s) as [->|[_ [n [Hn ->]]]].
    + by apply filter_out_fresh.
    + rewrite List.filter_app, filter_out_fresh by done. cbn.
      assert (has_id i n = true) as ->; [apply has_id_true; congruence|].
      cbn. by rewrite app_nil_r.
Qed.

Lemma delete_notification_removes_by_id_witness :
  let a := mkNote "n1" "Great sprint!" glad "A" 10 10 2 true in
  let b := mkNote "n2" "Too many meetings" mad "A" 11 11 0 false in
  let s := mkClient (Some "B") (Some toggle_board) [a; b] ∅ true [] in
  "n1" ∉ map note_id (notes (on_note_delete (Some "n1") s).1).
Proof.
  intros a b s.
  assert (H : "n1" <> "") by discriminate.
  exact (proj1 (proj2 (delete_notification_removes_by_id "n1" s H))).
Defined.

End NoteNotifications.

Section LikeRowNotification.

Lemma map_note_ids_const (noteId : string) (v : Note) (l : list Note) :
  note_id v = noteId ->
  map note_id (map_note noteId (fun _ => v) l) = map note_id l.
Proof.
  intros Hv. unfold map_note. rewrite map_map. apply map_ext_in.
  intros n _. unfold has_id. destruct (String.eqb_spec (note_id n) noteId); congruence.
Qed.

(** X3.  The handler of a change on [note_likes] works from the
    item list held when the subscription was set up, not from the list
    on the board.  It changes nothing at once; for an item the earlier
    list does not hold it sends nothing, even if the board shows the
    item now; for an item the earlier list holds it looks up the likes
    and then replaces the board's item of that id by the earlier copy
    with the likes looked up, so that content and category are those of
    the copy.  The ids of the board's list and its other items are
    unchanged. *)
Theorem like_row_notification_uses_subscribed_copy
    (subscribed : list Note) (i u : string) (s : ClientState)
    (resp : Response) (s' : ClientState) :
  user s = Some u -> i <> "" ->
  let run := on_like_row_change subscribed (Some i) s in
  run.1 = s
  /\ (List.find (has_id i) subscribed = None -> run.2 = [])
  /\ (forall copy, List.find (has_id i) subscribed = Some copy ->
        requests run.2 = [SelectLikes i u]
        /\ let s'' := (resume run.2 resp s').1 in
           map note_id (notes s'') = map note_id (notes s')
           /\ (forall n, n ∈ notes s'' -> note_id n = i ->
                 n = refreshed_note copy resp
                 /\ note_content n = note_content copy
                 /\ note_type n = note_type copy)
           /\ (forall n, note_id n <> i -> (n ∈ notes s'' <-> n ∈ notes s'))).
Proof.
  intros Hu Hi run. subst run. unfold on_like_row_change. rewrite Hu.
  destruct (String.eqb_spec i "") as [|_]; [done|].
  destruct (List.find (has_id i) subscribed) as [copy|] eqn:Hf.
  - unfold fetchNoteWithLikes. rewrite Hu. cbn [fst snd].
    split; [done|]. split; [done|]. intros ? [= <-].
    pose proof (List.find_some _ _ Hf) as [_ Hid].
    unfold has_id in Hid. apply String.eqb_eq in Hid.
    split; [cbn; by rewrite Hid|].
    cbn [resume fst notes setNotes].
    assert (Hrid : note_id (refreshed_note copy resp) = i).
    { unfold refreshed_note. by destruct resp. }
    split; [by apply map_note_ids_const|]. split.
    + intros n Hn Hnid. unfold map_note in Hn.
      apply list_elem_of_In, List.in_map_iff in Hn as (x & Hx & _).
      unfold has_id in Hx.
      assert (n = refreshed_note copy resp) as ->.
      { destruct (String.eqb_spec (note_id x) i); [done|]. subst x. done. }
      split; [done|]. unfold refreshed_note. by destruct resp.
    + intros n Hn. unfold map_note. rewrite !list_elem_of_In, List.in_map_iff. split.
      * intros (x & Hx & Hin). unfold has_id in Hx.
        destruct (String.eqb_spec (note_id x) i); [congruence|]. by subst x.
      * intros Hin. exists n. split; [|done]. unfold has_id.
        by destruct (String.eqb_spec (note_id n) i).
  - split; [done|]. split; [done|]. intros ? [=].
Qed.

Lemma like_row_notification_uses_subscribed_copy_witness :
  let old := mkNote "n1" "Great sprint!" glad "A" 10 10 0 false in
  let edited := mkNote "n1" "Great sprint, great demo!" glad "A" 10 50 0 false in
  let s := mkClient (Some "B") (Some toggle_board) [edited] ∅ true [] in
  let run := on_like_row_change [old] (Some "n1") s in
  requests run.2 = [SelectLikes "n1" "B"]
  /\ map note_id (notes (resume run.2 (RLikes (Some 1) false) s).1) = ["n1"]
  /\ map note_content (notes (resume run.2 (RLikes (Some 1) false) s).1)
     = ["Great sprint!"].
Proof.
  intros old edited s run.
  assert (Hi : "n1" <> "") by discriminate.
  destruct (like_row_notification_uses_subscribed_copy [old] "n1" "B" s
              (RLikes (Some 1) false) s eq_refl Hi) as (_ & _ & H).
  destruct (H old eq_refl) as (Hrq & Hids & _ & _).
  split; [exact Hrq|]. split; [exact Hids|]. reflexivity.
Defined.

End LikeRowNotification.

(** ** Columns, drag and drop *)

Section Columns.

Lemma perm_insert (n : Note) (l1 l2 l : list Note) :
  l1 ++ l2 ≡ₚ l -> l1 ++ n :: l2 ≡ₚ n :: l.
Proof. intros H. rewrite <- Permutation_middle. by apply Permutation_skip. Qed.

Lemma column_cons (t : NoteType) (n : Note) (l : list Note) :
  column t (n :: l)
  = if bool_decide (note_type n = t) then n :: column t l else column t l.
Proof. reflexivity. Qed.

Lemma column_partition (l : list Note) :
  column glad l ++ column mad l ++ column sad l ++ column action l ≡ₚ l.
Proof.
  induction l as [|n l IH]; [done|].
  rewrite !column_cons. destruct (note_type n); cbn [bool_decide decide_rel]; cbn.
  - by apply Permutation_skip.
  - by apply perm_insert.
  - rewrite app_assoc. apply perm_insert. by rewrite <- app_assoc.
  - rewrite !app_assoc. apply perm_insert. by rewrite <- !app_assoc.
Qed.

Lemma column_sublist (t : NoteType) (l : list Note) : column t l `sublist_of` l.
Proof.
  unfold column. induction l as [|a l IH]; cbn; [done|].
  destruct (bool_decide _); [by apply sublist_skip|by apply sublist_cons].
Qed.

(** X4.  The four columns of the board partition the item list:
    together they hold exactly the items of the list (each as often as
    the list does), each column keeps the order of the list, and an item
    is in a column exactly when it is in the list with that column's
    category. *)
Theorem columns_partition_the_notes (s : ClientState) :
  gladNotes s ++ madNotes s ++ sadNotes s ++ actionNotes s ≡ₚ notes s
  /\ gladNotes s `sublist_of` notes s
  /\ madNotes s `sublist_of` notes s
  /\ sadNotes s `sublist_of` notes s
  /\ actionNotes s `sublist_of` notes s
  /\ (forall (n : Note) (t : NoteType),
        n ∈ column t (notes s) <-> n ∈ notes s /\ note_type n = t).
Proof.
  unfold gladNotes, madNotes, sadNotes, actionNotes.
  split; [apply column_partition|].
  repeat (split; [apply column_sublist|]).
  intros n t. unfold column. rewrite !list_elem_of_In, List.filter_In.
  by rewrite bool_decide_eq_true.
Qed.

End Columns.

Section DragAndDrop.

(** X5.  Dropping a dragged item never reorders the list and never
    touches another item: the ids stay as they are position by position,
    every item keeps its content, author and likes, and items other than
    the dragged one are unchanged.  A drop outside any column, or at the
    place the drag started from, sends nothing and changes nothing; any
    other drop sends at most one request, the change of the dragged
    item's category to the target column (the drop index is never
    used). *)
Theorem drag_never_reorders (now : Z) (result : DropResult) (s : ClientState) :
  let run := handleDragEnd now result s in
  map note_id (notes run.1) = map note_id (notes s)
  /\ (forall (i : nat) (n : Note),
        notes s !! i = Some n ->
        exists n', notes run.1 !! i = Some n'
                   /\ note_content n' = note_content n
                   /\ note_created_by n' = note_created_by n
                   /\ like_count n' = like_count n
                   /\ user_liked n' = user_liked n
                   /\ (note_id n <> draggableId result -> n' = n))
  /\ (destination result = None \/ destination result = Some (source result) ->
      run.2 = [] /\ notes run.1 = notes s)
  /\ (requests run.2 = []
      \/ exists d, destination result = Some d
                   /\ requests run.2
                      = [UpdateNoteType (droppableId d) (draggableId result)]).
Proof.
  intros run.
  assert (Hsame : (run = (s, []) \/ exists msg, run = (alert (notes s) msg s, [])) ->
            map note_id (notes run.1) = map note_id (notes s)
            /\ (forall (i : nat) (n : Note),
                  notes s !! i = Some n ->
                  exists n', notes run.1 !! i = Some n'
                             /\ note_content n' = note_content n
                             /\ note_created_by n' = note_created_by n
                             /\ like_count n' = like_count n
                             /\ user_liked n' = user_liked n
                             /\ (note_id n <> draggableId result -> n' = n))
            /\ (destination result = None
                \/ destination result = Some (source result) ->
                run.2 = [] /\ notes run.1 = notes s)
            /\ (requests run.2 = []
                \/ exists d, destination result = Some d
                   /\ requests run.2
                      = [UpdateNoteType (droppableId d) (draggableId result)])).
  { intros [->|[msg ->]]; cbn; (split; [done|]);
      (split; [|split; [done|by left]]);
      intros i n Hn; exists n; by rewrite Hn. }
  subst run. unfold handleDragEnd in *.
  destruct (meeting s) as [m|] eqn:Hm; [|apply Hsame; right; by eexists].
  destruct (is_ended (meeting_status m)) eqn:Hend;
    [apply Hsame; right; by eexists|].
  destruct (destination result) as [d|] eqn:Hd; [|apply Hsame; by left].
  destruct (bool_decide (droppableId d = droppableId (source result))
            && Nat.eqb (index d) (index (source result))) eqn:Hpos;
    [apply Hsame; by left|].
  destruct (List.find (has_id (draggableId result)) (notes s)) as [noteToMove|] eqn:Hf;
    [|apply Hsame; by left].
  clear Hsame. unfold updateNoteType. rewrite Hm, Hend. cbn [fst snd notes setNotes].
  split; [|split; [|split]].
  - by apply map_note_ids.
  - intros i n Hn. rewrite (map_note_lookup _ _ _ _ _ Hn).
    destruct (has_id (draggableId result) n) eqn:Hid; eexists; split; try done.
    + repeat split; try done. intros Hne. apply has_id_true in Hid. congruence.
  - intros [?|Hs]; [done|]. injection Hs as ->. exfalso.
    rewrite bool_decide_eq_true_2, Nat.eqb_refl in Hpos by done. done.
  - right. by exists d.
Qed.

End DragAndDrop.

(** ** Presence *)

Section PresenceProps.

Lemma existsb_eqb (u : string) (l : list string) :
  existsb (String.eqb u) l = true <-> u ∈ l.
Proof.
  induction l as [|a l IH]; cbn.
  - split; [done|]. intros H. by apply elem_of_nil in H.
  - rewrite orb_true_iff, IH, String.eqb_eq, elem_of_cons. done.
Qed.

(** What [push_live] maintains, for an accumulator [acc] grown from
    [acc0] with the presences [ps]. *)
Lemma push_live_spec (acc : list string) (p : Presence) :
  NoDup acc ->
  NoDup (push_live acc p)
  /\ forall u, u ∈ push_live acc p
               <-> u ∈ acc \/ (u <> "" /\ presence_user_id p = Some u).
Proof.
  intros Hnd. unfold push_live. destruct (presence_user_id p) as [v|].
  - destruct (String.eqb_spec v "") as [Hv|Hv]; cbn.
    + split; [done|]. intros u. split; [by left|].
      intros [?|[Hu Heq]]; [done|]. congruence.
    + destruct (existsb (String.eqb v) acc) eqn:Hex; cbn.
      * apply existsb_eqb in Hex. split; [done|]. intros u. split; [by left|].
        intros [?|[Hu Heq]]; [done|]. congruence.
      * assert (v ∉ acc) as Hv'.
        { intros Hin. apply existsb_eqb in Hin. congruence. }
        split.
        -- apply NoDup_app. split; [done|]. split; [|apply NoDup_singleton].
           intros x Hx Hx'. apply list_elem_of_singleton in Hx'. congruence.
        -- intros u. rewrite elem_of_app, list_elem_of_singleton.
           split; [intros [?| ->]; [by left|by right]|].
           intros [?|[Hu Heq]]; [by left|right; congruence].
  - split; [done|]. intros u. split; [by left|]. intros [?|[_ ?]]; done.
Qed.

Lemma foldl_push_live_spec (ps : list Presence) (acc : list string) :
  NoDup acc ->
  NoDup (foldl push_live acc ps)
  /\ forall u, u ∈ foldl push_live acc ps
               <-> u ∈ acc \/ (u <> "" /\ exists p, p ∈ ps /\ presence_user_id p = Some u).
Proof.
  revert acc. induction ps as [|p ps IH]; intros acc Hnd; cbn.
  - split; [done|]. intros u. split; [by left|].
    intros [?|[_ [p [Hp _]]]]; [done|]. by apply elem_of_nil in Hp.
  - destruct (push_live_spec acc p Hnd) as [Hnd' Hin'].
    destruct (IH _ Hnd') as [Hnd'' Hin'']. split; [done|].
    intros u. rewrite Hin'', Hin'. split.
    + intros [[?|[? ?]]|[? [q [? ?]]]]; [by left| |].
      * right. split; [done|]. exists p. split; [by left|done].
      * right. split; [done|]. exists q. split; [by right|done].
    + intros [?|[? [q [Hq ?]]]]; [by left; left|].
      apply elem_of_cons in Hq as [->|Hq].
      * left. by right.
      * right. split; [done|]. by exists q.
Qed.

(** X6.  On a presence sync the participant count is the number of
    presence keys, and the list of live users holds no id twice and holds
    exactly the non-empty user ids that some presence of the snapshot
    carries. *)
Theorem presence_sync_live_ids (presenceState : list (string * list Presence)) :
  let '(participantCount, liveUserIds) := on_presence_sync presenceState in
  participantCount = length presenceState
  /\ NoDup liveUserIds
  /\ forall u, u ∈ liveUserIds
               <-> u <> ""
                   /\ exists key ps p, (key, ps) ∈ presenceState /\ p ∈ ps
                                       /\ presence_user_id p = Some u.
Proof.
  unfold on_presence_sync. split; [done|].
  assert (H : forall (st : list (string * list Presence)) (acc : list string),
             NoDup acc ->
             NoDup (foldl (fun l entry => foldl push_live l entry.2) acc st)
             /\ forall u, u ∈ foldl (fun l entry => foldl push_live l entry.2) acc st
                <-> u ∈ acc
                    \/ (u <> "" /\ exists key ps p, (key, ps) ∈ st /\ p ∈ ps
                                       /\ presence_user_id p = Some u)).
  { induction st as [|[k ps] st IH]; intros acc Hnd; cbn.
    - split; [done|]. intros u. split; [by left|].
      intros [?|[_ (k & ps & p & Hk & _)]]; [done|]. by apply elem_of_nil in Hk.
    - destruct (foldl_push_live_spec ps acc Hnd) as [Hnd' Hin'].
      destruct (IH _ Hnd') as [Hnd'' Hin'']. split; [done|].
      intros u. rewrite Hin'', Hin'. split.
      + intros [[?|[? (p & ? & ?)]]|[? (k' & ps' & p & ? & ? & ?)]]; [by left| |].
        * right. split; [done|]. exists k, ps, p. split; [by left|done].
        * right. split; [done|]. exists k', ps', p. split; [by right|done].
      + intros [?|[? (k' & ps' & p & Hk & ? & ?)]]; [by left; left|].
        apply elem_of_cons in Hk as [Heq|Hk]; [injection Heq as -> ->|].
        * left. right. split; [done|]. by exists p.
        * right. split; [done|]. by exists k', ps', p. }
  destruct (H presenceState [] (NoDup_nil_2)) as [Hnd Hin]. split; [done|].
  intros u. rewrite Hin. split; [|by right].
  intros [Hu|?]; [|done]. by apply elem_of_nil in Hu.
Qed.

End PresenceProps.

(** ** Profiles *)

Section ProfileProps.

Lemma foldl_insert_others (data : list UserProfile) (m : gmap string UserProfile)
    (id : string) :
  (forall q, q ∈ data -> profile_id q <> id) ->
  foldl (fun m profile => <[profile_id profile := profile]> m) m data !! id = m !! id.
Proof.
  revert m. induction data as [|p data IH]; intros m Hq; [done|].
  cbn [foldl]. rewrite IH.
  - rewrite lookup_insert_ne; [done|]. apply Hq. by left.
  - intros q Hin. apply Hq. by right.
Qed.

Lemma foldl_insert_some (data : list UserProfile) (m : gmap string UserProfile)
    (id : string) :
  (exists q, q ∈ data /\ profile_id q = id) ->
  exists p, p ∈ data /\ profile_id p = id
            /\ foldl (fun m profile => <[profile_id profile := profile]> m) m data !! id
               = Some p.
Proof.
  revert m. induction data as [|p data IH]; intros m [q [Hq Hid]].
  - by apply elem_of_nil in Hq.
  - cbn [foldl].
    destruct (existsb (fun x => String.eqb (profile_id x) id) data) eqn:Hex.
    + apply existsb_exists in Hex as [x [Hx Hxi]]. apply String.eqb_eq in Hxi.
      destruct (IH (<[profile_id p := p]> m)) as [r (Hr & Hri & Hlook)].
      { exists x. split; [by apply list_elem_of_In|done]. }
      exists r. split; [by right|done].
    + assert (Hnone : forall x, x ∈ data -> profile_id x <> id).
      { intros x Hx Hxi. apply not_true_iff_false in Hex. apply Hex.
        apply existsb_exists. exists x. split; [by apply list_elem_of_In|].
        by apply String.eqb_eq. }
      apply elem_of_cons in Hq as [->|Hq]; [|by destruct (Hnone q Hq)].
      exists p. split; [by left|]. split; [done|].
      rewrite foldl_insert_others by done. subst id. by rewrite lookup_insert_eq.
Qed.

Lemma foldl_fallback (user : option AuthUser) (userIds : list string)
    (m : gmap string UserProfile) (id : string) :
  foldl (fun m id =>
           match m !! id with
           | Some _ => m
           | None => <[id := fallback_profile user id]> m
           end) m userIds !! id
  = match m !! id with
    | Some p => Some p
    | None => if bool_decide (id ∈ userIds)
              then Some (fallback_profile user id) else None
    end.
Proof.
  revert m. induction userIds as [|x xs IH]; intros m.
  - cbn. by destruct (m !! id).
  - cbn [foldl]. rewrite IH. destruct (decide (x = id)) as [->|Hne].
    + destruct (m !! id) as [p|] eqn:Hm.
      * by rewrite Hm.
      * rewrite lookup_insert_eq. rewrite bool_decide_eq_true_2; [done|by left].
    + assert (Hm : (match m !! x with
                    | Some _ => m
                    | None => <[x := fallback_profile user x]> m
                    end) !! id = m !! id).
      { destruct (m !! x); [done|]. by rewrite lookup_insert_ne. }
      rewrite Hm. destruct (m !! id); [done|].
      assert (bool_decide (id ∈ xs) = bool_decide (id ∈ x :: xs)) as ->; [|done].
      apply bool_decide_ext. rewrite elem_of_cons. split; [by right|].
      intros [?|?]; [congruence|done].
Qed.

(** X7.  After a successful profile fetch every requested id has
    a profile.  An id for which the store returned a profile gets one of
    the returned profiles with that id; an id for which it returned none
    gets the made-up fallback profile if it was requested and keeps what
    it had before otherwise.  A failed fetch leaves the profiles as they
    were. *)
Theorem fetched_profiles_cover_requested_ids
    (user : option AuthUser) (userIds : list string)
    (data : option (list UserProfile)) (prev : gmap string UserProfile) :
  let next := fetchUserProfiles user userIds (ProfilesData data) prev in
  (forall id, id ∈ userIds -> is_Some (next !! id))
  /\ (forall id, (exists q, q ∈ default [] data /\ profile_id q = id) ->
        exists p, p ∈ default [] data /\ profile_id p = id /\ next !! id = Some p)
  /\ (forall id, (forall q, q ∈ default [] data -> profile_id q <> id) ->
        next !! id = if bool_decide (id ∈ userIds)
                     then Some (fallback_profile user id) else prev !! id)
  /\ (forall message,
        fetchUserProfiles user userIds (ProfilesError message) prev = prev).
Proof.
  intros next. subst next. unfold fetchUserProfiles.
  assert (Hlook : forall id,
    (foldl (fun m id0 => match m !! id0 with
                         | Some _ => m
                         | None => <[id0 := fallback_profile user id0]> m
                         end)
           (foldl (fun m profile => <[profile_id profile := profile]> m)
                  (∅ : gmap string UserProfile) (default [] data)) userIds ∪ prev) !! id
    = match foldl (fun m profile => <[profile_id profile := profile]> m)
                  (∅ : gmap string UserProfile) (default [] data) !! id with
      | Some p => Some p
      | None => if bool_decide (id ∈ userIds)
                then Some (fallback_profile user id) else prev !! id
      end).
  { intros id. rewrite lookup_union, foldl_fallback.
    match goal with
    | |- context [foldl ?f ?e (default [] data) !! id] =>
        destruct (foldl f e (default [] data) !! id) as [p|]
    end; [by destruct (prev !! id)|].
    destruct (bool_decide _); by destruct (prev !! id). }
  split; [|split; [|split; [|done]]].
  - intros id Hid. rewrite Hlook.
    match goal with
    | |- context [foldl ?f ?e (default [] data) !! id] =>
        destruct (foldl f e (default [] data) !! id) as [p|]
    end; [by eexists|].
    rewrite bool_decide_eq_true_2 by done. by eexists.
  - intros id Hex. destruct (foldl_insert_some _ ∅ id Hex) as [p (Hp & Hpi & Hl)].
    exists p. split; [done|]. split; [done|]. by rewrite Hlook, Hl.
  - intros id Hnone. rewrite Hlook, foldl_insert_others by done.
    by rewrite lookup_empty.
Qed.

(** X8.  A profile-update notification never adds a user to the
    known profiles: the set of known ids is unchanged, the profiles of
    other ids are unchanged, and a known id gets the notified profile. *)
Theorem profile_update_adds_no_user
    (updatedProfile : UserProfile) (prev : gmap string UserProfile) :
  let next := on_profile_update updatedProfile prev in
  dom next = dom prev
  /\ (forall id, id <> profile_id updatedProfile -> next !! id = prev !! id)
  /\ (is_Some (prev !! profile_id updatedProfile) ->
      next !! profile_id updatedProfile = Some updatedProfile).
Proof.
  intros next. subst next. unfold on_profile_update.
  destruct (prev !! profile_id updatedProfile) as [old|] eqn:Hold.
  - split; [|split].
    + apply dom_insert_lookup_L. by eexists.
    + intros id Hid. by rewrite lookup_insert_ne.
    + intros _. by rewrite lookup_insert_eq.
  - split; [done|]. split; [done|]. intros [? ?]. done.
Qed.

End ProfileProps.

(** ** Clocks *)

Section ClockProps.

(** X9.  For a meeting that started in the past, the hours, minutes
    and seconds shown as elapsed time are a proper clock reading: hours
    are not negative, minutes and seconds lie between 0 and 59, and the
    three add up to the elapsed time rounded down to the second. *)
Theorem elapsed_parts_bounds (elapsed : Z) :
  0 <= elapsed ->
  let '(hours, minutes, seconds) := elapsed_parts elapsed in
  0 <= hours /\ 0 <= minutes < 60 /\ 0 <= seconds < 60
  /\ hours * hour_ms + minutes * minute_ms + seconds * 1000 <= elapsed
     < hours * hour_ms + minutes * minute_ms + seconds * 1000 + 1000.
Proof.
  intros H. unfold elapsed_parts, hour_ms, minute_ms.
  rewrite !Z.rem_mod_nonneg by lia.
  change (1000 * 60 * 60) with 3600000. change (1000 * 60) with 60000.
  Z.div_mod_to_equations. lia.
Qed.

Lemma elapsed_parts_bounds_witness :
  0 <= 3725999
  /\ let '(hours, minutes, seconds) := elapsed_parts 3725999 in
     0 <= hours /\ 0 <= minutes < 60 /\ 0 <= seconds < 60
     /\ hours * hour_ms + minutes * minute_ms + seconds * 1000 <= 3725999
        < hours * hour_ms + minutes * minute_ms + seconds * 1000 + 1000.
Proof.
  split; [lia|]. apply (elapsed_parts_bounds 3725999). lia.
Defined.

(** X10.  The dashboard's countdown and the board's expiry check
    agree at every instant: for an active meeting the dashboard shows
    time left exactly when the board's check sends nothing, and shows none
    exactly when the check sends the auto-end update; for an ended meeting
    neither happens.  When time left is shown it is positive, its hours
    are not negative, its minutes lie between 0 and 59, both add up to
    the time left rounded down to the minute, and the meeting is flagged
    as expiring soon exactly when more than 90 minutes have passed since
    it was created. *)
Theorem countdown_or_expiry (now : Z) (m : Meeting) (s : ClientState) :
  meeting s = Some m ->
  (meeting_status m = active ->
     (is_Some (getMeetingTimeInfo now m)
      <-> requests (checkMeetingExpiration now s).2 = [])
     /\ (getMeetingTimeInfo now m = None
         <-> requests (checkMeetingExpiration now s).2
             = [UpdateMeeting (auto_end now) (meeting_id m)]))
  /\ (meeting_status m = ended ->
      getMeetingTimeInfo now m = None
      /\ requests (checkMeetingExpiration now s).2 = [])
  /\ (forall info, getMeetingTimeInfo now m = Some info ->
        let '(timeLeft, hoursLeft, minutesLeft) := time_left_parts now m in
        0 < timeLeft
        /\ 0 <= hoursLeft /\ 0 <= minutesLeft < 60
        /\ hoursLeft * hour_ms + minutesLeft * minute_ms <= timeLeft
           < hoursLeft * hour_ms + minutesLeft * minute_ms + minute_ms
        /\ (isExpiringSoon info = true
            <-> meeting_created_at m + 90 * minute_ms < now)).
Proof.
  intros Hm. unfold getMeetingTimeInfo, checkMeetingExpiration. rewrite Hm.
  split; [|split].
  - intros ->. cbn [is_active is_ended andb].
    destruct (Z.ltb_spec now (meeting_created_at m + two_hours)) as [Hlt|Hge].
    + destruct (Z.geb_spec now (meeting_created_at m + two_hours)); [lia|].
      cbn. split; split; try done; try (intros _; by eexists).
    + destruct (Z.geb_spec now (meeting_created_at m + two_hours)); [|lia].
      cbn. split; split; try done; try (intros [? ?]; done).
  - intros ->. done.
  - intros info. destruct (is_active (meeting_status m)); [|done]. cbn [andb].
    destruct (Z.ltb_spec now (meeting_created_at m + two_hours)) as [Hlt|Hge]; [|done].
    unfold time_left_parts. intros [= <-]. cbn [isExpiringSoon].
    unfold hour_ms, minute_ms, two_hours in *.
    rewrite Z.rem_mod_nonneg by lia.
    rewrite Z.ltb_lt.
    change (1000 * 60 * 60) with 3600000. change (1000 * 60) with 60000.
    change (2 * 60 * 60 * 1000) with 7200000 in *.
    Z.div_mod_to_equations. lia.
Qed.

Lemma countdown_or_expiry_witness :
  let s := mkClient (Some "B") (Some toggle_board) [] ∅ true [] in
  requests (checkMeetingExpiration 6000000 s).2 = []
  /\ is_Some (getMeetingTimeInfo 6000000 toggle_board).
Proof.
  intros s. split; [reflexivity|].
  apply (proj1 (proj1 (countdown_or_expiry 6000000 toggle_board s eq_refl) eq_refl)).
  reflexivity.
Defined.

End ClockProps.

(** ** The dashboard's expiry check, run against the store *)

Section DashboardExpiry.

(** The [for] loop run to completion: each of the selected meetings is
    ended in turn. *)
Lemma drain_expire_each (env : StoreEnv) (u : string) (now : Z)
    (sel : list Meeting) (c : ClientState) (st : Store) :
  let w := drain env (length sel) (mkWorld u c st (expire_each now sel)) in
  tasks w = [] /\ client w = c
  /\ notes_table (store w) = notes_table st
  /\ note_likes (store w) = note_likes st
  /\ meetings (store w)
     = map (fun r => if existsb (fun e => String.eqb (meeting_id e) (meeting_id r)) sel
                        && String.eqb u (meeting_created_by r)
                     then auto_ended now r else r)
           (meetings st).
Proof.
  revert st. induction sel as [|e sel IH]; intros st.
  - cbn. repeat split; try done. symmetry. apply map_id.
  - cbn [length drain expire_each]. unfold resolve at 1.
    cbn [tasks lookup list_lookup session store client delete list_delete app store_exec].
    destruct (IH (mkStore (update_meetings u (auto_end now) (by_id (meeting_id e))
                             (meetings st)) (notes_table st) (note_likes st)))
      as (H1 & H2 & H3 & H4 & H5).
    cbv zeta in *.
    split; [exact H1|]. split; [exact H2|]. split; [exact H3|]. split; [exact H4|].
    etrans; [exact H5|]. cbn [meetings].
    unfold update_meetings. rewrite map_map. apply map_ext. intros r.
    rewrite meeting_hit_by_id. cbn [existsb].
    case_bool_decide as Hb.
    + destruct Hb as [Hi Hc]. unfold apply_patch, auto_ended. cbn.
      rewrite Hi, Hc, !String.eqb_refl. cbn.
      by destruct (existsb _ sel).
    + destruct (String.eqb_spec (meeting_id e) (meeting_id r)) as [Heq|Hne]; [|done].
      destruct (String.eqb_spec u (meeting_created_by r)) as [Hc|Hc].
      * exfalso. apply Hb. by split.
      * cbn. by rewrite !andb_false_r.
Qed.

(** X11.  The dashboard's expiry check, run to completion
    against the store, ends exactly the signed-in user's own active
    meetings older than two hours (status ended, ended by nobody, the
    end time being the one the check read) and leaves every other
    meeting, every item and every like as it was; afterwards nothing is
    pending and the client state is unchanged.  (As in [expire_each],
    the clock is read once for the whole loop and the summary mails sent
    between two updates are left out.) *)
Theorem dashboard_check_ends_expired_meetings
    (w : World) (u : string) (now : Z) (env : StoreEnv) :
  tasks w = [] -> session w = u -> user (client w) = Some u ->
  NoDup (map meeting_id (meetings (store w))) ->
  let expired := List.filter (expired_for u now) (meetings (store w)) in
  let w' := drain env (S (length expired)) (call (checkExpiredMeetings now) w) in
  tasks w' = [] /\ client w' = client w
  /\ notes_table (store w') = notes_table (store w)
  /\ note_likes (store w') = note_likes (store w)
  /\ meetings (store w')
     = map (fun r => if expired_for u now r then auto_ended now r else r)
           (meetings (store w)).
Proof.
  destruct w as [sess c st ts]. cbn [tasks session client store].
  intros -> -> Hu Hnd.
  set (expired := List.filter (expired_for u now) (meetings st)).
  unfold call, checkExpiredMeetings. cbn [client]. rewrite Hu.
  cbn [fst snd tasks store session app drain]. unfold resolve at 1.
  cbn [tasks lookup list_lookup session store client delete list_delete app store_exec].
  fold (expired_for u now). fold expired.
  destruct (drain_expire_each env u now expired c st) as (H1 & H2 & H3 & H4 & H5).
  cbv zeta in *.
  split; [exact H1|]. split; [exact H2|]. split; [exact H3|]. split; [exact H4|].
  etrans; [exact H5|].
  apply map_ext_in. intros r Hr. apply list_elem_of_In in Hr.
  destruct (expired_for u now r) eqn:Hexp.
  - assert (existsb (fun e => String.eqb (meeting_id e) (meeting_id r)) expired = true) as ->.
    { apply existsb_exists. exists r. split; [|by apply String.eqb_eq].
      apply List.filter_In. split; [by apply list_elem_of_In|done]. }
    unfold expired_for in Hexp. apply andb_true_iff in Hexp as [Hexp _].
    apply andb_true_iff in Hexp as [Hc _]. apply String.eqb_eq in Hc.
    rewrite <- Hc, String.eqb_refl. done.
  - destruct (existsb _ expired) eqn:Hex; [|done]. cbn.
    apply existsb_exists in Hex as [e [He Hid]]. apply String.eqb_eq in Hid.
    apply List.filter_In in He as [He Hexp'].
    apply list_elem_of_In in He.
    assert (e = r) as ->; [|congruence].
    apply list_elem_of_lookup in He as [i Hi], Hr as [j Hj].
    assert (i = j) as ->; [|congruence].
    apply (NoDup_lookup _ i j (meeting_id r) Hnd);
      rewrite list_lookup_fmap; [rewrite Hi|rewrite Hj]; cbn; congruence.
Qed.

Lemma dashboard_check_ends_expired_meetings_witness :
  let old := mkMeeting "m1" "Retro" "ABC123" "host" active None None 0 in
  let recent := mkMeeting "m2" "Planning" "DEF456" "host" active None None 8000000 in
  let w := mkWorld "host" (mkClient (Some "host") None [] ∅ false [])
                   (mkStore [old; recent] [] []) [] in
  let env := mkStoreEnv "" 9000000 in
  map meeting_status
      (meetings (store (drain env 2 (call (checkExpiredMeetings 9000000) w))))
  = [ended; active].
Proof.
  intros old recent w env.
  assert (Hids : NoDup (map meeting_id (meetings (store w)))).
  { apply (bool_decide_unpack _). vm_compute. reflexivity. }
  destruct (dashboard_check_ends_expired_meetings w "host" 9000000 env
              eq_refl eq_refl eq_refl Hids) as (_ & _ & _ & _ & H).
  exact (f_equal (map meeting_status) H).
Defined.

End DashboardExpiry.

(** ** Writes the store refuses, end to end *)

Section EndToEnd.

Lemma map_unchanged {A} (f : A -> A) (l : list A) :
  (forall x, x ∈ l -> f x = x) -> map f l = l.
Proof.
  intros H. rewrite <- (map_id l) at 2. apply map_ext_in.
  intros x Hx. apply H. by apply list_elem_of_In.
Qed.

Lemma filter_keeps_all {A} (p : A -> bool) (l : list A) :
  (forall x, x ∈ l -> p x = true) -> List.filter p l = l.
Proof.
  induction l as [|a l IH]; intros H; [done|]. cbn.
  rewrite (H a); [|by left]. f_equal. apply IH. intros x Hx. apply H. by right.
Qed.

(** The store's answer to an edit it does not carry out: no row is
    touched, and [.single()] reports that it got no row. *)
Lemma content_update_refused (st : Store) (u noteId content : string) (env : StoreEnv) :
  not_editable_by st u noteId ->
  store_exec u env (UpdateNoteContent content noteId (Some u)) st
  = (st, RError msg_no_rows).
Proof.
  intros Hno. cbn [store_exec].
  assert (Hhit : forall r, r ∈ notes_table st ->
            note_hit st u (row_by_id_and_author noteId u) r = false).
  { intros r Hr. unfold note_hit, row_by_id_and_author.
    rewrite update_notes_policy.
    destruct (String.eqb_spec (row_id r) noteId) as [Hid|]; [|done].
    destruct (String.eqb_spec u (row_created_by r)) as [Hc|]; [|done].
    destruct (Hno r Hr Hid) as [Hne| ->]; [congruence|done]. }
  unfold update_notes, updated_notes. rewrite filter_none by done.
  rewrite map_unchanged.
  - by destruct st.
  - intros r Hr. by rewrite Hhit.
Qed.

(** The store's answer to a delete it does not carry out: no row is
    touched, and there is no error. *)
Lemma delete_refused (st : Store) (u noteId : string) (env : StoreEnv) :
  not_editable_by st u noteId ->
  store_exec u env (DeleteNote noteId (Some u)) st = (st, ROk).
Proof.
  intros Hno. cbn [store_exec].
  assert (Hgone : forall r, r ∈ notes_table st ->
            row_by_id_and_author noteId u r
            && Policy.delete_own_notes st u r = false).
  { intros r Hr. unfold row_by_id_and_author, Policy.delete_own_notes.
    destruct (String.eqb_spec (row_id r) noteId) as [Hid|]; [|done].
    destruct (String.eqb_spec u (row_created_by r)) as [Hc|]; [|done].
    destruct (Hno r Hr Hid) as [Hne| ->]; [congruence|done]. }
  unfold delete_notes. rewrite !filter_keeps_all.
  - by destruct st.
  - intros l _. apply negb_true_iff. apply not_true_iff_false. intros Hex.
    apply existsb_exists in Hex as [r [Hr Hp]]. apply list_elem_of_In in Hr.
    rewrite (Hgone r Hr) in Hp. done.
  - intros r Hr. by rewrite Hgone.
Qed.

(** X12.  An edit the store does not carry out (the item is not
    the user's, or its meeting is not active in the store) is undone on
    the client: when the update has been answered the store is unchanged,
    the local list is the one from before the edit, nothing is pending,
    and one alert has been raised.  The alert comes before the restored
    list is rendered: behind the dialog the screen still shows the list
    with the edit. *)
Theorem refused_edit_is_rolled_back
    (w : World) (m : Meeting) (u noteId content : string) (now : Z)
    (env : StoreEnv) (original : Note) :
  tasks w = [] -> session w = u -> user (client w) = Some u ->
  meeting (client w) = Some m -> meeting_status m = active ->
  NoDup (map note_id (notes (client w))) ->
  List.find (has_id noteId) (notes (client w)) = Some original ->
  not_editable_by (store w) u noteId ->
  let w' := resolve env 0 (call (updateNote now noteId content) w) in
  tasks w' = []
  /\ store w' = store w
  /\ notes (client w') = notes (client w)
  /\ exists shown,
       effects (client w')
       = effects (client w)
         ++ [Alert shown (map_note noteId (with_content content now)
                                   (notes (client w)))].
Proof.
  destruct w as [sess c st ts]. cbn [tasks session client store].
  intros -> -> Hu Hm Hact Hnd Hfind Hno.
  unfold call, updateNote. cbn [client]. rewrite Hm, Hact, Hfind, Hu.
  cbn [is_ended fst snd tasks store session app].
  unfold resolve. cbn [tasks lookup list_lookup session store client delete list_delete app].
  rewrite (content_update_refused _ _ _ _ _ Hno). unfold update_settled.
  match goal with
  | |- context [alert_failure ?r ?w ?o ?msg ?st] =>
      destruct (alert_failure_effects r w o msg st) as [Hn [shown He]]
  end.
  cbn [tasks store client]. rewrite Hn, He. cbn [notes setNotes effects].
  rewrite map_note_twice by done. rewrite (map_note_original _ _ _ Hnd Hfind).
  repeat split; try done. by exists shown.
Qed.

Lemma refused_edit_is_rolled_back_witness :
  let env := mkStoreEnv "" 2000 in
  let w' := resolve env 0 (call (updateNote 2000 "I" "edited") toggle_start) in
  store w' = store toggle_start
  /\ notes (client w') = notes (client toggle_start)
  /\ effects (client w')
     = [Alert ("Failed to update note: " +:+ msg_no_rows)
              [mkNote "I" "edited" glad "A" 10 2000 0 false]].
Proof.
  intros env w'.
  assert (Hids : NoDup (map note_id (notes (client toggle_start)))).
  { apply (bool_decide_unpack _). vm_compute. reflexivity. }
  assert (Hno : not_editable_by (store toggle_start) "B" "I").
  { intros r Hr _. apply list_elem_of_singleton in Hr as ->. by left. }
  destruct (refused_edit_is_rolled_back toggle_start toggle_board "B" "I" "edited"
              2000 env (note_of_row toggle_row 0 false)
              eq_refl eq_refl eq_refl eq_refl eq_refl Hids eq_refl Hno)
    as (_ & Hs & Hn & _).
  split; [exact Hs|]. split; [exact Hn|]. reflexivity.
Defined.

(** X13.  A delete the store does not carry out (the item
    is not the user's, or its meeting is not active in the store) goes
    unnoticed by the client: the store answers without an error, so when
    the delete has been answered the store is unchanged while the item
    is gone from the local list, no alert has been shown and nothing is
    pending. *)
Theorem refused_delete_is_not_rolled_back
    (w : World) (m : Meeting) (u noteId : string) (env : StoreEnv) :
  tasks w = [] -> session w = u -> user (client w) = Some u ->
  meeting (client w) = Some m -> meeting_status m = active ->
  not_editable_by (store w) u noteId ->
  let w' := resolve env 0 (call (deleteNote noteId) w) in
  tasks w' = []
  /\ store w' = store w
  /\ effects (client w') = effects (client w)
  /\ notes (client w')
     = List.filter (fun note => negb (has_id noteId note)) (notes (client w))
  /\ (noteId ∉ map note_id (notes (client w'))).
Proof.
  destruct w as [sess c st ts]. cbn [tasks session client store].
  intros -> -> Hu Hm Hact Hno.
  unfold call, deleteNote. cbn [client]. rewrite Hm, Hact, Hu.
  cbn [is_ended fst snd tasks store session app].
  unfold resolve. cbn [tasks lookup list_lookup session store client delete list_delete app].
  rewrite (delete_refused _ _ _ _ Hno). unfold delete_settled.
  cbn [tasks store client notes setNotes effects].
  repeat split; try done.
  intros Hin. apply list_elem_of_fmap in Hin as [n [Hn Hin]].
  apply list_elem_of_In, List.filter_In in Hin as [_ Hneg].
  apply negb_true_iff, has_id_false in Hneg. congruence.
Qed.

Lemma refused_delete_is_not_rolled_back_witness :
  let env := mkStoreEnv "" 2000 in
  let w' := resolve env 0 (call (deleteNote "I") toggle_start) in
  store w' = store toggle_start /\ notes (client w') = [].
Proof.
  intros env w'.
  assert (Hno : not_editable_by (store toggle_start) "B" "I").
  { intros r Hr _. apply list_elem_of_singleton in Hr as ->. by left. }
  destruct (refused_delete_is_not_rolled_back toggle_start toggle_board "B" "I" env
              eq_refl eq_refl eq_refl eq_refl eq_refl Hno)
    as (_ & Hs & _ & Hn & _).
  split; [exact Hs | exact Hn].
Defined.

End EndToEnd.

Section LikeRollback.

(** Reverting undoes the optimistic update. *)
Lemma revert_apply_like (b : bool) (n : Note) :
  user_liked n = b -> revert_like b (apply_like b n) = n.
Proof.
  intros <-. destruct n as [i c t cb ca ua lc ul]. unfold revert_like, apply_like, with_likes.
  cbn. destruct ul; f_equal; lia.
Qed.

Lemma map_note_revert (noteId : string) (l : list Note) (note : Note) :
  NoDup (map note_id l) -> List.find (has_id noteId) l = Some note ->
  map_note noteId (revert_like (user_liked note))
           (map_note noteId (apply_like (user_liked note)) l) = l.
Proof.
  intros Hnd Hf. unfold map_note. rewrite map_map. rewrite <- (map_id l) at 2.
  apply map_ext_in. intros n Hn. apply list_elem_of_In in Hn.
  destruct (has_id noteId n) eqn:Hid; [|by rewrite Hid].
  assert (has_id noteId (apply_like (user_liked note) n) = true) as ->.
  { apply has_id_true. cbn. by apply has_id_true. }
  rewrite (unique_by_id noteId l note n Hnd Hf Hn Hid). by apply revert_apply_like.
Qed.

(** X14.  When the first click on the heart of an item is
    refused (the promise is rejected, the delete fails, or the upsert
    fails with anything but a duplicate key), the local list is put back
    to what it was before the click and one alert is raised.  The alert
    comes before the list is rendered again: behind the dialog the screen
    still shows the item with the like of the click applied. *)
Theorem refused_like_is_rolled_back
    (s : ClientState) (m : Meeting) (u : string) (now : Z) (noteId : string)
    (note : Note) (resp : Response) :
  meeting s = Some m -> meeting_status m = active -> user s = Some u ->
  NoDup (map note_id (notes s)) ->
  List.find (has_id noteId) (notes s) = Some note ->
  noteId ∉ likingNotes s ->
  like_refused (user_liked note) resp ->
  let clicked := (toggleNoteLike now noteId s).1 in
  let s' := (resume (toggleNoteLike now noteId s).2 resp clicked).1 in
  notes s' = notes s
  /\ notes clicked = map_note noteId (apply_like (user_liked note)) (notes s)
  /\ exists shown, effects s' = effects clicked ++ [Alert shown (notes clicked)].
Proof.
  intros Hm Hact Hu Hnd Hfind Hfree Href.
  unfold toggleNoteLike. rewrite Hm, Hu, Hact, Hfind.
  rewrite (bool_decide_eq_false_2 _ Hfree). cbn [is_ended fst snd resume].
  set (clicked := if channelRef _ then _ else _).
  assert (Hc : notes clicked
               = map_note noteId (apply_like (user_liked note)) (notes s)).
  { subst clicked. by destruct (channelRef _). }
  clearbody clicked. cbv zeta. unfold like_settled.
  assert (Hrev : notes (setNotes (map_note noteId
                          (fun n => revert_like (user_liked note) n)) clicked)
                 = notes s).
  { cbn [notes setNotes]. rewrite Hc. by apply map_note_revert. }
  destruct Href as [->|[message [-> Hcase]]].
  - cbn [fst notes alert effects setNotes].
    cbn [notes setNotes] in Hrev. rewrite Hrev.
    split; [done|]. split; [done|by eexists].
  - assert (Hfail : forall what other,
              let s1 := alert_failure (notes clicked) what other message
                          (setNotes (map_note noteId
                             (fun n => revert_like (user_liked note) n)) clicked) in
              notes s1 = notes s
              /\ notes clicked
                 = map_note noteId (apply_like (user_liked note)) (notes s)
              /\ exists shown,
                   effects s1 = effects clicked ++ [Alert shown (notes clicked)]).
    { intros what other s1. subst s1.
      match goal with
      | |- context [alert_failure ?r ?w ?o ?msg ?st] =>
          destruct (alert_failure_effects r w o msg st) as [Hn [shown He]]
      end.
      rewrite Hn, He, Hrev. split; [done|]. split; [done|by exists shown]. }
    destruct (user_liked note) eqn:Hl; cbn [negb fst].
    + apply Hfail.
    + destruct Hcase as [?|Hdup]; [done|]. rewrite Hdup. apply Hfail.
Qed.

Lemma refused_like_is_rolled_back_witness :
  let s := client toggle_start in
  let resp := RError (msg_rls "note_likes") in
  let clicked := (toggleNoteLike 1000 "I" s).1 in
  let s' := (resume (toggleNoteLike 1000 "I" s).2 resp clicked).1 in
  notes s' = notes s
  /\ effects s'
     = [Send (LikeChange "I" "B" true 1000);
        Alert "Failed to like note. Please try again."
              [mkNote "I" "Great sprint!" glad "A" 10 10 1 true]].
Proof.
  intros s resp clicked s'.
  assert (Hids : NoDup (map note_id (notes s))).
  { apply (bool_decide_unpack _). vm_compute. reflexivity. }
  assert (Hno : "I" ∉ likingNotes s) by apply not_elem_of_empty.
  assert (Hre : like_refused (user_liked (note_of_row toggle_row 0 false)) resp).
  { right. eexists. split; [reflexivity|]. by right. }
  split; [|reflexivity].
  exact (proj1 (refused_like_is_rolled_back s toggle_board "B" 1000 "I"
                  (note_of_row toggle_row 0 false) resp
                  eq_refl eq_refl eq_refl Hids eq_refl Hno Hre)).
Defined.

End LikeRollback.

(** ** Liking an item whose like is already stored *)

Section StoredLike.

(** The upsert of a like is never answered with a duplicate-key error,
    nor with a message that mentions [active]: a refusal is one of the
    two row-level-security messages. *)
Lemma upsert_never_answers_duplicate_key
    (uid : string) (env : StoreEnv) (nid u : string) (st : Store) (message : string) :
  (store_exec uid env (UpsertLike nid u) st).2 = RError message ->
  includes "duplicate key" message = false /\ includes "active" message = false.
Proof.
  cbn [store_exec].
  destruct (negb _); [intros [= <-]; by vm_compute|].
  destruct (has_like _ _); [intros [= <-]; by vm_compute|done].
Qed.

(** The upsert of a pair that is stored changes nothing and is answered
    with an error. *)
Lemma store_upsert_stored (u : string) (env : StoreEnv) (noteId : string) (st : Store) :
  has_like st (noteId, u) = true ->
  exists message,
    store_exec u env (UpsertLike noteId u) st = (st, RError message)
    /\ includes "duplicate key" message = false
    /\ includes "active" message = false.
Proof.
  intros Hl. cbn [store_exec]. rewrite Hl.
  destruct (negb _); eexists; (split; [reflexivity|by vm_compute]).
Qed.

(** C7, what the code does.  User [u] clicks the heart of an item that
    the local list shows as not liked while the store holds the like of
    [u] for it (given from another tab, say).  The click sends the
    upsert of [(note_id, user_id)]; the store refuses it with a
    row-level-security error and stays as it is; the handler puts the
    local list back to what it was before the click, the item shown as
    not liked, and raises the alert "Failed to like note. Please try
    again.".  Only the refresh that follows shows the item as liked, with
    the count of the store. *)
Theorem stored_like_is_refused_with_alert
    (w : World) (m : Meeting) (u : string) (now : Z) (env : StoreEnv)
    (noteId : string) (note : Note) :
  tasks w = [] -> session w = u -> user (client w) = Some u ->
  meeting (client w) = Some m -> meeting_status m = active ->
  NoDup (map note_id (notes (client w))) ->
  List.find (has_id noteId) (notes (client w)) = Some note ->
  user_liked note = false ->
  noteId ∉ likingNotes (client w) ->
  has_like (store w) (noteId, u) = true ->
  let w1 := call (toggleNoteLike now noteId) w in
  let w2 := resolve env 0 w1 in
  let w5 := toggle_cycle noteId (env, now) w in
  requests (tasks w1) = [UpsertLike noteId u]
  /\ notes (client w1) = map_note noteId (apply_like false) (notes (client w))
  /\ store w2 = store w
  /\ notes (client w2) = notes (client w)
  /\ effects (client w2)
     = effects (client w1)
       ++ [Alert "Failed to like note. Please try again." (notes (client w1))]
  /\ tasks w5 = [] /\ store w5 = store w
  /\ effects (client w5) = effects (client w2)
  /\ exists shown,
       List.find (has_id noteId) (notes (client w5)) = Some shown
       /\ user_liked shown = true
       /\ like_count shown = count_likes (store w) noteId.
Proof.
  destruct w as [sess [usr mt nts lk ch eff] st ts].
  cbn [tasks session client store user meeting notes likingNotes].
  intros -> -> -> -> Hact Hnd Hfind Hl Hfree Hst.
  pose proof (find_has_id_Some _ _ _ Hfind) as [_ Hid].
  destruct (store_upsert_stored u env noteId st Hst) as (message & Hex & Hdup & Hactive).
  unfold toggle_cycle, call, toggleNoteLike.
  cbn [client user meeting notes likingNotes fst snd].
  rewrite Hact, Hfind. cbn [is_ended].
  rewrite (bool_decide_eq_false_2 _ Hfree). rewrite Hl.
  cbn [session store tasks app setNotes setLikingNotes channelRef user meeting notes
       likingNotes effects negb].
  set (c1 := if ch then _ else _).
  assert (Hc1 : user c1 = Some u /\ meeting c1 = Some m
                /\ notes c1 = map_note noteId (apply_like false) nts
                /\ likingNotes c1 = lk ∪ {[noteId]}).
  { subst c1. by destruct ch. }
  clearbody c1. destruct c1 as [usr1 mt1 nts1 lk1 ch1 eff1]. cbn in Hc1.
  destruct Hc1 as (-> & -> & -> & ->).
  assert (Hrev : map_note noteId (fun n => revert_like false n)
                   (map_note noteId (apply_like false) nts) = nts).
  { rewrite <- Hl. by apply map_note_revert. }
  assert (E : resolve env 0
                 (mkWorld u
                    (mkClient (Some u) (Some m) (map_note noteId (apply_like false) nts)
                              (lk ∪ {[noteId]}) ch1 eff1)
                    st [Await (UpsertLike noteId u) (like_settled noteId note false)])
               = mkWorld u
                   (mkClient (Some u) (Some m) nts (lk ∪ {[noteId]}) ch1
                      (eff1 ++ [Alert "Failed to like note. Please try again."
                                      (map_note noteId (apply_like false) nts)]))
                   st [refresh_timer noteId note; unmark_timer noteId]).
  { unfold resolve.
    cbn [tasks lookup list_lookup session store client delete list_delete app].
    rewrite Hex. cbn [like_settled negb]. rewrite Hdup.
    unfold alert_failure. rewrite Hactive.
    unfold alert, setNotes. cbn [user meeting notes likingNotes channelRef effects].
    by rewrite Hrev. }
  rewrite !E. cbn [client store notes effects tasks].
  split; [done|]. split; [done|]. split; [done|]. split; [done|]. split; [done|].
  set (c2 := mkClient (Some u) (Some m) nts (lk ∪ {[noteId]}) ch1 _).
  assert (E2 : resolve env 0 (resolve env 1 (resolve env 0
                 (mkWorld u c2 st [refresh_timer noteId note; unmark_timer noteId])))
               = mkWorld u
                   (mkClient (Some u) (Some m)
                      (map_note noteId
                         (fun _ => refreshed_note note
                                     (RLikes (Some (count_likes st noteId)) true)) nts)
                      ((lk ∪ {[noteId]}) ∖ {[noteId]}) ch1 (effects c2))
                   st []).
  { subst c2. unfold resolve at 3.
    cbn [tasks lookup list_lookup session store client delete list_delete app
         refresh_timer fetchNoteWithLikes user].
    unfold resolve at 2.
    cbn [tasks lookup list_lookup session store client delete list_delete app
         unmark_timer store_exec].
    unfold resolve.
    cbn [tasks lookup list_lookup session store client delete list_delete app
         setLikingNotes setNotes user meeting notes likingNotes channelRef effects].
    by rewrite Hid, Hst. }
  rewrite !E2. cbn [tasks store client notes effects].
  split; [done|]. split; [done|]. split; [done|].
  exists (refreshed_note note (RLikes (Some (count_likes st noteId)) true)).
  split; [by eapply find_map_note_refresh|done].
Qed.

Lemma stored_like_is_refused_with_alert_witness :
  let env := mkStoreEnv "" 2000 in
  let w := mkWorld "B"
             (mkClient (Some "B") (Some toggle_board) [note_of_row toggle_row 1 false]
                       ∅ true [])
             (mkStore [toggle_board] [toggle_row] [("I", "B")]) [] in
  let w2 := resolve env 0 (call (toggleNoteLike 2000 "I") w) in
  store w2 = store w
  /\ map user_liked (notes (client w2)) = [false]
  /\ effects (client w2)
     = [Send (LikeChange "I" "B" true 2000);
        Alert "Failed to like note. Please try again."
              [mkNote "I" "Great sprint!" glad "A" 10 10 2 true]].
Proof.
  intros env w w2.
  assert (Hids : NoDup (map note_id (notes (client w)))).
  { apply (bool_decide_unpack _). vm_compute. reflexivity. }
  assert (Hno : "I" ∉ likingNotes (client w)) by apply not_elem_of_empty.
  destruct (stored_like_is_refused_with_alert w toggle_board "B" 2000 env "I"
              (note_of_row toggle_row 1 false)
              eq_refl eq_refl eq_refl eq_refl eq_refl Hids eq_refl eq_refl Hno eq_refl)
    as (_ & _ & Hs & _ & He & _).
  split; [exact Hs|]. split; [reflexivity|exact He].
Defined.

End StoredLike.

(** ** Like counts once a toggle has settled *)

Section SettledCount.

(** One toggle carried through: the refresh leaves the store's count
    and flag on the item. *)
Lemma toggle_cycle_count (u noteId : string) (liked : bool)
    (c : StoreEnv * Z) (w : World) :
  at_rest u noteId liked w ->
  exists note,
    List.find (has_id noteId) (notes (client (toggle_cycle noteId c w))) = Some note
    /\ like_count note = count_likes (store (toggle_cycle noteId c w)) noteId
    /\ user_liked note = has_like (store (toggle_cycle noteId c w)) (noteId, u).
Proof.
  destruct w as [sess [usr mt nts lk ch eff] st ts]. unfold at_rest. cbn.
  intros (Hts & Hs & Hu & (m & Hm & Hact) & Hfree & (note & Hfind & Hl) & Hst & Hopen).
  subst ts sess usr mt.
  pose proof (find_has_id_Some _ _ _ Hfind) as [_ Hid].
  unfold toggle_cycle, call, toggleNoteLike.
  cbn [client user meeting notes likingNotes fst snd].
  rewrite Hact, Hfind. cbn [is_ended].
  rewrite (bool_decide_eq_false_2 _ Hfree). rewrite Hl.
  cbn [session store tasks app setNotes setLikingNotes channelRef user meeting
       notes likingNotes effects].
  set (c1 := if ch then _ else _).
  assert (Hc1 : user c1 = Some u
                /\ notes c1 = map_note noteId (apply_like liked) nts).
  { subst c1. by destruct ch. }
  clearbody c1. destruct c1 as [usr1 mt1 nts1 lk1 ch1 eff1]. cbn in Hc1.
  destruct Hc1 as (-> & ->).
  assert (Hfind1 : List.find (has_id noteId) (map_note noteId (apply_like liked) nts)
                   = Some (apply_like liked note)).
  { by apply find_map_note_keep. }
  assert (Hstep : forall (st' : Store) (c2 : ClientState),
     user c2 = Some u ->
     List.find (has_id noteId) (notes c2) = Some (apply_like liked note) ->
     let w' := resolve c.1 0 (resolve c.1 1 (resolve c.1 0
          (mkWorld u c2 st' [refresh_timer noteId note; unmark_timer noteId]))) in
     exists n, List.find (has_id noteId) (notes (client w')) = Some n
               /\ like_count n = count_likes (store w') noteId
               /\ user_liked n = has_like (store w') (noteId, u)).
  { intros st' [usr2 mt2 nts2 lk2 ch2 eff2]. cbn [user notes].
    intros -> Hf1.
    unfold resolve at 3.
    cbn [tasks lookup list_lookup session store client delete list_delete app
         refresh_timer fetchNoteWithLikes user].
    unfold resolve at 2.
    cbn [tasks lookup list_lookup session store client delete list_delete app
         unmark_timer store_exec].
    unfold resolve.
    cbn [tasks lookup list_lookup session store client delete list_delete app
         setLikingNotes setNotes user meeting notes likingNotes].
    rewrite Hid.
    exists (refreshed_note note
              (RLikes (Some (count_likes st' noteId)) (has_like st' (noteId, u)))).
    split; [|done]. by eapply find_map_note_refresh. }
  destruct liked; cbn [negb].
  - match goal with
    | |- context [resolve c.1 0 (mkWorld u ?cl st [Await ?rq ?k])] =>
        assert (E : resolve c.1 0 (mkWorld u cl st [Await rq k])
                    = mkWorld u cl (store_exec u c.1 rq st).1
                        [refresh_timer noteId note; unmark_timer noteId])
          by reflexivity;
        rewrite !E
    end.
    by apply Hstep.
  - match goal with
    | |- context [resolve c.1 0 (mkWorld u ?cl st [Await ?rq ?k])] =>
        assert (E : resolve c.1 0 (mkWorld u cl st [Await rq k])
                    = mkWorld u cl (store_exec u c.1 rq st).1
                        [refresh_timer noteId note; unmark_timer noteId])
          by (unfold resolve;
              cbn [tasks lookup list_lookup session store client delete
                   list_delete app];
              by rewrite (store_upsert_fresh _ _ _ _ Hst Hopen));
        rewrite !E
    end.
    by apply Hstep.
Qed.

(** X15.  After one or more toggles of a like, each carried
    through before the next starts, the count and the flag the client
    shows for the item are those of the store: the count is the number
    of likes stored for the item (so never negative) and the flag tells
    whether the user's like is stored. *)
Theorem settled_count_matches_store
    (u noteId : string) (liked : bool) (cs : list (StoreEnv * Z))
    (c : StoreEnv * Z) (w : World) :
  at_rest u noteId liked w ->
  let w' := toggle_cycles noteId (cs ++ [c]) w in
  exists note,
    List.find (has_id noteId) (notes (client w')) = Some note
    /\ like_count note = count_likes (store w') noteId
    /\ user_liked note = has_like (store w') (noteId, u)
    /\ 0 <= like_count note.
Proof.
  intros Hw w'. subst w'. unfold toggle_cycles. rewrite foldl_app. cbn [foldl].
  fold (toggle_cycles noteId cs w).
  destruct (toggle_cycle_count u noteId _ c _ (toggle_cycles_parity u noteId liked cs w Hw))
    as [note (Hf & Hc & Hl)].
  exists note. repeat split; try done. rewrite Hc. unfold count_likes. lia.
Qed.

Lemma settled_count_matches_store_witness :
  let env := mkStoreEnv "" 0 in
  let w' := toggle_cycles "I" [(env, 1000); (env, 2000); (env, 3000)] toggle_start in
  exists note,
    List.find (has_id "I") (notes (client w')) = Some note
    /\ like_count note = count_likes (store w') "I"
    /\ user_liked note = has_like (store w') ("I", "B")
    /\ 0 <= like_count note.
Proof.
  intros env w'.
  apply (settled_count_matches_store "B" "I" false
           [(env, 1000); (env, 2000)] (env, 3000) toggle_start).
  unfold at_rest, toggle_start. cbn.
  repeat split; try reflexivity.
  - by exists toggle_board.
  - apply not_elem_of_empty.
  - by eexists.
Defined.

End SettledCount.

(** ** Invariants of the store *)

Section StoreProps.

Lemma pair_eqb_eq (a b : string * string) : pair_eqb a b = true <-> a = b.
Proof.
  unfold pair_eqb. rewrite andb_true_iff, !String.eqb_eq.
  destruct a, b; cbn. split; [intros [-> ->]; done|intros [= -> ->]; done].
Qed.

Lemma has_like_elem (st : Store) (l : string * string) :
  has_like st l = true <-> l ∈ note_likes st.
Proof.
  unfold has_like. split.
  - intros H. apply existsb_exists in H as [x [Hx Hp]].
    apply pair_eqb_eq in Hp as ->. by apply list_elem_of_In.
  - intros H. apply existsb_exists. exists l.
    split; [by apply list_elem_of_In|by apply pair_eqb_eq].
Qed.

Lemma existsb_row_by_id (i : string) (rows : list NoteRow) :
  existsb (row_by_id i) rows = true <-> i ∈ map row_id rows.
Proof.
  induction rows as [|r rows IH]; cbn.
  - split; [done|]. intros H. by apply elem_of_nil in H.
  - rewrite orb_true_iff, IH, elem_of_cons. unfold row_by_id.
    rewrite String.eqb_eq. split; (intros [H|H]; [left; congruence|by right]).
Qed.

Lemma existsb_by_id (i : string) (ms : list Meeting) :
  existsb (by_id i) ms = true <-> i ∈ map meeting_id ms.
Proof.
  induction ms as [|m ms IH]; cbn.
  - split; [done|]. intros H. by apply elem_of_nil in H.
  - rewrite orb_true_iff, IH, elem_of_cons. unfold by_id.
    rewrite String.eqb_eq. split; (intros [H|H]; [left; congruence|by right]).
Qed.

Lemma update_notes_ids (st : Store) uid (upd : NoteRow -> NoteRow) flt :
  (forall r, row_id (upd r) = row_id r) ->
  map row_id (update_notes st uid upd flt) = map row_id (notes_table st).
Proof.
  intros Hupd. unfold update_notes. rewrite map_map. apply map_ext.
  intros r. by destruct (note_hit st uid flt r).
Qed.

Lemma update_meetings_ids uid p flt (ms : list Meeting) :
  map meeting_id (update_meetings uid p flt ms) = map meeting_id ms.
Proof.
  unfold update_meetings. rewrite map_map. apply map_ext.
  intros m. by destruct (meeting_hit uid flt m).
Qed.

Lemma NoDup_filter_list {A} (p : A -> bool) (l : list A) :
  NoDup l -> NoDup (List.filter p l).
Proof.
  induction 1 as [|a l Ha Hnd IH]; cbn; [constructor|].
  destruct (p a); [|done]. constructor; [|done].
  intros Hin. apply Ha. apply list_elem_of_In, List.filter_In in Hin as [Hin _].
  by apply list_elem_of_In.
Qed.

Lemma NoDup_map_filter {A} (key : A -> string) (p : A -> bool) (l : list A) :
  NoDup (map key l) -> NoDup (map key (List.filter p l)).
Proof.
  induction l as [|a l IH]; cbn; [done|]. intros Hnd.
  apply NoDup_cons in Hnd as [Ha Hnd]. destruct (p a); cbn; [|by apply IH].
  apply NoDup_cons. split; [|by apply IH].
  intros Hin. apply Ha. apply list_elem_of_fmap in Hin as [x [-> Hx]].
  apply list_elem_of_In, List.filter_In in Hx as [Hx _].
  apply list_elem_of_fmap_2. by apply list_elem_of_In.
Qed.

(** Under a key constraint two stored rows with the same key are one. *)
Lemma same_key {A} (key : A -> string) (l : list A) (x y : A) :
  NoDup (map key l) -> x ∈ l -> y ∈ l -> key x = key y -> x = y.
Proof.
  intros Hnd Hx Hy Hk.
  apply list_elem_of_lookup in Hx as [i Hi], Hy as [j Hj].
  assert (i = j) as ->; [|congruence].
  apply (NoDup_lookup _ i j (key x) Hnd);
    rewrite list_lookup_fmap; [rewrite Hi|rewrite Hj]; cbn; congruence.
Qed.

Lemma note_in_active_meeting_exists (st : Store) (nid : string) :
  note_in_active_meeting st nid = true -> nid ∈ map row_id (notes_table st).
Proof.
  unfold note_in_active_meeting. intros H.
  apply existsb_exists in H as [r [Hr Hp]]. apply andb_true_iff in Hp as [Hi _].
  apply String.eqb_eq in Hi as <-. apply list_elem_of_fmap_2. by apply list_elem_of_In.
Qed.

(** Deleting rows of [notes], with the cascade to their likes, keeps the
    constraints. *)
Lemma delete_notes_keeps_constraints (gone : NoteRow -> bool) (st : Store) :
  constraints_hold st -> constraints_hold (delete_notes gone st).
Proof.
  intros (Hm & Hn & Hl & Href). unfold constraints_hold, delete_notes.
  cbn [meetings notes_table note_likes].
  split; [done|]. split; [by apply NoDup_map_filter|].
  split; [by apply NoDup_filter_list|].
  intros l Hin. apply list_elem_of_In, List.filter_In in Hin as [Hin Hkeep].
  apply list_elem_of_In in Hin. pose proof (Href l Hin) as Hrow.
  apply list_elem_of_fmap in Hrow as [r [Hid Hr]].
  apply list_elem_of_fmap. exists r. split; [done|].
  apply list_elem_of_In, List.filter_In. split; [by apply list_elem_of_In|].
  apply negb_true_iff in Hkeep. apply negb_true_iff.
  destruct (gone r) eqn:Hgone; [|done].
  exfalso. apply not_true_iff_false in Hkeep. apply Hkeep.
  apply existsb_exists. exists r. split; [by apply list_elem_of_In|].
  rewrite Hgone. cbn. apply String.eqb_eq. done.
Qed.

(** One request keeps the constraints. *)
Lemma store_exec_keeps_constraints
    (uid : string) (env : StoreEnv) (rq : Request) (st : Store) :
  constraints_hold st -> constraints_hold (store_exec uid env rq st).1.
Proof.
  intros Hc. pose proof Hc as (Hm & Hn & Hl & Href).
  destruct rq as [mid c t cb|c eq_id [eq_cb|]|t eq_id|eq_id [eq_cb|]
                |nid u|nid u|nid u|p eq_id|p eq_id eq_cb|cb t
                |title code cb|eq_mid|eq_id eq_cb|nid u];
    cbn [store_exec fst]; try done.
  - (* InsertNote *)
    destruct (negb _); [done|].
    destruct (existsb (row_by_id (env_uuid env)) (notes_table st)) eqn:Hex; [done|].
    unfold constraints_hold. cbn. split; [done|]. split; [|split; [done|]].
    + rewrite map_app. cbn. apply NoDup_app. split; [done|].
      split; [|apply NoDup_singleton].
      intros x Hx Hx'. apply list_elem_of_singleton in Hx' as ->.
      apply existsb_row_by_id in Hx. congruence.
    + intros l Hin. rewrite map_app, elem_of_app. left. by apply Href.
  - (* UpdateNoteContent *)
    unfold constraints_hold. cbn. rewrite update_notes_ids by done. done.
  - (* UpdateNoteType *)
    unfold constraints_hold. cbn. rewrite update_notes_ids by done. done.
  - (* DeleteNote *) by apply delete_notes_keeps_constraints.
  - (* UpsertLike *)
    destruct (negb (Policy.like_notes st uid (nid, u))) eqn:Hpol; [done|].
    destruct (has_like st (nid, u)) eqn:Hhas; [done|].
    apply negb_false_iff in Hpol.
    unfold constraints_hold. cbn. split; [done|]. split; [done|]. split.
    + apply NoDup_app. split; [done|]. split; [|apply NoDup_singleton].
      intros x Hx Hx'. apply list_elem_of_singleton in Hx' as ->.
      apply has_like_elem in Hx. congruence.
    + intros l Hin. apply elem_of_app in Hin as [Hin|Hin]; [by apply Href|].
      apply list_elem_of_singleton in Hin as ->. cbn.
      unfold Policy.like_notes in Hpol. apply andb_true_iff in Hpol as [_ Hact].
      by apply note_in_active_meeting_exists.
  - (* DeleteLike *)
    unfold constraints_hold. cbn.
    split; [done|]. split; [done|]. split; [by apply NoDup_filter_list|].
    intros l Hin. apply list_elem_of_In, List.filter_In in Hin as [Hin _].
    apply Href. by apply list_elem_of_In.
  - (* UpdateMeeting *)
    unfold constraints_hold. cbn. by rewrite update_meetings_ids.
  - (* UpdateOwnMeeting *)
    unfold constraints_hold. cbn. by rewrite update_meetings_ids.
  - (* InsertMeeting *)
    destruct (negb _); [done|].
    destruct (existsb (by_id (env_uuid env)) (meetings st)) eqn:Hex; [done|].
    cbn [orb].
    destruct (existsb (fun m' => String.eqb (meeting_code m') code) (meetings st));
      [done|].
    unfold constraints_hold. cbn. split; [|exact (conj Hn (conj Hl Href))].
    rewrite map_app. cbn. apply NoDup_app. split; [done|].
    split; [|apply NoDup_singleton].
    intros x Hx Hx'. apply list_elem_of_singleton in Hx' as ->.
    apply existsb_by_id in Hx. congruence.
  - (* DeleteNotesByMeeting *) by apply delete_notes_keeps_constraints.
  - (* DeleteMeeting *)
    unfold delete_meetings. apply delete_notes_keeps_constraints.
    unfold constraints_hold. cbn.
    split; [by apply NoDup_map_filter|exact (conj Hn (conj Hl Href))].
  - (* InsertLike *)
    destruct (negb (Policy.like_notes st uid (nid, u))) eqn:Hpol; [done|].
    destruct (has_like st (nid, u)) eqn:Hhas; [done|].
    apply negb_false_iff in Hpol.
    unfold constraints_hold. cbn. split; [done|]. split; [done|]. split.
    + apply NoDup_app. split; [done|]. split; [|apply NoDup_singleton].
      intros x Hx Hx'. apply list_elem_of_singleton in Hx' as ->.
      apply has_like_elem in Hx. congruence.
    + intros l Hin. apply elem_of_app in Hin as [Hin|Hin]; [by apply Href|].
      apply list_elem_of_singleton in Hin as ->. cbn.
      unfold Policy.like_notes in Hpol. apply andb_true_iff in Hpol as [_ Hact].
      by apply note_in_active_meeting_exists.
Qed.

End StoreProps.

Section Frozen.

Lemma in_map_cases {A} (f : A -> A) (hit : A -> bool) (l : list A) (x : A) :
  x ∈ map (fun r => if hit r then f r else r) l <->
  exists r, r ∈ l /\ x = if hit r then f r else r.
Proof.
  rewrite list_elem_of_fmap. split; intros [r [? ?]]; exists r; done.
Qed.

Lemma no_active_meeting_for_note (st : Store) (r : NoteRow) :
  NoDup (map row_id (notes_table st)) -> r ∈ notes_table st ->
  meeting_active st (row_meeting_id r) = false ->
  note_in_active_meeting st (row_id r) = false.
Proof.
  intros Hnd Hr Hact. unfold note_in_active_meeting.
  apply not_true_iff_false. intros Hex.
  apply existsb_exists in Hex as [r0 [Hr0 Hp]]. apply andb_true_iff in Hp as [Hid Ha].
  apply String.eqb_eq in Hid. apply list_elem_of_In in Hr0.
  assert (r0 = r) as ->; [|congruence].
  by apply (same_key row_id (notes_table st)).
Qed.

(** A DELETE on [notes] that takes no row of meeting [mid] leaves the
    rows of [mid], and the likes on them, as they are. *)
Lemma delete_notes_spares (gone : NoteRow -> bool) (st : Store) (mid : string) :
  (forall r, r ∈ notes_table st -> row_meeting_id r = mid -> gone r = false) ->
  let st' := delete_notes gone st in
  (forall r, row_meeting_id r = mid -> (r ∈ notes_table st' <-> r ∈ notes_table st))
  /\ (NoDup (map row_id (notes_table st)) ->
      forall r l, r ∈ notes_table st -> row_meeting_id r = mid -> l.1 = row_id r ->
                  (l ∈ note_likes st' <-> l ∈ note_likes st)).
Proof.
  intros Hkeep st'. subst st'. unfold delete_notes. cbn [notes_table note_likes]. split.
  - intros r Hr. rewrite !list_elem_of_In, List.filter_In. split; [by intros [? _]|].
    intros Hin. split; [done|]. apply negb_true_iff, Hkeep; [|done].
    by apply list_elem_of_In.
  - intros Hnd r l Hin Hr Hl. rewrite !list_elem_of_In, List.filter_In.
    split; [by intros [? _]|]. intros Hlin. split; [done|].
    apply negb_true_iff, not_true_iff_false. intros Hex.
    apply existsb_exists in Hex as [r0 [Hr0 Hp]].
    apply andb_true_iff in Hp as [Hgone Hid]. apply String.eqb_eq in Hid.
    apply list_elem_of_In in Hr0.
    assert (r0 = r) as ->; [|by rewrite (Hkeep r Hin Hr) in Hgone].
    apply (same_key row_id (notes_table st)); [done..|congruence].
Qed.

(** Of a stored meeting only the creator's own delete request takes the
    row. *)
Lemma delete_meeting_needs_creator (st : Store) (mid cb uid eq_id eq_cb : string)
    (env : StoreEnv) (m0 : Meeting) :
  NoDup (map meeting_id (meetings st)) ->
  (exists m, m ∈ meetings st /\ meeting_id m = mid /\ meeting_created_by m = cb) ->
  creator_deletes mid cb (uid, env, DeleteMeeting eq_id eq_cb) = false ->
  m0 ∈ meetings st -> meeting_id m0 = mid ->
  by_id_and_owner eq_id eq_cb m0 && Policy.delete_own_meetings uid m0 = false.
Proof.
  intros Hnd (m & Hm & Hid & Hcb) Hno Hm0 Hid0.
  assert (m0 = m) as ->.
  { apply (same_key meeting_id (meetings st)); [done..|congruence]. }
  unfold creator_deletes in Hno. cbn in Hno.
  unfold by_id_and_owner, Policy.delete_own_meetings. rewrite Hid, Hcb.
  destruct (String.eqb_spec mid eq_id) as [<-|]; [|done].
  destruct (String.eqb_spec cb eq_cb) as [<-|]; [|done].
  rewrite !String.eqb_refl in Hno. cbn in *. done.
Qed.

(** One request other than the creator's delete of meeting [mid] leaves
    the rows of [mid], and the likes on them, as they are. *)
Lemma store_exec_freezes_inactive_meeting
    (uid : string) (env : StoreEnv) (rq : Request) (st : Store) (mid cb : string) :
  constraints_hold st -> stored_ended st mid cb ->
  creator_deletes mid cb (uid, env, rq) = false ->
  let st' := (store_exec uid env rq st).1 in
  (forall r, row_meeting_id r = mid -> (r ∈ notes_table st' <-> r ∈ notes_table st))
  /\ (forall r l, r ∈ notes_table st -> row_meeting_id r = mid -> l.1 = row_id r ->
                  (l ∈ note_likes st' <-> l ∈ note_likes st)).
Proof.
  intros (Hm & Hnd & _ & _) [Hmid Hstored] Hno.
  assert (Hupd : forall (upd : NoteRow -> NoteRow) flt,
            (forall r, row_meeting_id (upd r) = row_meeting_id r) ->
            forall r, row_meeting_id r = mid ->
              (r ∈ update_notes st uid upd flt <-> r ∈ notes_table st)).
  { intros upd flt Hmeet r Hr. unfold update_notes. rewrite in_map_cases.
    assert (Hnohit : forall r0, row_meeting_id r0 = mid -> note_hit st uid flt r0 = false).
    { intros r0 H0. unfold note_hit. rewrite update_notes_policy, H0, Hmid.
      by rewrite andb_false_r. }
    split.
    - intros [r0 [Hr0 ->]]. destruct (note_hit st uid flt r0) eqn:Hhit; [|done].
      rewrite Hmeet in Hr. by rewrite (Hnohit r0 Hr) in Hhit.
    - intros Hin. exists r. split; [done|]. by rewrite (Hnohit r Hr). }
  assert (Hown : forall flt r, row_meeting_id r = mid ->
            flt r && Policy.delete_own_notes st uid r = false).
  { intros flt r Hr. unfold Policy.delete_own_notes. rewrite Hr, Hmid.
    by rewrite !andb_false_r. }
  assert (Hdel : forall gone,
            (forall r, r ∈ notes_table st -> row_meeting_id r = mid -> gone r = false) ->
            (forall r, row_meeting_id r = mid ->
               (r ∈ notes_table (delete_notes gone st) <-> r ∈ notes_table st))
            /\ (forall r l, r ∈ notes_table st -> row_meeting_id r = mid ->
                  l.1 = row_id r ->
                  (l ∈ note_likes (delete_notes gone st) <-> l ∈ note_likes st))).
  { intros gone Hgone. destruct (delete_notes_spares gone st mid Hgone) as [H1 H2].
    split; [exact H1|exact (H2 Hnd)]. }
  destruct rq as [m c t cb'|c i [cb'|]|t i|i [cb'|]|nid u|nid u|nid u|p i|p i cb'|cb' t
                 |title code cb'|eq_mid|eq_id eq_cb|nid u];
    cbn [store_exec]; cbv zeta; try done.
  - (* InsertNote *)
    destruct (negb _) eqn:Hpol; [done|].
    destruct (existsb _ _); [done|]. cbn [fst notes_table note_likes].
    apply negb_false_iff in Hpol. unfold Policy.create_notes in Hpol.
    apply andb_true_iff in Hpol as [_ Hact]. cbn in Hact.
    split; [|done]. intros r Hr. rewrite elem_of_app, list_elem_of_singleton.
    split; [|by left]. intros [?| ->]; [done|]. cbn in Hr. congruence.
  - cbn [fst notes_table note_likes]. split; [|done]. by apply Hupd.
  - cbn [fst notes_table note_likes]. split; [|done]. by apply Hupd.
  - (* DeleteNote *)
    cbn [fst]. apply Hdel. intros r _ Hr. by apply Hown.
  - (* UpsertLike *)
    destruct (negb (Policy.like_notes st uid (nid, u))) eqn:Hpol; [done|].
    destruct (has_like st (nid, u)); [done|].
    apply negb_false_iff in Hpol.
    cbn [fst notes_table note_likes]. split; [done|].
    intros r l Hin Hr Hl. rewrite elem_of_app, list_elem_of_singleton.
    split; [|by left]. intros [?| ->]; [done|]. exfalso.
    unfold Policy.like_notes in Hpol. apply andb_true_iff in Hpol as [_ Hact].
    cbn in Hact, Hl. subst nid.
    rewrite no_active_meeting_for_note in Hact; [done..|]. by rewrite Hr.
  - (* DeleteLike *)
    cbn [fst notes_table note_likes]. split; [done|].
    intros r l Hin Hr Hl. rewrite !list_elem_of_In, List.filter_In.
    split; [by intros [? _]|]. intros Hlin. split; [done|].
    apply negb_true_iff. unfold Policy.unlike_own.
    rewrite Hl, no_active_meeting_for_note; [|done..|by rewrite Hr].
    by rewrite !andb_false_r.
  - (* InsertMeeting *)
    destruct (negb _); [done|]. by destruct (_ || _).
  - (* DeleteNotesByMeeting *)
    cbn [fst]. apply Hdel. intros r _ Hr. by apply Hown.
  - (* DeleteMeeting *)
    cbn [fst]. unfold delete_meetings.
    set (gone := fun m => by_id_and_owner eq_id eq_cb m && Policy.delete_own_meetings uid m).
    set (orphan := fun r => existsb _ (meetings st)).
    set (st2 := mkStore _ _ _).
    assert (Horphan : forall r, r ∈ notes_table st -> row_meeting_id r = mid ->
              orphan r = false).
    { intros r _ Hr. subst orphan. cbn beta. apply not_true_iff_false. intros Hex.
      apply existsb_exists in Hex as [m0 [Hm0 Hp]].
      apply andb_true_iff in Hp as [Hgone Hid]. apply String.eqb_eq in Hid.
      apply list_elem_of_In in Hm0. subst gone. cbn beta in Hgone.
      rewrite (delete_meeting_needs_creator st mid cb uid eq_id eq_cb env m0) in Hgone;
        [done..|congruence]. }
    destruct (delete_notes_spares orphan st2 mid Horphan) as [H1 H2].
    split; [exact H1|exact (H2 Hnd)].
  - (* InsertLike *)
    destruct (negb (Policy.like_notes st uid (nid, u))) eqn:Hpol; [done|].
    destruct (has_like st (nid, u)); [done|].
    apply negb_false_iff in Hpol.
    cbn [fst notes_table note_likes]. split; [done|].
    intros r l Hin Hr Hl. rewrite elem_of_app, list_elem_of_singleton.
    split; [|by left]. intros [?| ->]; [done|]. exfalso.
    unfold Policy.like_notes in Hpol. apply andb_true_iff in Hpol as [_ Hact].
    cbn in Hact, Hl. subst nid.
    rewrite no_active_meeting_for_note in Hact; [done..|]. by rewrite Hr.
Qed.

Lemma existsb_filter_false {A} (p keep : A -> bool) (l : list A) :
  existsb p l = false -> existsb p (List.filter keep l) = false.
Proof.
  induction l as [|a l IH]; cbn; [done|].
  intros [Ha Hl]%orb_false_iff. destruct (keep a); cbn; [|by apply IH].
  by rewrite Ha, IH.
Qed.

(** An update of [meetings] that sets [status: 'ended'] makes no meeting
    active. *)
Lemma update_meetings_keeps_inactive uid p flt (ms : list Meeting) (mid : string) :
  is_ended (patch_status p) = true ->
  existsb (fun m => String.eqb (meeting_id m) mid && is_active (meeting_status m)) ms
  = false ->
  existsb (fun m => String.eqb (meeting_id m) mid && is_active (meeting_status m))
          (update_meetings uid p flt ms) = false.
Proof.
  intros Hp. unfold update_meetings.
  induction ms as [|m ms IH]; [done|]. cbn [existsb map].
  intros [Hm Hms]%orb_false_iff. rewrite (IH Hms), orb_false_r.
  destruct (meeting_hit uid flt m); [|done].
  cbn [apply_patch meeting_id meeting_status].
  destruct (patch_status p); [done|]. apply andb_false_r.
Qed.

Lemma update_meetings_keeps_stored uid p flt (ms : list Meeting) (mid cb : string) :
  (exists m, m ∈ ms /\ meeting_id m = mid /\ meeting_created_by m = cb) ->
  exists m, m ∈ update_meetings uid p flt ms
            /\ meeting_id m = mid /\ meeting_created_by m = cb.
Proof.
  intros (m & Hm & Hid & Hcb). unfold update_meetings.
  exists (if meeting_hit uid flt m then apply_patch p m else m).
  split; [apply (in_map_cases (apply_patch p) (meeting_hit uid flt)); by exists m|].
  by destruct (meeting_hit uid flt m).
Qed.

(** A meeting that is stored and not active stays so under every request
    of the clients but its creator's delete. *)
Lemma store_exec_keeps_stored_ended
    (uid : string) (env : StoreEnv) (rq : Request) (st : Store) (mid cb : string) :
  constraints_hold st -> stored_ended st mid cb ->
  ends_only rq = true -> creator_deletes mid cb (uid, env, rq) = false ->
  stored_ended (store_exec uid env rq st).1 mid cb.
Proof.
  intros (Hm & _) [Hin Hstored] He Hno. unfold stored_ended.
  destruct rq as [m c t cb'|c i [cb'|]|t i|i [cb'|]|nid u|nid u|nid u|p i|p i cb'|cb' t
                 |title code cb'|eq_mid|eq_id eq_cb|nid u];
    cbn [store_exec ends_only] in *; try done.
  - destruct (negb _); [done|]. by destruct (existsb (row_by_id _) _).
  - destruct (negb _); [done|]. by destruct (has_like _ _).
  - unfold meeting_active in *. cbn.
    split; [by apply update_meetings_keeps_inactive|by apply update_meetings_keeps_stored].
  - unfold meeting_active in *. cbn.
    split; [by apply update_meetings_keeps_inactive|by apply update_meetings_keeps_stored].
  - (* InsertMeeting *)
    destruct (negb _); [done|].
    destruct (existsb (by_id (env_uuid env)) (meetings st)) eqn:Hex; [done|].
    cbn [orb].
    destruct (existsb (fun m' => String.eqb (meeting_code m') code) (meetings st));
      [done|].
    cbn [fst]. unfold meeting_active in *. cbn [meetings]. split.
    + rewrite existsb_app, Hin. cbn.
      destruct (String.eqb_spec (env_uuid env) mid) as [Heq|]; [|done].
      exfalso. apply not_true_iff_false in Hex. apply Hex, existsb_by_id.
      destruct Hstored as (m & Hm0 & Hid & _). rewrite Heq, <- Hid.
      by apply list_elem_of_fmap_2.
    + destruct Hstored as (m & Hm0 & Hid & Hcb). exists m.
      split; [|done]. apply elem_of_app. by left.
  - (* DeleteMeeting *)
    cbn [fst]. unfold delete_meetings, delete_notes, meeting_active in *.
    cbn [meetings]. split; [by apply existsb_filter_false|].
    destruct Hstored as (m & Hm0 & Hid & Hcb). exists m. split; [|done].
    apply list_elem_of_In, List.filter_In. split; [by apply list_elem_of_In|].
    apply negb_true_iff.
    apply (delete_meeting_needs_creator st mid cb uid eq_id eq_cb env m); try done.
    by exists m.
  - destruct (negb _); [done|]. by destruct (has_like _ _).
Qed.

(** X17.  Once a meeting has ended it stays ended and its items are
    frozen until its creator deletes it.  Whatever requests the store
    executes for whatever users (the updates of [meetings] being the
    ones the clients send, which all set the status to ended), as long
    as the creator's delete of the meeting is not among them the meeting
    is still stored and not active, the rows of [notes] of that meeting
    are the same as before (none added, changed or deleted), and so are
    the likes on them.  The creator's delete is carried out although the
    meeting has ended: it removes the meeting, every item of it and
    every like on those items, and leaves the items of other meetings. *)
Theorem ended_meeting_frozen_until_deleted
    (rqs : list (string * StoreEnv * Request)) (st : Store) (mid cb : string) :
  constraints_hold st -> stored_ended st mid cb ->
  Forall (fun x => ends_only x.2 = true /\ creator_deletes mid cb x = false) rqs ->
  let st' := store_run st rqs in
  stored_ended st' mid cb
  /\ (forall r, row_meeting_id r = mid -> (r ∈ notes_table st' <-> r ∈ notes_table st))
  /\ (forall r l, r ∈ notes_table st -> row_meeting_id r = mid -> l.1 = row_id r ->
        (l ∈ note_likes st' <-> l ∈ note_likes st))
  /\ (forall env : StoreEnv,
        let st'' := (store_exec cb env (DeleteMeeting mid cb) st').1 in
        (mid ∉ map meeting_id (meetings st''))
        /\ (forall r, r ∈ notes_table st'' -> row_meeting_id r <> mid)
        /\ (forall r l, r ∈ notes_table st -> row_meeting_id r = mid ->
              l.1 = row_id r -> l ∉ note_likes st'')
        /\ (forall r, row_meeting_id r <> mid ->
              (r ∈ notes_table st'' <-> r ∈ notes_table st'))).
Proof.
  intros Hc Hs Hall st'.
  assert (Hrun : constraints_hold st' /\ stored_ended st' mid cb
            /\ (forall r, row_meeting_id r = mid ->
                  (r ∈ notes_table st' <-> r ∈ notes_table st))
            /\ (forall r l, r ∈ notes_table st -> row_meeting_id r = mid ->
                  l.1 = row_id r -> (l ∈ note_likes st' <-> l ∈ note_likes st))).
  { subst st'. revert st Hc Hs Hall.
    induction rqs as [|x rqs IH]; intros st Hc Hs Hall; [done|].
    apply Forall_cons in Hall as [[Hx Hno] Hall].
    destruct x as [[uid env] rq]. cbn [fst snd] in *.
    cbn [store_run foldl fst snd]. fold (store_run (store_exec uid env rq st).1 rqs).
    pose proof (store_exec_keeps_constraints uid env rq st Hc) as Hc1.
    pose proof (store_exec_keeps_stored_ended uid env rq st mid cb Hc Hs Hx Hno) as Hs1.
    pose proof (store_exec_freezes_inactive_meeting uid env rq st mid cb Hc Hs Hno)
      as [Hrows Hlikes]. cbv zeta in Hrows, Hlikes.
    destruct (IH _ Hc1 Hs1 Hall) as (Hc' & Hs' & Hrows' & Hlikes').
    split; [done|]. split; [done|]. split.
    - intros r Hr. rewrite (Hrows' r Hr). by apply Hrows.
    - intros r l Hr Hmid Hl.
      rewrite (Hlikes' r l); [|by apply Hrows|done..]. by apply (Hlikes r l). }
  destruct Hrun as (Hc' & Hs' & Hrows & Hlikes).
  split; [done|]. split; [done|]. split; [done|].
  intros env st''. subst st''. cbn [store_exec fst]. unfold delete_meetings.
  set (orphan := fun r => existsb _ (meetings st')).
  destruct Hc' as (Hm' & Hnd' & _ & _). destruct Hs' as [_ (m & Hm & Hid & Hcb)].
  assert (Hgone : by_id_and_owner mid cb m && Policy.delete_own_meetings cb m = true).
  { unfold by_id_and_owner, Policy.delete_own_meetings.
    by rewrite Hid, Hcb, !String.eqb_refl. }
  assert (Horphan : forall r, orphan r = true <-> row_meeting_id r = mid).
  { intros r. subst orphan. cbn beta. rewrite existsb_exists. split.
    - intros (m0 & _ & Hp). apply andb_true_iff in Hp as [Hg Heq].
      apply String.eqb_eq in Heq.
      apply andb_true_iff in Hg as [Hby _]. unfold by_id_and_owner in Hby.
      apply andb_true_iff in Hby as [Hby _]. apply String.eqb_eq in Hby. congruence.
    - intros Hr. exists m. split; [by apply list_elem_of_In|].
      cbn beta. rewrite Hgone. cbn. apply String.eqb_eq. congruence. }
  unfold delete_notes. cbn [meetings notes_table note_likes].
  split; [|split; [|split]].
  - intros Hin. apply list_elem_of_fmap in Hin as (m0 & Hid0 & Hm0).
    apply list_elem_of_In, List.filter_In in Hm0 as [Hm0 Hkeep].
    apply list_elem_of_In in Hm0.
    assert (m0 = m) as ->.
    { apply (same_key meeting_id (meetings st')); [done..|congruence]. }
    by rewrite Hgone in Hkeep.
  - intros r Hin Hr. apply list_elem_of_In, List.filter_In in Hin as [_ Hkeep].
    apply Horphan in Hr. by rewrite Hr in Hkeep.
  - intros r l Hr Hmid Hl Hin.
    apply list_elem_of_In, List.filter_In in Hin as [_ Hkeep].
    apply negb_true_iff, not_true_iff_false in Hkeep. apply Hkeep.
    apply existsb_exists. exists r. split.
    + apply list_elem_of_In. by apply Hrows.
    + rewrite (proj2 (Horphan r) Hmid). cbn. apply String.eqb_eq. done.
  - intros r Hr. rewrite !list_elem_of_In, List.filter_In. split; [by intros [? _]|].
    intros Hin. split; [done|]. apply negb_true_iff, not_true_iff_false.
    intros Ho. by apply Horphan in Ho.
Qed.

Lemma ended_meeting_frozen_until_deleted_witness :
  let closed := mkMeeting "m1" "Retro" "ABC123" "host" ended (Some 500) (Some "host") 0 in
  let st := mkStore [closed] [toggle_row] [("I", "B")] in
  let env := mkStoreEnv "u2" 1000 in
  let st' := store_run st [("A", env, UpdateNoteContent "edited" "I" (Some "A"));
                           ("B", env, DeleteLike "I" "B");
                           ("A", env, DeleteNote "I" (Some "A"));
                           ("host", env, UpdateMeeting (auto_end 1000) "m1");
                           ("A", env, DeleteNotesByMeeting "m1");
                           ("B", env, DeleteMeeting "m1" "B");
                           ("B", env, InsertMeeting "Planning" "DEF456" (Some "B"));
                           ("C", env, InsertLike "I" "C")] in
  toggle_row ∈ notes_table st' /\ ("I", "B") ∈ note_likes st'
  /\ ("m1" ∉ map meeting_id
               (meetings (store_exec "host" env (DeleteMeeting "m1" "host") st').1)).
Proof.
  intros closed st env st'.
  assert (Hc : constraints_hold st).
  { unfold constraints_hold, st. cbn.
    split; [apply NoDup_singleton|]. split; [apply NoDup_singleton|].
    split; [apply NoDup_singleton|].
    intros l Hl. apply list_elem_of_singleton in Hl as ->. apply list_elem_of_here. }
  assert (Hs : stored_ended st "m1" "host").
  { split; [reflexivity|]. exists closed. split; [apply list_elem_of_here|done]. }
  destruct (ended_meeting_frozen_until_deleted
              [("A", env, UpdateNoteContent "edited" "I" (Some "A"));
               ("B", env, DeleteLike "I" "B");
               ("A", env, DeleteNote "I" (Some "A"));
               ("host", env, UpdateMeeting (auto_end 1000) "m1");
               ("A", env, DeleteNotesByMeeting "m1");
               ("B", env, DeleteMeeting "m1" "B");
               ("B", env, InsertMeeting "Planning" "DEF456" (Some "B"));
               ("C", env, InsertLike "I" "C")]
              st "m1" "host" Hc Hs) as (_ & Hrows & Hlikes & Hdel).
  { repeat constructor. }
  split; [|split].
  - apply (Hrows toggle_row eq_refl). apply list_elem_of_here.
  - apply (Hlikes toggle_row ("I", "B")); [apply list_elem_of_here|done..|apply list_elem_of_here].
  - exact (proj1 (Hdel env)).
Defined.

End Frozen.

(** ** Typing indicator, sending side *)

Section TypingSender.

Import NoteColumn.

Lemma shown_typing_snoc (noteId : string) (cs : list Call) (c : Call) :
  shown_typing noteId (cs ++ [c])
  = match c with
    | TypingStart n => if String.eqb n noteId then true else shown_typing noteId cs
    | TypingStop n => if String.eqb n noteId then false else shown_typing noteId cs
    end.
Proof. unfold shown_typing. by rewrite foldl_app. Qed.

Lemma step_keeps_timer_for_shown (t : State) (ev : Event) (noteId : string) :
  (shown_typing noteId (calls t) = true <-> is_Some (NoteColumn.typingTimeoutRef t !! noteId)) ->
  shown_typing noteId (calls (step true true t ev)) = true
  <-> is_Some (NoteColumn.typingTimeoutRef (step true true t ev) !! noteId).
Proof.
  intros Inv. destruct ev as [now n|n|now n]; cbn [step].
  - unfold handleTypingStart. cbn [calls NoteColumn.typingTimeoutRef]. rewrite shown_typing_snoc.
    destruct (String.eqb_spec n noteId) as [->|Hne].
    + rewrite lookup_insert_eq. split; [by eexists|done].
    + by rewrite lookup_insert_ne.
  - unfold handleTypingStop, call_stop. cbn [calls NoteColumn.typingTimeoutRef]. rewrite shown_typing_snoc.
    destruct (String.eqb_spec n noteId) as [->|Hne].
    + rewrite lookup_delete_eq. split; [done|]. intros [? ?]. done.
    + by rewrite lookup_delete_ne.
  - unfold idle_timeout.
    destruct (NoteColumn.typingTimeoutRef t !! n) as [d|] eqn:Hd; [|done].
    case_bool_decide; [|done]. unfold call_stop. cbn [calls NoteColumn.typingTimeoutRef]. rewrite shown_typing_snoc.
    destruct (String.eqb_spec n noteId) as [->|Hne].
    + rewrite lookup_delete_eq. split; [done|]. intros [? ?]. done.
    + by rewrite lookup_delete_ne.
Qed.

(** X18.  The column never leaves the peers with a typing indicator
    it will not take back.  After any sequence of keystrokes, ends of
    editing and timer expiries, the last typing call made for an item is
    a start exactly when a timer is armed for that item; when that timer
    runs, the stop call is made and the timer is dropped; and a keystroke
    re-arms the timer one second after the keystroke. *)
Theorem typing_sender_arms_stop (evs : list Event) (noteId : string) :
  let t := run true true evs in
  (shown_typing noteId (calls t) = true
   <-> is_Some (NoteColumn.typingTimeoutRef t !! noteId))
  /\ (forall now d,
        NoteColumn.typingTimeoutRef t !! noteId = Some d -> d <= now ->
        let t' := step true true t (TimerDue now noteId) in
        shown_typing noteId (calls t') = false
        /\ NoteColumn.typingTimeoutRef t' !! noteId = None)
  /\ (forall now,
        let t' := step true true t (Keystroke now noteId) in
        shown_typing noteId (calls t') = true
        /\ NoteColumn.typingTimeoutRef t' !! noteId = Some (now + 1000)).
Proof.
  intros t. split; [|split].
  - subst t. unfold run.
    induction evs as [|ev evs IH] using rev_ind.
    + cbn. rewrite lookup_empty. split; [done|]. intros [? ?]. done.
    + rewrite foldl_app. cbn [foldl]. by apply step_keeps_timer_for_shown.
  - intros now d Hd Hle. cbn [step]. unfold idle_timeout. rewrite Hd.
    rewrite bool_decide_eq_true_2 by done. unfold call_stop. cbn [calls NoteColumn.typingTimeoutRef].
    rewrite shown_typing_snoc, String.eqb_refl, lookup_delete_eq. done.
  - intros now. cbn [step]. unfold handleTypingStart. cbn [calls NoteColumn.typingTimeoutRef].
    rewrite shown_typing_snoc, String.eqb_refl, lookup_insert_eq. done.
Qed.

End TypingSender.

(** ** Summary e-mail *)

Section SummaryEmail.

Lemma or_else_nonempty (a : option string) (b : string) :
  b <> "" -> or_else a b <> "".
Proof.
  intros Hb. unfold or_else. destruct a as [x|]; [|done].
  by destruct (String.eqb_spec x "").
Qed.

Lemma or_else_Some (a : option string) (b x : string) :
  x <> b -> or_else a b = x <-> a = Some x /\ x <> "".
Proof.
  intros Hx. unfold or_else. destruct a as [y|].
  - destruct (String.eqb_spec y "") as [->|Hy].
    + split; [congruence|]. intros [Heq Hne]. congruence.
    + split; [intros ->; done|]. intros [Heq _]. congruence.
  - split; [congruence|]. intros [Heq _]. done.
Qed.

Lemma name_or_nonempty (profile : option UserProfile) (fallback : string) :
  fallback <> "" -> name_or profile fallback <> "".
Proof. intros Hf. unfold name_or. by do 2 apply or_else_nonempty. Qed.

Lemma unique_from_spec (ids seen : list string) (x : string) :
  x ∈ foldl (fun seen id => if existsb (String.eqb id) seen then seen else seen ++ [id])
        seen ids
  <-> x ∈ seen \/ x ∈ ids.
Proof.
  revert seen. induction ids as [|id ids IH]; intros seen; cbn [foldl].
  - rewrite elem_of_nil. tauto.
  - rewrite IH, elem_of_cons.
    destruct (existsb (String.eqb id) seen) eqn:E.
    + apply existsb_exists in E as (y & Hy & Heq).
      apply String.eqb_eq in Heq as <-. apply list_elem_of_In in Hy.
      split; [tauto|]. intros [?|[->|?]]; tauto.
    + rewrite elem_of_app, list_elem_of_singleton. tauto.
Qed.

Lemma unique_from_length (ids seen : list string) :
  (length (foldl (fun seen id => if existsb (String.eqb id) seen then seen else seen ++ [id])
        seen ids) <= length seen + length ids)%nat.
Proof.
  revert seen. induction ids as [|id ids IH]; intros seen; cbn [foldl length]; [lia|].
  etrans; [apply IH|].
  destruct (existsb (String.eqb id) seen); [lia|].
  rewrite length_app. cbn. lia.
Qed.

Lemma unique_spec (ids : list string) (x : string) : x ∈ unique ids <-> x ∈ ids.
Proof. unfold unique. rewrite unique_from_spec, elem_of_nil. tauto. Qed.

(** X19.  The recipients of the summary e-mail are the
    authors of items that have a usable address: somebody is a recipient
    exactly when some item's author has a profile with that address, the
    address being neither empty nor the placeholder for unknown ones.
    The participant count is the number of recipients and never exceeds
    the number of items; the names of the host, of the recipients and of
    the items' authors are never empty; and the items are passed on in
    order with their content, category and like count. *)
Theorem summary_recipients_are_authors_with_email (now : Z) (meeting : Meeting)
    (notes : list Note) (userProfiles : gmap string UserProfile)
    (by_user : option string) :
  let d := prepareMeetingEmailData now meeting notes userProfiles by_user in
  (forall p, p ∈ participants d <->
     exists note profile,
       note ∈ notes
       /\ userProfiles !! note_created_by note = Some profile
       /\ email profile = Some (participant_email p)
       /\ participant_email p <> "" /\ participant_email p <> unknown_email
       /\ participant_name p = name_or (Some profile) "Unknown User")
  /\ (forall p, p ∈ participants d -> participant_name p <> "")
  /\ participantCount d = length (participants d)
  /\ (participantCount d <= length notes)%nat
  /\ hostName d <> ""
  /\ map summary_content (summary_notes d) = map note_content notes
  /\ map summary_type (summary_notes d) = map note_type notes
  /\ map summary_like_count (summary_notes d) = map like_count notes
  /\ (forall n, n ∈ summary_notes d -> author_name n <> "").
Proof.
  intros d.
  assert (Hmem : forall p, p ∈ participants d <->
     exists note profile,
       note ∈ notes
       /\ userProfiles !! note_created_by note = Some profile
       /\ email profile = Some (participant_email p)
       /\ participant_email p <> "" /\ participant_email p <> unknown_email
       /\ participant_name p = name_or (Some profile) "Unknown User").
  { intros p. subst d. unfold prepareMeetingEmailData. cbn [participants].
    rewrite !list_elem_of_In, List.filter_In, List.in_map_iff.
    split.
    - intros [(userId & <- & Hin) Hne]. cbn [participant_email participant_name] in *.
      apply list_elem_of_In, unique_spec, list_elem_of_In, List.in_map_iff in Hin
        as (note & <- & Hnote).
      apply negb_true_iff in Hne.
      destruct (String.eqb_spec (email_or_unknown (userProfiles !! note_created_by note))
                  unknown_email) as [|Hne']; [done|].
      unfold email_or_unknown in *.
      destruct (proj1 (or_else_Some _ _ _ Hne') eq_refl) as [He Hnz].
      destruct (userProfiles !! note_created_by note) as [profile|] eqn:Hp; [|done].
      exists note, profile. split; [by apply list_elem_of_In|]. done.
    - intros (note & profile & Hnote & Hp & He & Hnz & Hne & Hname).
      assert (Hemail : email_or_unknown (Some profile) = participant_email p).
      { unfold email_or_unknown. apply or_else_Some; [done|]. cbn. done. }
      split.
      + exists (note_created_by note). rewrite Hp, Hemail, <- Hname. split; [by destruct p|].
        apply list_elem_of_In, unique_spec, list_elem_of_In, List.in_map.
        by apply list_elem_of_In.
      + apply negb_true_iff. by destruct (String.eqb_spec (participant_email p) unknown_email). }
  split; [exact Hmem|].
  split.
  { intros p (note & profile & _ & _ & _ & _ & _ & ->)%Hmem.
    by apply name_or_nonempty. }
  split; [done|].
  split.
  { subst d. unfold prepareMeetingEmailData. cbn [participantCount].
    etrans; [apply List.filter_length_le|].
    rewrite length_map. unfold unique.
    etrans; [apply unique_from_length|]. rewrite length_map. cbn. lia. }
  split; [by apply name_or_nonempty|].
  subst d. unfold prepareMeetingEmailData. cbn [summary_notes].
  rewrite !map_map. cbn [summary_content summary_type summary_like_count].
  split; [done|]. split; [done|].
  split.
  { apply map_ext. intros n. destruct (Z.eqb_spec (like_count n) 0); congruence. }
  intros n (note & <- & _)%list_elem_of_In%List.in_map_iff. cbn [author_name].
  by apply name_or_nonempty.
Qed.

End SummaryEmail.

